(** * MediAudit: the audit pipeline of [processors/claim_auditor.py], the
    policy baseline of [processors/policy_engine.py], the bill reader of
    [processors/ocr_engine.py] and the dashboard of [app.py]

    The development embeds, in order:
    - [Py] and [PyDict]: the pieces of the Python runtime the modules
      call ([str.strip], [str.replace], [str.join], the [{x:,}] format,
      [textwrap.dedent], [dict]);
    - [Json]: the values [json.loads] produces and the decoder itself;
    - [Auditor]: [FEW_SHOT_EXAMPLES], [SYSTEM_PROMPT],
      [_build_user_message], [configure_groq] and [audit_claim];
    - [Policy]: [GENERALISED_POLICY], [get_policy_as_prompt_text] and
      [get_policy_markdown];
    - [Base64] and [Ocr]: [base64.b64encode], [_to_base64_jpeg],
      [_pdf_to_images], [_vision_extract], [extract_text_from_bytes] and
      [extract_text_from_path];
    - [App]: [_colour_row], [_init_state], and [main] as the sequence of
      its blocks, with what each of them does to the session state;
    - [Shape] and [Samples]: the vocabulary of the statements and the
      concrete replies they are tried on;
    followed by the properties: facts about texts, about the assembled
    message, about the cleaning of a reply, about the decoder, the
    statements about the audit and the policy text, and then those about
    the bill reader and the dashboard.

    Python's [str] is modelled as the list of its code points, an
    exception as a value of [exn], and a function that can raise as a
    function into [result].  The recursion limit of the interpreter and
    the size limit on integer literals are not modelled. *)

From Stdlib Require Import List NArith ZArith Bool String Ascii Lia.
From Stdlib Require Import QArith.
Import ListNotations.

#[local] Set Warnings "-register-all".

Local Open Scope N_scope.

(** ** Python text *)

Module Py.

(** A Python [str] is a sequence of Unicode code points. *)
Definition str := list N.

(** Source literals are UTF-8 in the repository's files; [utf8] decodes
    the bytes of a literal into its code points. *)
Fixpoint utf8_points (bs : list N) : str :=
  match bs with
  | [] => []
  | b0 :: r =>
      if b0 <? 128 then b0 :: utf8_points r
      else if b0 <? 224 then
        match r with
        | b1 :: r1 => ((b0 - 192) * 64 + (b1 - 128)) :: utf8_points r1
        | _ => [b0]
        end
      else if b0 <? 240 then
        match r with
        | b1 :: b2 :: r2 =>
            ((b0 - 224) * 4096 + (b1 - 128) * 64 + (b2 - 128)) :: utf8_points r2
        | _ => [b0]
        end
      else
        match r with
        | b1 :: b2 :: b3 :: r3 =>
            ((b0 - 240) * 262144 + (b1 - 128) * 4096 + (b2 - 128) * 64 + (b3 - 128))
              :: utf8_points r3
        | _ => [b0]
        end
  end.

Definition utf8 (s : string) : str :=
  utf8_points (map N_of_ascii (list_ascii_of_string s)).

(** The double quote, which the literals below cannot hold directly. *)
Definition dq : string := String (ascii_of_N 34) EmptyString.
Definition nl : N := 10.

Fixpoint str_eqb (a b : str) : bool :=
  match a, b with
  | [], [] => true
  | x :: a', y :: b' => (x =? y) && str_eqb a' b'
  | _, _ => false
  end.

(** [Py_UNICODE_ISSPACE]: the code points [str.strip], [str.isspace] and
    the regular expression class [\s] treat as whitespace. *)
Definition isspace (c : N) : bool :=
  ((9 <=? c) && (c <=? 13)) || ((28 <=? c) && (c <=? 32))
  || (c =? 133) || (c =? 160) || (c =? 5760)
  || ((8192 <=? c) && (c <=? 8202))
  || (c =? 8232) || (c =? 8233) || (c =? 8239) || (c =? 8287) || (c =? 12288).

Fixpoint lstrip (s : str) : str :=
  match s with
  | c :: t => if isspace c then lstrip t else s
  | [] => []
  end.

(** [rstrip] keeps a character when it is not whitespace or when
    something is kept after it. *)
Fixpoint rstrip (s : str) : str :=
  match s with
  | [] => []
  | c :: t =>
      match rstrip t with
      | [] => if isspace c then [] else [c]
      | t' => c :: t'
      end
  end.

(** [s.strip()] *)
Definition strip (s : str) : str := rstrip (lstrip s).

(** [s.startswith(p)] *)
Fixpoint startswith (s p : str) : bool :=
  match p, s with
  | [], _ => true
  | x :: p', y :: s' => (x =? y) && startswith s' p'
  | _ :: _, [] => false
  end.

(** [s.endswith(suffix)] *)
Definition endswith (s suffix : str) : bool := startswith (rev s) (rev suffix).

(** [needle in hay] on strings. *)
Fixpoint contains (hay needle : str) : bool :=
  startswith hay needle ||
  match hay with
  | [] => false
  | _ :: t => contains t needle
  end.

(** [s.replace(a, b)] for single characters [a] and [b]. *)
Definition replace_char (a b : N) (s : str) : str :=
  map (fun c => if c =? a then b else c) s.

(** [sep.join(parts)] *)
Fixpoint join (sep : str) (parts : list str) : str :=
  match parts with
  | [] => []
  | [p] => p
  | p :: rest => p ++ sep ++ join sep rest
  end.

(** [s.split('\n')]: the lines of a text; a text with [n] newlines has
    [n + 1] lines. *)
Fixpoint split_lines (s : str) : list str :=
  match s with
  | [] => [[]]
  | c :: t =>
      if c =? nl then [] :: split_lines t
      else match split_lines t with
           | l :: ls => (c :: l) :: ls
           | [] => [[c]]
           end
  end.

Definition join_lines (ls : list str) : str := join [nl] ls.

(** *** [textwrap.dedent]

    The definition of CPython 3.8 to 3.13, which works with three regular
    expressions over the lines of the text. *)

(** The class [[ \t]]. *)
Definition is_blank (c : N) : bool := (c =? 32) || (c =? 9).

(** A whole line matched by [_whitespace_only_re], one or more blanks
    between two line boundaries. *)
Definition whitespace_only (l : str) : bool :=
  match l with
  | [] => false
  | _ :: _ => forallb is_blank l
  end.

(** [_whitespace_only_re.sub('', text)], line by line. *)
Definition blank_lines (ls : list str) : list str :=
  map (fun l => if whitespace_only l then [] else l) ls.

Fixpoint leading_blanks (l : str) : str :=
  match l with
  | c :: t => if is_blank c then c :: leading_blanks t else []
  | [] => []
  end.

(** [_leading_whitespace_re.findall(text)]: the indentation of every
    line that holds a character other than a blank. *)
Definition indents (ls : list str) : list str :=
  flat_map (fun l => if forallb is_blank l then [] else [leading_blanks l]) ls.

Fixpoint common_prefix (a b : str) : str :=
  match a, b with
  | x :: a', y :: b' => if x =? y then x :: common_prefix a' b' else []
  | _, _ => []
  end.

(** One turn of the loop over the indents. *)
Definition narrow (margin : option str) (indent : str) : option str :=
  match margin with
  | None => Some indent
  | Some m =>
      if startswith indent m then Some m
      else if startswith m indent then Some indent
      else Some (common_prefix m indent)
  end.

Definition margin_of (ins : list str) : option str :=
  fold_left narrow ins None.

(** Removal of [margin] at the start of a line that has it. *)
Definition strip_margin (margin l : str) : str :=
  if startswith l margin then skipn (List.length margin) l else l.

Definition dedent (text : str) : str :=
  let ls := blank_lines (split_lines text) in
  match margin_of (indents ls) with
  | Some (c :: m) => join_lines (map (strip_margin (c :: m)) ls)
  | _ => join_lines ls
  end.

(** *** Formatting integers *)

Fixpoint digits_from (fuel : nat) (n : N) (acc : str) : str :=
  match fuel with
  | O => acc
  | S f =>
      let acc' := (48 + n mod 10) :: acc in
      if n / 10 =? 0 then acc' else digits_from f (n / 10) acc'
  end.

(** Decimal digits of a natural number; [log2 n + 1] steps reach its
    leading digit. *)
Definition digits (n : N) : str :=
  digits_from (S (N.to_nat (N.log2 n))) n [].

(** [str(z)] *)
Definition str_of_int (z : Z) : str :=
  if (z <? 0)%Z then 45 :: digits (Z.abs_N z) else digits (Z.abs_N z).

(** Commas between groups of three, on the digits from the right. *)
Fixpoint group3 (rev_digits : str) : str :=
  match rev_digits with
  | a :: b :: c :: (_ :: _) as more => a :: b :: c :: 44 :: group3 more
  | _ => rev_digits
  end.

(** [format(z, ',')], the [{z:,}] of an f-string. *)
Definition format_comma (z : Z) : str :=
  let grouped := rev (group3 (rev (digits (Z.abs_N z)))) in
  if (z <? 0)%Z then 45 :: grouped else grouped.

(** [s.title()] for a text of ASCII characters: a letter is put in upper
    case after a character that is not a letter and in lower case after
    a letter.  Outside ASCII the Unicode tables decide what is a letter
    and what its cases are; there the result is left open. *)
Definition is_upper (c : N) : bool := (65 <=? c) && (c <=? 90).
Definition is_lower (c : N) : bool := (97 <=? c) && (c <=? 122).

Fixpoint title_from (previous_is_cased : bool) (s : str) : str :=
  match s with
  | [] => []
  | c :: t =>
      if is_upper c then
        (if previous_is_cased then c + 32 else c) :: title_from true t
      else if is_lower c then
        (if previous_is_cased then c else c - 32) :: title_from true t
      else c :: title_from false t
  end.

Definition title (s : str) : option str :=
  if forallb (fun c => c <? 128) s then Some (title_from false s) else None.

(** Helpers to write the literals of the source. *)
Definition cat (l : list string) : string := String.concat EmptyString l.
Definition q (s : string) : string := (dq ++ s ++ dq)%string.
Definition literal_text (ls : list string) : str := join_lines (map utf8 ls).

End Py.

(** ** Python dictionaries and exceptions *)

Module PyDict.
Import Py.

Section Dict.
Context {V : Type}.

(** A [dict] with string keys: keys are unique and kept in insertion
    order, which [values()] and iteration follow. *)
Definition dict := list (str * V).

(** [key in d] *)
Fixpoint has_key (d : dict) (k : str) : bool :=
  match d with
  | [] => false
  | (k', _) :: d' => str_eqb k' k || has_key d' k
  end.

(** [d.get(key)], [None] when the key is missing. *)
Fixpoint lookup (d : dict) (k : str) : option V :=
  match d with
  | [] => None
  | (k', v) :: d' => if str_eqb k' k then Some v else lookup d' k
  end.

(** [d.get(key, default)] *)
Definition get (d : dict) (k : str) (default : V) : V :=
  match lookup d k with
  | Some v => v
  | None => default
  end.

(** [d.values()] *)
Definition values (d : dict) : list V := map snd d.

(** [d[key] = v]: an existing key keeps its position. *)
Fixpoint set (d : dict) (k : str) (v : V) : dict :=
  match d with
  | [] => [(k, v)]
  | (k', v') :: d' =>
      if str_eqb k' k then (k', v) :: d' else (k', v') :: set d' k v
  end.

(** [dict(pairs)] *)
Definition of_pairs (ps : list (str * V)) : dict :=
  fold_left (fun d kv => set d (fst kv) (snd kv)) ps [].
End Dict.
Arguments dict : clear implicits.

End PyDict.

(** The exceptions the modelled code can raise. *)
Inductive exn :=
| RuntimeError (msg : Py.str)
| JSONDecodeError
| TypeError
| AttributeError
| KeyError (key : Py.str)
| ServiceError (cause : Py.str).

(** A computation that returns or raises. *)
Definition result (A : Type) := (exn + A)%type.
Definition ret {A} (a : A) : result A := inr a.
Definition raise {A} (e : exn) : result A := inl e.
Definition bind {A B} (m : result A) (k : A -> result B) : result B :=
  match m with
  | inl e => inl e
  | inr a => k a
  end.
Notation "x <- m ;; k" := (bind m (fun x => k))
  (at level 61, m at next level, right associativity).

(** ** JSON values and [json.loads] *)

Module Json.
Import Py.

(** What [json.loads] builds: [None], [bool], [int], [float], [str],
    [list] and [dict].  A [float] is kept as the text of its literal,
    since nothing in the audit path computes with it. *)
Inductive value :=
| JNull
| JBool (b : bool)
| JInt (z : Z)
| JFloat (lexeme : str)
| JStr (s : str)
| JList (items : list value)
| JDict (members : PyDict.dict value).

(** Outcome of the fuelled decoder: [Exhausted] is the fuel running out,
    [Invalid] is [JSONDecodeError]. *)
Inductive outcome (A : Type) :=
| Done (a : A)
| Invalid
| Exhausted.
Arguments Done {A} a.
Arguments Invalid {A}.
Arguments Exhausted {A}.

(** [WHITESPACE = re.compile(r'[ \t\n\r]*')] *)
Definition is_ws (c : N) : bool :=
  (c =? 32) || (c =? 9) || (c =? 10) || (c =? 13).

Fixpoint skip_ws (s : str) : str :=
  match s with
  | c :: t => if is_ws c then skip_ws t else s
  | [] => []
  end.

Definition is_digit (c : N) : bool := (48 <=? c) && (c <=? 57).

Definition hex_digit (c : N) : option N :=
  if is_digit c then Some (c - 48)
  else if (97 <=? c) && (c <=? 102) then Some (c - 87)
  else if (65 <=? c) && (c <=? 70) then Some (c - 55)
  else None.

(** [_decode_uXXXX]: exactly four hexadecimal digits. *)
Definition hex4 (a b c d : N) : option N :=
  match hex_digit a, hex_digit b, hex_digit c, hex_digit d with
  | Some x, Some y, Some z, Some w => Some (((x * 16 + y) * 16 + z) * 16 + w)
  | _, _, _, _ => None
  end.

(** The [BACKSLASH] table of [json.decoder]. *)
Definition backslash (e : N) : option N :=
  if e =? 34 then Some 34          (* quote *)
  else if e =? 92 then Some 92     (* backslash *)
  else if e =? 47 then Some 47     (* / *)
  else if e =? 98 then Some 8      (* b *)
  else if e =? 102 then Some 12    (* f *)
  else if e =? 110 then Some 10    (* n *)
  else if e =? 114 then Some 13    (* r *)
  else if e =? 116 then Some 9     (* t *)
  else None.

Definition cons_chunk (c : N) (r : option (str * str)) : option (str * str) :=
  match r with
  | Some (x, rest) => Some (c :: x, rest)
  | None => None
  end.

(** [scanstring(s, end, strict=True)], entered after the opening quote:
    the decoded string and what follows its closing quote. *)
Fixpoint scanstring (s : str) : option (str * str) :=
  match s with
  | [] => None
  | c :: t =>
      if c =? 34 then Some ([], t)
      else if c =? 92 then
        match t with
        | [] => None
        | e :: t1 =>
            if e =? 117 then
              match t1 with
              | h1 :: h2 :: h3 :: h4 :: t2 =>
                  match hex4 h1 h2 h3 h4 with
                  | None => None
                  | Some uni =>
                      let single := cons_chunk uni (scanstring t2) in
                      if (55296 <=? uni) && (uni <=? 56319) then
                        match t2 with
                        | b :: u :: g1 :: g2 :: g3 :: g4 :: t3 =>
                            if (b =? 92) && (u =? 117) then
                              match hex4 g1 g2 g3 g4 with
                              | None => None
                              | Some uni2 =>
                                  if (56320 <=? uni2) && (uni2 <=? 57343) then
                                    cons_chunk
                                      (65536 + (uni - 55296) * 1024 + (uni2 - 56320))
                                      (scanstring t3)
                                  else single
                              end
                            else single
                        | _ => single
                        end
                      else single
                  end
              | _ => None
              end
            else
              match backslash e with
              | Some ch => cons_chunk ch (scanstring t1)
              | None => None
              end
        end
      else if c <? 32 then None
      else cons_chunk c (scanstring t)
  end.

(** Longest prefix of decimal digits, and the rest. *)
Fixpoint span_digits (s : str) : str * str :=
  match s with
  | c :: t =>
      if is_digit c then let (ds, r) := span_digits t in (c :: ds, r)
      else ([], s)
  | [] => ([], [])
  end.

Definition digits_value (ds : str) : Z :=
  fold_left (fun acc c => (acc * 10 + Z.of_N (c - 48))%Z) ds 0%Z.

(** The integer group of [NUMBER_RE]: an optional minus sign, then
    either 0 or a nonzero digit followed by digits. *)
Definition match_integer (s : str) : option (str * str) :=
  let (sign, s1) :=
    match s with
    | c :: t => if c =? 45 then ([45], t) else ([], s)
    | [] => ([], s)
    end in
  match s1 with
  | d :: t =>
      if d =? 48 then Some (sign ++ [48], t)
      else if is_digit d then
        let (ds, r) := span_digits t in Some (sign ++ d :: ds, r)
      else None
  | [] => None
  end.

(** The optional group [(\.\d+)?]. *)
Definition match_frac (s : str) : str * str :=
  match s with
  | dot :: d :: t =>
      if (dot =? 46) && is_digit d then
        let (ds, r) := span_digits t in (dot :: d :: ds, r)
      else ([], s)
  | _ => ([], s)
  end.

(** The optional group [([eE][-+]?\d+)?]. *)
Definition match_exp (s : str) : str * str :=
  match s with
  | e :: t =>
      if (e =? 101) || (e =? 69) then
        match t with
        | c :: t1 =>
            if (c =? 45) || (c =? 43) then
              match t1 with
              | d :: t2 =>
                  if is_digit d then
                    let (ds, r) := span_digits t2 in (e :: c :: d :: ds, r)
                  else ([], s)
              | [] => ([], s)
              end
            else if is_digit c then
              let (ds, r) := span_digits t1 in (e :: c :: ds, r)
            else ([], s)
        | [] => ([], s)
        end
      else ([], s)
  | [] => ([], s)
  end.

Definition integer_value (lexeme : str) : Z :=
  match lexeme with
  | c :: ds => if c =? 45 then (- digits_value ds)%Z else digits_value lexeme
  | [] => 0%Z
  end.

(** [match_number] and the conversion that follows it in [_scan_once]. *)
Definition match_number (s : str) : option (value * str) :=
  match match_integer s with
  | None => None
  | Some (integer, r0) =>
      let (frac, r1) := match_frac r0 in
      let (exp, r2) := match_exp r1 in
      match frac, exp with
      | [], [] => Some (JInt (integer_value integer), r2)
      | _, _ => Some (JFloat (integer ++ frac ++ exp), r2)
      end
  end.

(** [s[idx:idx + len(w)] == w], giving what follows the word. *)
Fixpoint after_word (w s : str) : option str :=
  match w, s with
  | [], _ => Some s
  | x :: w', y :: s' => if x =? y then after_word w' s' else None
  | _ :: _, [] => None
  end.

(** The constants [_scan_once] tries once no number matches. *)
Definition scan_constant (s : str) : option (value * str) :=
  match after_word (utf8 "NaN") s with
  | Some r => Some (JFloat (utf8 "NaN"), r)
  | None =>
      match after_word (utf8 "Infinity") s with
      | Some r => Some (JFloat (utf8 "Infinity"), r)
      | None =>
          match after_word (utf8 "-Infinity") s with
          | Some r => Some (JFloat (utf8 "-Infinity"), r)
          | None => None
          end
      end
  end.

Definition of_option {A} (o : option A) : outcome A :=
  match o with
  | Some a => Done a
  | None => Invalid
  end.

(** The branches of [_scan_once] that do not recurse, in its order:
    the three literals, a number, then the three constants. *)
Definition scan_leaf (s : str) : outcome (value * str) :=
  match after_word (utf8 "null") s with
  | Some r => Done (JNull, r)
  | None =>
  match after_word (utf8 "true") s with
  | Some r => Done (JBool true, r)
  | None =>
  match after_word (utf8 "false") s with
  | Some r => Done (JBool false, r)
  | None =>
  match match_number s with
  | Some vr => Done vr
  | None => of_option (scan_constant s)
  end end end end.

(** [_scan_once], [JSONArray] and [JSONObject].  [array_items] and
    [object_members] are the two [while True] loops, entered at the
    first character of an element and of a key's opening quote. *)
Fixpoint scan_once (fuel : nat) (s : str) : outcome (value * str) :=
  match fuel with
  | O => Exhausted
  | S f =>
      match s with
      | [] => Invalid
      | c :: t =>
          if c =? 34 then
            match scanstring t with
            | Some (x, r) => Done (JStr x, r)
            | None => Invalid
            end
          else if c =? 123 then
            match skip_ws t with
            | c1 :: t1 =>
                if c1 =? 125 then Done (JDict [], t1)
                else
                  match object_members f (c1 :: t1) with
                  | Done (ps, r) => Done (JDict (PyDict.of_pairs ps), r)
                  | Invalid => Invalid
                  | Exhausted => Exhausted
                  end
            | [] => Invalid
            end
          else if c =? 91 then
            match skip_ws t with
            | c1 :: t1 =>
                if c1 =? 93 then Done (JList [], t1)
                else
                  match array_items f (c1 :: t1) with
                  | Done (vs, r) => Done (JList vs, r)
                  | Invalid => Invalid
                  | Exhausted => Exhausted
                  end
            | [] => Invalid
            end
          else scan_leaf s
      end
  end

with array_items (fuel : nat) (s : str) : outcome (list value * str) :=
  match fuel with
  | O => Exhausted
  | S f =>
      match scan_once f s with
      | Done (v, r) =>
          match skip_ws r with
          | c :: t =>
              if c =? 93 then Done ([v], t)
              else if c =? 44 then
                match array_items f (skip_ws t) with
                | Done (vs, r') => Done (v :: vs, r')
                | Invalid => Invalid
                | Exhausted => Exhausted
                end
              else Invalid
          | [] => Invalid
          end
      | Invalid => Invalid
      | Exhausted => Exhausted
      end
  end

with object_members (fuel : nat) (s : str) : outcome (list (str * value) * str) :=
  match fuel with
  | O => Exhausted
  | S f =>
      match s with
      | q :: t =>
          if q =? 34 then
            match scanstring t with
            | None => Invalid
            | Some (key, r) =>
                match skip_ws r with
                | colon :: r1 =>
                    if colon =? 58 then
                      match scan_once f (skip_ws r1) with
                      | Done (v, r2) =>
                          match skip_ws r2 with
                          | c :: t2 =>
                              if c =? 125 then Done ([(key, v)], t2)
                              else if c =? 44 then
                                match object_members f (skip_ws t2) with
                                | Done (ps, r') => Done ((key, v) :: ps, r')
                                | Invalid => Invalid
                                | Exhausted => Exhausted
                                end
                              else Invalid
                          | [] => Invalid
                          end
                      | Invalid => Invalid
                      | Exhausted => Exhausted
                      end
                    else Invalid
                | [] => Invalid
                end
            end
          else Invalid
      | [] => Invalid
      end
  end.

(** [JSONDecoder.decode]: one value between optional whitespace, and
    nothing after it. *)
Definition decode (fuel : nat) (s : str) : outcome value :=
  match scan_once fuel (skip_ws s) with
  | Done (v, r) =>
      match skip_ws r with
      | [] => Done v
      | _ :: _ => Invalid
      end
  | Invalid => Invalid
  | Exhausted => Exhausted
  end.

(** [json.loads(s)] for a [str] argument: a leading byte-order mark is
    refused.  Every call consumes a character before the next one starts
    and each loop takes one more step per element, so twice the length
    of the text bounds the depth of the recursion. *)
Definition loads (s : str) : outcome value :=
  match s with
  | c :: _ => if c =? 65279 then Invalid else decode (S (2 * List.length s)) s
  | [] => decode (S (2 * List.length s)) s
  end.

(** What is left of the text once a character [c] is appended to it:
    used to compare the decoding of a text with and without a last
    character. *)
Definition keep_last {A} (c : N) (o : option (A * str)) : option (A * str) :=
  match o with
  | Some (x, r) => Some (x, r ++ [c])
  | None => None
  end.

Definition keep_last_done {A} (c : N) (o : outcome (A * str)) : outcome (A * str) :=
  match o with
  | Done (x, r) => Done (x, r ++ [c])
  | Invalid => Invalid
  | Exhausted => Exhausted
  end.

End Json.

(** ** [processors/claim_auditor.py] *)

Module Auditor.
Import Py Json.

(** *** Few-shot examples and system prompt *)

Definition FEW_SHOT_EXAMPLES_literal : list string :=
  [
    EmptyString;
    "<examples>";
    EmptyString;
    cat ["  <example id="; q "1"; ">"];
    "    <scenario>Room rent sub-limit violation</scenario>";
    "    <bill_snippet>Room Charges: ICU stay – 5 days × ₹8,000/day = ₹40,000</bill_snippet>";
    "    <policy_snippet>ICU room rent capped at ₹10,000/day</policy_snippet>";
    "    <expected_row>";
    "      {";
    cat ["        "; q "parameter"; ": "; q "ICU Room Rent"; ","];
    cat ["        "; q "bill_detail"; ": "; q "₹8,000/day × 5 days = ₹40,000"; ","];
    cat ["        "; q "policy_clause"; ": "; q "ICU sub-limit: ₹10,000/day"; ","];
    cat ["        "; q "status"; ": "; q "✅"; ","];
    cat ["        "; q "lag_reason"; ": "; q "Daily ICU rate is within the ₹10,000/day sub-limit. Fully admissible."; ","];
    cat ["        "; q "risk_score"; ": 5,"];
    cat ["        "; q "risk_label"; ": "; q "Low"];
    "      }";
    "    </expected_row>";
    "  </example>";
    EmptyString;
    cat ["  <example id="; q "2"; ">"];
    "    <scenario>Waiting period not satisfied – knee replacement</scenario>";
    "    <bill_snippet>Knee Replacement Surgery – Date: 14-Mar-2024. Policy Inception: 01-Feb-2024</bill_snippet>";
    "    <policy_snippet>Joint replacement: 24-month waiting period</policy_snippet>";
    "    <expected_row>";
    "      {";
    cat ["        "; q "parameter"; ": "; q "Knee Replacement Surgery"; ","];
    cat ["        "; q "bill_detail"; ": "; q "Procedure on 14-Mar-2024 (policy age ≈ 1.5 months)"; ","];
    cat ["        "; q "policy_clause"; ": "; q "Waiting Period – Joint replacement: 24 months"; ","];
    cat ["        "; q "status"; ": "; q "❌"; ","];
    cat ["        "; q "lag_reason"; ": "; q "Waiting period not met. Remaining: ≈22.5 months. Claim not admissible."; ","];
    cat ["        "; q "risk_score"; ": 95,"];
    cat ["        "; q "risk_label"; ": "; q "Critical"];
    "      }";
    "    </expected_row>";
    "  </example>";
    EmptyString;
    cat ["  <example id="; q "3"; ">"];
    "    <scenario>Pre-existing diabetes complication</scenario>";
    "    <bill_snippet>Diabetic Nephropathy treatment – ₹80,000</bill_snippet>";
    "    <policy_snippet>PED covered after 2-year waiting period</policy_snippet>";
    "    <expected_row>";
    "      {";
    cat ["        "; q "parameter"; ": "; q "Diabetic Nephropathy"; ","];
    cat ["        "; q "bill_detail"; ": "; q "₹80,000 – complication of pre-existing diabetes"; ","];
    cat ["        "; q "policy_clause"; ": "; q "Pre-Existing Disease (PED) – 2-year waiting period"; ","];
    cat ["        "; q "status"; ": "; q "⚠️"; ","];
    cat ["        "; q "lag_reason"; ": "; q "Diabetes is a known PED. Covered only if policy is >2 years old. 10% co-pay applies."; ","];
    cat ["        "; q "risk_score"; ": 60,"];
    cat ["        "; q "risk_label"; ": "; q "Medium"];
    "      }";
    "    </expected_row>";
    "  </example>";
    EmptyString;
    cat ["  <example id="; q "4"; ">"];
    "    <scenario>Excluded treatment – cosmetic</scenario>";
    "    <bill_snippet>Rhinoplasty (nose reshaping) – ₹1,20,000</bill_snippet>";
    "    <policy_snippet>Cosmetic surgery explicitly excluded</policy_snippet>";
    "    <expected_row>";
    "      {";
    cat ["        "; q "parameter"; ": "; q "Rhinoplasty"; ","];
    cat ["        "; q "bill_detail"; ": "; q "₹1,20,000 – elective cosmetic procedure"; ","];
    cat ["        "; q "policy_clause"; ": "; q "Exclusion – Cosmetic/aesthetic treatments"; ","];
    cat ["        "; q "status"; ": "; q "❌"; ","];
    cat ["        "; q "lag_reason"; ": "; q "Elective cosmetic surgery is a hard exclusion. Claim fully rejected."; ","];
    cat ["        "; q "risk_score"; ": 100,"];
    cat ["        "; q "risk_label"; ": "; q "Critical"];
    "      }";
    "    </expected_row>";
    "  </example>";
    EmptyString;
    cat ["  <example id="; q "5"; ">"];
    "    <scenario>Co-pay – senior citizen non-network hospital</scenario>";
    "    <bill_snippet>Patient age 63. Total bill ₹2,00,000. Non-network hospital.</bill_snippet>";
    "    <policy_snippet>Senior citizen co-pay 20%; Non-network co-pay 20% (max combined 30%)</policy_snippet>";
    "    <expected_row>";
    "      {";
    cat ["        "; q "parameter"; ": "; q "Senior + Non-network Co-pay"; ","];
    cat ["        "; q "bill_detail"; ": "; q "₹2,00,000 – age 63, non-network hospital"; ","];
    cat ["        "; q "policy_clause"; ": "; q "Co-pay – Senior citizen 20% + Non-network 20% (capped at 30%)"; ","];
    cat ["        "; q "status"; ": "; q "⚠️"; ","];
    cat ["        "; q "lag_reason"; ": "; q "Combined co-pay capped at 30%. Patient liability: ₹60,000. Admissible: ₹1,40,000."; ","];
    cat ["        "; q "risk_score"; ": 40,"];
    cat ["        "; q "risk_label"; ": "; q "Medium"];
    "      }";
    "    </expected_row>";
    "  </example>";
    EmptyString;
    "</examples>";
    EmptyString
  ]%string.

Definition FEW_SHOT_EXAMPLES : str :=
  dedent (literal_text FEW_SHOT_EXAMPLES_literal).

Definition SYSTEM_PROMPT_literal : list string :=
  [
    EmptyString;
    "You are MediAudit, a senior insurance underwriting and claim validation expert";
    "with 20+ years of experience across Indian health insurance policies.";
    EmptyString;
    "You will receive:";
    "  1. <policy_baseline>  – A generalised insurance policy with standard rules.";
    "  2. <uploaded_policy>  – An insurer-specific policy (may be empty; use baseline if so).";
    "  3. <bill>             – Extracted medical bill text.";
    "  4. <examples>         – Few-shot labelled examples showing exact output format.";
    EmptyString;
    "Your tasks:";
    "  A. For EACH line item in the bill, produce one JSON row with these exact keys:";
    cat ["       "; q "parameter"; "    – treatment / charge name"];
    cat ["       "; q "bill_detail"; "  – amount + description from bill"];
    cat ["       "; q "policy_clause"; "– matching policy rule (baseline or uploaded)"];
    cat ["       "; q "status"; "       – exactly one of: ✅  ⚠️  ❌"];
    cat ["       "; q "lag_reason"; "   – 1–2 sentence explanation; quantify monetary gaps"];
    cat ["       "; q "risk_score"; "   – integer 0–100 (0=no risk, 100=critical rejection)"];
    cat ["       "; q "risk_label"; "   – one of: "; q "Low"; " | "; q "Medium"; " | "; q "High"; " | "; q "Critical"];
    EmptyString;
    cat ["  B. After the rows, produce an "; q "eligibility"; " object:"];
    cat ["       "; q "verdict"; "      – one of: "; q "Eligible"; " | "; q "Partially Eligible"; " | "; q "Not Eligible"];
    cat ["       "; q "summary"; "      – 2–3 sentence plain-English explanation for the patient"];
    cat ["       "; q "next_steps"; "   – list of 3–5 concrete action strings the patient should take"];
    EmptyString;
    "  C. Risk scoring guide:";
    "       0–20   → Low      (no issue or minor informational flag)";
    "       21–50  → Medium   (partial coverage, co-pay, sub-limit breach)";
    "       51–80  → High     (waiting period issue, PED concern)";
    "       81–100 → Critical (hard exclusion, fraud risk, full rejection)";
    EmptyString;
    "  D. Blend the uploaded policy with the baseline:";
    "       - If uploaded policy has a stricter rule → use uploaded";
    "       - If baseline has a stricter rule and uploaded is silent → use baseline";
    "       - Use LLM reasoning for anything neither document covers explicitly";
    EmptyString;
    cat ["Output ONLY a valid JSON object with two keys: "; q "rows"; " and "; q "eligibility"; "."];
    "No markdown fences. No commentary outside the JSON.";
    EmptyString
  ]%string.

Definition SYSTEM_PROMPT : str :=
  strip (dedent (literal_text SYSTEM_PROMPT_literal)).

(** *** User message builder *)

Definition NO_UPLOADED_POLICY : str :=
  utf8 "No insurer-specific policy uploaded. Use baseline only.".

(** The expression interpolated in the uploaded-policy line: a string is
    true when it is not empty. *)
Definition uploaded_or_fallback (uploaded_policy_text : str) : str :=
  match strip uploaded_policy_text with
  | _ :: _ => uploaded_policy_text
  | [] => NO_UPLOADED_POLICY
  end.

(** The f-string, one entry per line of the template; an interpolated
    text may itself hold newlines. *)
Definition user_message_template
    (bill_text policy_baseline_text uploaded_policy_text : str) : str :=
  join_lines
    [ [];
      utf8 "    " ++ FEW_SHOT_EXAMPLES;
      [];
      utf8 "    <policy_baseline>";
      utf8 "    " ++ policy_baseline_text;
      utf8 "    </policy_baseline>";
      [];
      utf8 "    <uploaded_policy>";
      utf8 "    " ++ uploaded_or_fallback uploaded_policy_text;
      utf8 "    </uploaded_policy>";
      [];
      utf8 "    <bill>";
      utf8 "    " ++ bill_text;
      utf8 "    </bill>";
      [];
      utf8 "    Now perform the full audit and return the JSON object.";
      utf8 "    " ].

Definition _build_user_message
    (bill_text policy_baseline_text uploaded_policy_text : str) : str :=
  strip (dedent
    (user_message_template bill_text policy_baseline_text uploaded_policy_text)).

(** *** The service client *)

(** The [Groq] client, known here by the key it was built with. *)
Record Groq := { api_key : str }.

(** What [chat.completions.create] is called with. *)
Record request := {
  req_model : str;
  req_temperature : Q;
  req_response_format : str;
  req_system : str;
  req_user : str
}.

(** What the call gives back: the content of the first choice, a [str],
    or an exception of the client library. *)
Inductive reply :=
| Content (text : str)
| Failed (cause : str).

(** The hosted service, as seen from this process. *)
Definition service := Groq -> request -> reply.

(** [configure_groq]: binds the module-level [_client]. *)
Definition configure_groq (key : str) (_client : option Groq) : option Groq :=
  Some {| api_key := key |}.

(** *** Cleaning and repairing the response *)

Definition backtick : N := 96.

(** The letters of the tag under [re.IGNORECASE]; for [s] the Unicode
    case table adds the long s (U+017F). *)
Definition is_j (c : N) : bool := (c =? 106) || (c =? 74).
Definition is_s (c : N) : bool := (c =? 115) || (c =? 83) || (c =? 383).
Definition is_o (c : N) : bool := (c =? 111) || (c =? 79).
Definition is_n (c : N) : bool := (c =? 110) || (c =? 78).

(** The optional group [(?:json)?], which takes the tag when it is there. *)
Definition skip_json_tag (s : str) : str :=
  match s with
  | j :: s' :: o :: n :: t =>
      if is_j j && is_s s' && is_o o && is_n n then t else s
  | _ => s
  end.

(** The first [re.sub], which deletes a match of [^```(?:json)?\s*] under
    [re.IGNORECASE]: the pattern can only match at the start of the text. *)
Definition sub_opening_fence (raw : str) : str :=
  match raw with
  | b1 :: b2 :: b3 :: t =>
      if (b1 =? backtick) && (b2 =? backtick) && (b3 =? backtick)
      then lstrip (skip_json_tag t)
      else raw
  | _ => raw
  end.

(** A match of [\s*```$] starting here, and what is left after it: [$]
    holds at the end of the text and before a newline that ends it. *)
Definition closing_fence_here (s : str) : option str :=
  match lstrip s with
  | b1 :: b2 :: b3 :: t =>
      if (b1 =? backtick) && (b2 =? backtick) && (b3 =? backtick) then
        match t with
        | [] => Some []
        | [c] => if c =? nl then Some [nl] else None
        | _ => None
        end
      else None
  | _ => None
  end.

(** The second [re.sub], which deletes a match of [\s*```$]: the leftmost
    match goes, and nothing that follows it can match again. *)
Fixpoint sub_closing_fence (raw : str) : str :=
  match closing_fence_here raw with
  | Some rest => rest
  | None =>
      match raw with
      | [] => []
      | c :: t => c :: sub_closing_fence t
      end
  end.

(** Lines 255 to 257, from the content of the reply to the text parsed. *)
Definition clean_response (content : str) : str :=
  sub_closing_fence (sub_opening_fence (strip content)).

(** [json.loads(raw)].  The decoder never runs out of fuel (lemma
    [loads_not_exhausted] below), so the last branch is never taken. *)
Definition parse_response (raw : str) : result value :=
  match loads raw with
  | Done v => ret v
  | Invalid => raise JSONDecodeError
  | Exhausted => raise JSONDecodeError
  end.

(** [key in x] for a string [key]. *)
Definition py_in (key : str) (x : value) : result bool :=
  match x with
  | JDict d => ret (PyDict.has_key d key)
  | JList l =>
      ret (existsb (fun v => match v with JStr s => str_eqb s key | _ => false end) l)
  | JStr s => ret (contains s key)
  | _ => raise TypeError
  end.

(** [x.values()] *)
Definition py_values (x : value) : result (list value) :=
  match x with
  | JDict d => ret (PyDict.values d)
  | _ => raise AttributeError
  end.

(** [x.get(key, default)] *)
Definition py_get (x : value) (key : str) (default : value) : result value :=
  match x with
  | JDict d => ret (PyDict.get d key default)
  | _ => raise AttributeError
  end.

(** [len(x)] *)
Definition py_len (x : value) : result nat :=
  match x with
  | JList l => ret (List.length l)
  | JDict d => ret (List.length d)
  | JStr s => ret (List.length s)
  | _ => raise TypeError
  end.

(** [isinstance(v, list)] *)
Definition is_list (v : value) : bool :=
  match v with
  | JList _ => true
  | _ => false
  end.

(** [next((v for v in vs if isinstance(v, list)), [])] *)
Definition first_list (vs : list value) : value :=
  match find is_list vs with
  | Some v => v
  | None => JList []
  end.

Definition FALLBACK_ELIGIBILITY : value :=
  JDict
    [ (utf8 "verdict", JStr (utf8 "Unknown"));
      (utf8 "summary", JStr (utf8 "Could not determine eligibility."));
      (utf8 "next_steps", JList [JStr (utf8 "Please review manually.")]) ].

(** Lines 262 to 270: the repair of a response without [rows]. *)
Definition repair (parsed : value) : result value :=
  has_rows <- py_in (utf8 "rows") parsed ;;
  if negb has_rows then
    vs <- py_values parsed ;;
    let rows := first_list vs in
    eligibility <- py_get parsed (utf8 "eligibility") FALLBACK_ELIGIBILITY ;;
    ret (JDict [(utf8 "rows", rows); (utf8 "eligibility", eligibility)])
  else ret parsed.

(** Lines 272 to 276: the two arguments of the closing [logger.info],
    which Python computes before the call. *)
Definition log_summary (parsed : value) : result (nat * value) :=
  rows <- py_get parsed (utf8 "rows") (JList []) ;;
  n <- py_len rows ;;
  eligibility <- py_get parsed (utf8 "eligibility") (JDict []) ;;
  verdict <- py_get eligibility (utf8 "verdict") (JStr (utf8 "?")) ;;
  ret (n, verdict).

(** Lines 259 to 277: everything [audit_claim] does with the text of
    the reply once the fences are off. *)
Definition normalise (raw : str) : result value :=
  parsed <- parse_response raw ;;
  parsed <- repair parsed ;;
  _ <- log_summary parsed ;;
  ret parsed.

(** *** [audit_claim] *)

Definition UNCONFIGURED : exn :=
  RuntimeError
    (utf8 "Groq client not initialised. Call configure_groq(api_key) first.").

Definition DEFAULT_MODEL : str := utf8 "llama-3.3-70b-versatile".
Definition DEFAULT_TEMPERATURE : Q := 1 # 10.

(** The outcome of a call and the requests it sent to the service.  Of
    the two [logger.info] calls only the arguments of the second can
    raise; they are [log_summary], inside [normalise]. *)
Definition audit_claim
    (_client : option Groq) (svc : service)
    (bill_text policy_baseline_text uploaded_policy_text model_name : str)
    (temperature : Q) : result value * list request :=
  match _client with
  | None => (raise UNCONFIGURED, [])
  | Some client =>
      let user_message :=
        _build_user_message bill_text policy_baseline_text uploaded_policy_text in
      let req :=
        {| req_model := model_name;
           req_temperature := temperature;
           req_response_format := utf8 "json_object";
           req_system := SYSTEM_PROMPT;
           req_user := user_message |} in
      match svc client req with
      | Failed cause => (raise (ServiceError cause), [req])
      | Content text => (normalise (clean_response text), [req])
      end
  end.

(** *** The process: calls on the module, in order *)

Inductive call :=
| Configure (key : str)
| Audit (bill_text policy_baseline_text uploaded_policy_text model_name : str)
        (temperature : Q).

Definition is_configure (c : call) : bool :=
  match c with
  | Configure _ => true
  | Audit _ _ _ _ _ => false
  end.

(** State of the process: the module-level client, the outcome of each
    audit so far and the requests sent so far, oldest first. *)
Record process := {
  client : option Groq;
  outcomes : list (result value);
  sent : list request
}.

Definition START : process :=
  {| client := None; outcomes := []; sent := [] |}.

Definition step (svc : service) (p : process) (c : call) : process :=
  match c with
  | Configure key =>
      {| client := configure_groq key (client p);
         outcomes := outcomes p;
         sent := sent p |}
  | Audit b pol up m t =>
      let (r, reqs) := audit_claim (client p) svc b pol up m t in
      {| client := client p;
         outcomes := outcomes p ++ [r];
         sent := sent p ++ reqs |}
  end.

Definition run (svc : service) (calls : list call) : process :=
  fold_left (step svc) calls START.

End Auditor.

(** ** [processors/policy_engine.py] *)

Module Policy.
Import Py.

(** A [float] with one decimal place, held as ten times its value. *)
Definition tenths := Z.

(** [str(x)] for such a non-negative float. *)
Definition str_of_tenths (x : tenths) : str :=
  str_of_int (x / 10) ++ utf8 "." ++ digits (Z.to_N (x mod 10)).

Record eligibility := {
  min_age_years : Z;
  max_age_years : Z;
  bmi_range_min : tenths;
  bmi_range_max : tenths;
  eligibility_notes : str
}.

Record waiting_periods := {
  initial_waiting_days : Z;
  pre_existing_disease_years : Z;
  specific_illness_months : PyDict.dict Z;
  maternity_months : Z;
  waiting_notes : str
}.

Record copay := {
  default_copay_percent : Z;
  senior_citizen_copay_percent : Z;
  non_network_hospital_copay_percent : Z;
  pre_existing_copay_percent : Z
}.

Record pre_existing_conditions := {
  definition : str;
  common_peds : list str;
  waiting_period_years : Z;
  ped_notes : str
}.

Record network := {
  cashless_at_network_hospitals : bool;
  reimbursement_timeline_days : Z;
  pre_auth_required_above_inr : Z;
  post_hospitalisation_days : Z;
  pre_hospitalisation_days : Z
}.

Record policy := {
  policy_name : str;
  effective_date : str;
  p_eligibility : eligibility;
  p_waiting_periods : waiting_periods;
  sub_limits : PyDict.dict Z;
  p_copay : copay;
  exclusions : list str;
  p_pre_existing_conditions : pre_existing_conditions;
  p_network : network;
  deductible_inr : Z;
  sum_insured_options_inr : list Z;
  default_sum_insured_inr : Z
}.

Definition GENERALISED_POLICY : policy := {|
  policy_name := utf8 "MediAudit Generalised Health Insurance Baseline v1.0";
  effective_date := utf8 "2024-01-01";
  p_eligibility := {|
    min_age_years := 18;
    max_age_years := 65;
    bmi_range_min := 150%Z;
    bmi_range_max := 400%Z;
    eligibility_notes :=
      utf8 "Applicants outside the age or BMI range require specialist underwriting approval and are not auto-approved."
  |};
  p_waiting_periods := {|
    initial_waiting_days := 30;
    pre_existing_disease_years := 2;
    specific_illness_months :=
      [ (utf8 "cataract", 24%Z);
        (utf8 "hernia", 24%Z);
        (utf8 "knee_replacement", 24%Z);
        (utf8 "hip_replacement", 24%Z);
        (utf8 "varicose_veins", 12%Z);
        (utf8 "sinusitis", 12%Z);
        (utf8 "piles_fistula", 12%Z);
        (utf8 "kidney_stones", 12%Z);
        (utf8 "hysterectomy", 24%Z);
        (utf8 "joint_replacement", 24%Z) ];
    maternity_months := 9;
    waiting_notes :=
      utf8 "Waiting periods are counted from the first policy inception date, not renewal dates."
  |};
  sub_limits :=
    [ (utf8 "room_rent_per_day_inr", 5000%Z);
      (utf8 "icu_rent_per_day_inr", 10000%Z);
      (utf8 "ambulance_per_event_inr", 2000%Z);
      (utf8 "cataract_per_eye_inr", 40000%Z);
      (utf8 "dental_treatment_inr", 0%Z);
      (utf8 "cosmetic_surgery_inr", 0%Z);
      (utf8 "ayush_treatment_inr", 20000%Z);
      (utf8 "mental_health_inr", 50000%Z);
      (utf8 "organ_donor_inr", 100000%Z);
      (utf8 "domiciliary_treatment_inr", 20000%Z) ];
  p_copay := {|
    default_copay_percent := 0;
    senior_citizen_copay_percent := 20;
    non_network_hospital_copay_percent := 20;
    pre_existing_copay_percent := 10
  |};
  exclusions :=
    [ utf8 "Cosmetic or aesthetic treatments";
      utf8 "Self-inflicted injuries";
      utf8 "War, terrorism, or nuclear hazard injuries";
      utf8 "Dental treatment (except accidental)";
      utf8 "Obesity treatment or weight-loss surgery";
      utf8 "Experimental or unproven treatments";
      utf8 "Substance abuse or alcoholism treatment";
      utf8 "Fertility treatments and IVF";
      utf8 "Spectacles, contact lenses, hearing aids";
      utf8 "Non-allopathic treatment beyond AYUSH sub-limit";
      utf8 "Refractive error correction (LASIK) below -7.5 dioptre";
      utf8 "Pregnancy termination (unless medically necessary)";
      utf8 "Congenital external diseases (if detected at birth)";
      utf8 "HIV/AIDS and sexually transmitted diseases" ];
  p_pre_existing_conditions := {|
    definition :=
      utf8 "Any condition, ailment, or injury or related condition(s) for which the insured had signs/symptoms, or was diagnosed, or received medical advice / treatment within 48 months prior to policy inception.";
    common_peds :=
      [ utf8 "Diabetes Mellitus (Type 1 & 2)";
        utf8 "Hypertension / High Blood Pressure";
        utf8 "Asthma";
        utf8 "Chronic Obstructive Pulmonary Disease (COPD)";
        utf8 "Thyroid disorders";
        utf8 "Cardiac conditions (IHD, heart attack history)";
        utf8 "Chronic kidney disease";
        utf8 "Cancer (within 5 years of remission)";
        utf8 "Epilepsy";
        utf8 "Arthritis (Rheumatoid)" ];
    waiting_period_years := 2;
    ped_notes :=
      utf8 "PEDs are covered after the waiting period with standard benefits. Undisclosed PEDs may result in claim repudiation."
  |};
  p_network := {|
    cashless_at_network_hospitals := true;
    reimbursement_timeline_days := 15;
    pre_auth_required_above_inr := 25000;
    post_hospitalisation_days := 60;
    pre_hospitalisation_days := 30
  |};
  deductible_inr := 0;
  sum_insured_options_inr := [200000; 300000; 500000; 1000000; 2500000]%Z;
  default_sum_insured_inr := 500000
|}.

(** [d[key]], which raises [KeyError] on a missing key. *)
Definition getitem (d : PyDict.dict Z) (key : string) : result Z :=
  match PyDict.lookup d (utf8 key) with
  | Some v => ret v
  | None => raise (KeyError (utf8 key))
  end.

(** One entry of [illness_list]: the key with spaces for underscores,
    then the months between brackets. *)
Definition illness_entry (kv : str * Z) : str :=
  replace_char 95 32 (fst kv) ++ utf8 " (" ++ str_of_int (snd kv) ++ utf8 "m)".

Definition rupees (z : Z) : str := utf8 "₹" ++ format_comma z.

(** The body of [get_policy_as_prompt_text] on a policy record: the
    f-string, one entry per line, then [strip]. *)
Definition render_prompt (p : policy) : result str :=
  let e := p_eligibility p in
  let w := p_waiting_periods p in
  let s := sub_limits p in
  let c := p_copay p in
  let illness_list :=
    join (utf8 "; ") (map illness_entry (specific_illness_months w)) in
  room <- getitem s "room_rent_per_day_inr" ;;
  icu <- getitem s "icu_rent_per_day_inr" ;;
  ambulance <- getitem s "ambulance_per_event_inr" ;;
  cataract <- getitem s "cataract_per_eye_inr" ;;
  mental <- getitem s "mental_health_inr" ;;
  ayush <- getitem s "ayush_treatment_inr" ;;
  ret (strip (join_lines
    [ [];
      utf8 "POLICY: " ++ policy_name p;
      [];
      utf8 "ELIGIBILITY:";
      utf8 "- Age: " ++ str_of_int (min_age_years e) ++ utf8 "–"
        ++ str_of_int (max_age_years e) ++ utf8 " years";
      utf8 "- BMI: " ++ str_of_tenths (bmi_range_min e) ++ utf8 "–"
        ++ str_of_tenths (bmi_range_max e);
      [];
      utf8 "WAITING PERIODS:";
      utf8 "- Initial waiting: " ++ str_of_int (initial_waiting_days w)
        ++ utf8 " days (no claims)";
      utf8 "- Pre-existing diseases (PED): "
        ++ str_of_int (pre_existing_disease_years w) ++ utf8 " years";
      utf8 "- Maternity: " ++ str_of_int (maternity_months w) ++ utf8 " months";
      utf8 "- Specific illnesses: " ++ illness_list;
      [];
      utf8 "SUB-LIMITS (INR):";
      utf8 "- Room rent: " ++ rupees room ++ utf8 "/day";
      utf8 "- ICU: " ++ rupees icu ++ utf8 "/day";
      utf8 "- Ambulance: " ++ rupees ambulance ++ utf8 "/event";
      utf8 "- Cataract: " ++ rupees cataract ++ utf8 "/eye";
      utf8 "- Mental health: " ++ rupees mental;
      utf8 "- AYUSH: " ++ rupees ayush;
      utf8 "- Dental: EXCLUDED";
      utf8 "- Cosmetic: EXCLUDED";
      [];
      utf8 "CO-PAY:";
      utf8 "- Standard: " ++ str_of_int (default_copay_percent c) ++ utf8 "%";
      utf8 "- Senior citizen (>60): "
        ++ str_of_int (senior_citizen_copay_percent c) ++ utf8 "%";
      utf8 "- Non-network hospital: "
        ++ str_of_int (non_network_hospital_copay_percent c) ++ utf8 "%";
      utf8 "- PED claims: " ++ str_of_int (pre_existing_copay_percent c) ++ utf8 "%";
      [];
      utf8 "PRE-EXISTING CONDITIONS (PED) — covered after 2 years:";
      join (utf8 ", ") (common_peds (p_pre_existing_conditions p));
      [];
      utf8 "EXCLUSIONS:";
      join [nl] (map (fun x => utf8 "- " ++ x) (exclusions p));
      [];
      utf8 "SUM INSURED OPTIONS: "
        ++ join (utf8 ", ") (map rupees (sum_insured_options_inr p));
      utf8 "DEFAULT SUM INSURED: " ++ rupees (default_sum_insured_inr p);
      [] ])).

Definition get_policy_as_prompt_text : result str :=
  render_prompt GENERALISED_POLICY.

(** One row of [illness_rows]: the key in title case with spaces for
    underscores, and the months. *)
Definition illness_row (kv : str * Z) : option str :=
  match title (replace_char 95 32 (fst kv)) with
  | Some name =>
      Some (utf8 "| " ++ name ++ utf8 " | " ++ str_of_int (snd kv) ++ utf8 " months |")
  | None => None
  end.

Fixpoint all_some {A} (l : list (option A)) : option (list A) :=
  match l with
  | [] => Some []
  | None :: _ => None
  | Some a :: rest =>
      match all_some rest with
      | Some more => Some (a :: more)
      | None => None
      end
  end.

Definition bullet (x : str) : str := utf8 "- " ++ x.

(** The body of [get_policy_markdown] on a policy record, for illness
    keys in ASCII: the three joined texts, the f-string with one entry
    per line, then [strip]. *)
Definition render_markdown (p : policy) : option (result str) :=
  let e := p_eligibility p in
  let w := p_waiting_periods p in
  let s := sub_limits p in
  let c := p_copay p in
  match all_some (map illness_row (specific_illness_months w)) with
  | None => None
  | Some rows =>
      let illness_rows := join [nl] rows in
      let exclusions_text := join [nl] (map bullet (exclusions p)) in
      let peds := join [nl] (map bullet (common_peds (p_pre_existing_conditions p))) in
      Some (
        room <- getitem s "room_rent_per_day_inr" ;;
        icu <- getitem s "icu_rent_per_day_inr" ;;
        ambulance <- getitem s "ambulance_per_event_inr" ;;
        cataract <- getitem s "cataract_per_eye_inr" ;;
        mental <- getitem s "mental_health_inr" ;;
        ayush <- getitem s "ayush_treatment_inr" ;;
        ret (strip (join_lines
          [ [];
            utf8 "## " ++ policy_name p;
            [];
            utf8 "### Eligibility";
            utf8 "| Parameter | Value |";
            utf8 "|-----------|-------|";
            utf8 "| Minimum Age | " ++ str_of_int (min_age_years e) ++ utf8 " years |";
            utf8 "| Maximum Age | " ++ str_of_int (max_age_years e) ++ utf8 " years |";
            utf8 "| BMI Range | " ++ str_of_tenths (bmi_range_min e) ++ utf8 " – "
              ++ str_of_tenths (bmi_range_max e) ++ utf8 " |";
            [];
            utf8 "### Waiting Periods";
            utf8 "| Condition | Period |";
            utf8 "|-----------|--------|";
            utf8 "| Initial (all claims) | " ++ str_of_int (initial_waiting_days w)
              ++ utf8 " days |";
            utf8 "| Pre-existing diseases | "
              ++ str_of_int (pre_existing_disease_years w) ++ utf8 " years |";
            utf8 "| Maternity | " ++ str_of_int (maternity_months w) ++ utf8 " months |";
            [];
            utf8 "#### Specific Illness Waiting Periods";
            utf8 "| Illness | Waiting Period |";
            utf8 "|---------|---------------|";
            illness_rows;
            [];
            utf8 "### Sub-limits";
            utf8 "| Item | Limit (₹) |";
            utf8 "|------|-----------|";
            utf8 "| Room Rent / Day | " ++ rupees room ++ utf8 " |";
            utf8 "| ICU Rent / Day | " ++ rupees icu ++ utf8 " |";
            utf8 "| Ambulance / Event | " ++ rupees ambulance ++ utf8 " |";
            utf8 "| Cataract / Eye | " ++ rupees cataract ++ utf8 " |";
            utf8 "| Mental Health | " ++ rupees mental ++ utf8 " |";
            utf8 "| AYUSH Treatment | " ++ rupees ayush ++ utf8 " |";
            utf8 "| Dental | Excluded |";
            utf8 "| Cosmetic Surgery | Excluded |";
            [];
            utf8 "### Co-pay Rules";
            utf8 "| Scenario | Co-pay % |";
            utf8 "|----------|----------|";
            utf8 "| Standard | " ++ str_of_int (default_copay_percent c) ++ utf8 "% |";
            utf8 "| Senior Citizen (>60 yrs) | "
              ++ str_of_int (senior_citizen_copay_percent c) ++ utf8 "% |";
            utf8 "| Non-network Hospital | "
              ++ str_of_int (non_network_hospital_copay_percent c) ++ utf8 "% |";
            utf8 "| Pre-existing Disease Claims | "
              ++ str_of_int (pre_existing_copay_percent c) ++ utf8 "% |";
            [];
            utf8 "### Common Pre-existing Conditions";
            peds;
            [];
            utf8 "### Exclusions";
            exclusions_text;
            [] ])))
  end.

Definition get_policy_markdown : option (result str) :=
  render_markdown GENERALISED_POLICY.

End Policy.

(** ** [base64.b64encode] *)

Module Base64.
Import Py.

(** A [bytes] object, by its items; each of them is below 256. *)
Definition bytes := list N.

(** The alphabet: A to Z, a to z, 0 to 9, plus and slash. *)
Definition b64_char (i : N) : N :=
  if i <? 26 then 65 + i
  else if i <? 52 then 97 + (i - 26)
  else if i <? 62 then 48 + (i - 52)
  else if i =? 62 then 43
  else 47.

(** [base64.b64encode(data).decode()]: three bytes give four characters
    of six bits each, and a last group of one or two bytes is filled up
    with the equals sign. *)
Fixpoint b64encode (data : bytes) : str :=
  match data with
  | [] => []
  | [a] => [b64_char (a / 4); b64_char (a mod 4 * 16); 61; 61]
  | [a; b] =>
      [b64_char (a / 4); b64_char (a mod 4 * 16 + b / 16); b64_char (b mod 16 * 4); 61]
  | a :: b :: c :: rest =>
      b64_char (a / 4) :: b64_char (a mod 4 * 16 + b / 16)
        :: b64_char (b mod 16 * 4 + c / 64) :: b64_char (c mod 64)
        :: b64encode rest
  end.

End Base64.

(** ** [processors/ocr_engine.py] *)

Module Ocr.
Import Py Base64 Auditor.

Definition VISION_MODEL : str := utf8 "meta-llama/llama-4-scout-17b-16e-instruct".

Definition VISION_PROMPT_literal : list string :=
  [
    "You are a medical bill data extractor.";
    EmptyString;
    "Carefully read every detail visible in this medical bill / discharge summary image and extract:";
    EmptyString;
    "1. Patient details (name, age, gender, patient ID if visible)";
    "2. Hospital / clinic name and date(s) of service";
    "3. Diagnosis / chief complaint";
    "4. Every line item charge (treatment name, quantity, unit cost, total cost)";
    "5. Subtotal, taxes, discounts, and grand total";
    "6. Doctor name(s) and department(s)";
    "7. Any pre-existing conditions or co-morbidities mentioned";
    "8. Insurance / TPA details if printed on the bill";
    EmptyString;
    "Format your response as clean, structured Markdown with clear headings and";
    "a table for the line items. Be precise with all numbers and currency symbols.";
    cat ["If any field is not visible, write "; q "Not visible"; " for that field."];
    "Do not add commentary or assumptions — extract only what is printed."
  ]%string.

Definition VISION_PROMPT : str := literal_text VISION_PROMPT_literal.

(** [filename.lower()], which the module only ever asks whether it ends
    with [.pdf], [.jpg] or [.jpeg].  For that question [str.lower] and
    the lower-casing of the letters A to Z agree: [str.lower] maps no
    other code point to a text that holds a full stop or one of the
    letters d, e, f, g, j, p. *)
Definition lower (filename : str) : str :=
  map (fun c => if (65 <=? c) && (c <=? 90) then c + 32 else c) filename.

(** What [chat.completions.create] is called with: the model, the token
    limit, the URL of the image part and the text of the text part of
    the one user message. *)
Record vision_request := {
  vr_model : str;
  vr_max_tokens : Z;
  vr_image_url : str;
  vr_text : str
}.

(** What the module asks of the libraries it imports.  [PdfDocument]
    gives the pages of a document, [render_jpeg] is a page rendered at
    150 DPI and saved as JPEG, [convert_jpeg] is an image opened by
    Pillow, converted to RGB and saved as JPEG, and [create] is the
    hosted vision model.  Each of them returns or raises. *)
Record libraries (page : Type) := {
  PdfDocument : bytes -> result (list page);
  render_jpeg : page -> result bytes;
  convert_jpeg : bytes -> result bytes;
  create : Groq -> vision_request -> reply
}.
Arguments PdfDocument {page}.
Arguments render_jpeg {page}.
Arguments convert_jpeg {page}.
Arguments create {page}.

(** A [Path], by what the module reads from it. *)
Record Path := {
  name : str;
  read_bytes : result bytes
}.

Section Extraction.
Context {page : Type}.
Variable lib : libraries page.

Definition JPEG : str := utf8 "image/jpeg".

(** [_to_base64_jpeg]: the text and the media type. *)
Definition _to_base64_jpeg (image_bytes : bytes) (filename : str) : result (str * str) :=
  let lower := lower filename in
  if endswith lower (utf8 ".jpg") || endswith lower (utf8 ".jpeg") then
    ret (b64encode image_bytes, JPEG)
  else
    jpeg <- convert_jpeg lib image_bytes ;;
    ret (b64encode jpeg, JPEG).

(** The loop of [_pdf_to_images] over the pages. *)
Fixpoint render_pages (pages : list page) : result (list bytes) :=
  match pages with
  | [] => ret []
  | p :: rest =>
      jpeg <- render_jpeg lib p ;;
      jpegs <- render_pages rest ;;
      ret (jpeg :: jpegs)
  end.

Definition _pdf_to_images (pdf_bytes : bytes) : result (list bytes) :=
  pdf <- PdfDocument lib pdf_bytes ;;
  render_pages pdf.

(** The request [_vision_extract] builds. *)
Definition vision_request_for (image_b64 media_type page_label : str) : vision_request :=
  {| vr_model := VISION_MODEL;
     vr_max_tokens := 2048;
     vr_image_url := utf8 "data:" ++ media_type ++ utf8 ";base64," ++ image_b64;
     vr_text := utf8 "[" ++ page_label ++ utf8 "]" ++ [nl; nl] ++ VISION_PROMPT |}.

(** [_vision_extract]: the outcome and the requests sent. *)
Definition _vision_extract
    (groq_client : Groq) (image_b64 media_type page_label : str)
    : result str * list vision_request :=
  let req := vision_request_for image_b64 media_type page_label in
  match create lib groq_client req with
  | Failed cause => (raise (ServiceError cause), [req])
  | Content text => (ret (strip text), [req])
  end.

(** [f"Page {i} of {len(page_images)}"] *)
Definition page_label (i total : nat) : str :=
  utf8 "Page " ++ str_of_int (Z.of_nat i) ++ utf8 " of " ++ str_of_int (Z.of_nat total).

(** One entry of [page_texts]. *)
Definition page_text (label text : str) : str :=
  utf8 "## " ++ label ++ [nl; nl] ++ text.

(** The loop over [enumerate(page_images, 1)], from page [i] on. *)
Fixpoint vision_pages
    (groq_client : Groq) (total i : nat) (page_images : list bytes)
    : result (list str) * list vision_request :=
  match page_images with
  | [] => (ret [], [])
  | jpeg_bytes :: rest =>
      let b64 := b64encode jpeg_bytes in
      let label := page_label i total in
      match _vision_extract groq_client b64 JPEG label with
      | (inl e, reqs) => (inl e, reqs)
      | (inr text, reqs) =>
          match vision_pages groq_client total (S i) rest with
          | (inl e, more) => (inl e, reqs ++ more)
          | (inr page_texts, more) =>
              (ret (page_text label text :: page_texts), reqs ++ more)
          end
      end
  end.

Definition NO_PAGES : str := utf8 "[PDF rendering failed — no pages found]".

(** The separator of the pages: a rule between two empty lines. *)
Definition PAGE_BREAK : str := [nl; nl; 45; 45; 45; nl; nl].

(** [extract_text_from_bytes]: the outcome and the requests sent. *)
Definition extract_text_from_bytes
    (file_bytes : bytes) (filename : str) (groq_client : Groq)
    : result str * list vision_request :=
  let lower := lower filename in
  if endswith lower (utf8 ".pdf") then
    match _pdf_to_images file_bytes with
    | inl e => (inl e, [])
    | inr [] => (ret NO_PAGES, [])
    | inr page_images =>
        match vision_pages groq_client (List.length page_images) 1 page_images with
        | (inl e, reqs) => (inl e, reqs)
        | (inr page_texts, reqs) => (ret (join PAGE_BREAK page_texts), reqs)
        end
    end
  else
    match _to_base64_jpeg file_bytes filename with
    | inl e => (inl e, [])
    | inr (b64, media_type) =>
        _vision_extract groq_client b64 media_type (utf8 "Medical Bill")
    end.


End Extraction.

End Ocr.

(** ** [app.py] *)

Module App.
Import Py Base64 Json Auditor Ocr.

(** *** Colour maps and helpers *)

Definition STATUS_COLOURS : PyDict.dict str :=
  [ (utf8 "✅", utf8 "#d4edda");
    (utf8 "⚠️", utf8 "#fff3cd");
    (utf8 "❌", utf8 "#f8d7da") ].

Definition VERDICT_COLOURS : PyDict.dict str :=
  [ (utf8 "Eligible", utf8 "#d4edda");
    (utf8 "Partially Eligible", utf8 "#fff3cd");
    (utf8 "Not Eligible", utf8 "#f8d7da") ].

Definition VERDICT_ICONS : PyDict.dict str :=
  [ (utf8 "Eligible", utf8 "✅");
    (utf8 "Partially Eligible", utf8 "⚠️");
    (utf8 "Not Eligible", utf8 "❌") ].

(** [_colour_row], on a row given as its labels and, for each, the text
    [str] makes of the value: one style per cell of the row. *)
Definition _colour_row (row : PyDict.dict str) : list str :=
  let status := strip (PyDict.get row (utf8 "Status") []) in
  let bg := PyDict.get STATUS_COLOURS status (utf8 "#1e1e1e") in
  let fg := if PyDict.has_key STATUS_COLOURS status then utf8 "#111111"
            else utf8 "#ffffff" in
  repeat (utf8 "background-color: " ++ bg ++ utf8 "; color: " ++ fg) (List.length row).

Definition _image_bytes_to_base64 (image_bytes : bytes) : str := b64encode image_bytes.

(** *** Session state *)

(** What the script keeps in [st.session_state]. *)
Inductive cell :=
| CNone
| CBool (b : bool)
| CStr (s : str)
| CBytes (b : bytes)
| CValue (v : value).

Definition defaults : PyDict.dict cell :=
  [ (utf8 "bill_bytes", CNone);
    (utf8 "bill_filename", CNone);
    (utf8 "bill_text", CNone);
    (utf8 "audit_result", CNone);
    (utf8 "input_mode", CStr (utf8 "Upload File"));
    (utf8 "camera_active", CBool false);
    (utf8 "uploaded_file_id", CNone) ].

(** [_init_state], from the session state before to the one after. *)
Definition _init_state (session_state : PyDict.dict cell) : PyDict.dict cell :=
  fold_left
    (fun st kv => if PyDict.has_key st (fst kv) then st
                  else PyDict.set st (fst kv) (snd kv))
    defaults session_state.

(** The seven entries once [_init_state] has run, each with the type of
    the values the script binds it to. *)
Record session := {
  bill_bytes : option bytes;
  bill_filename : option str;
  bill_text : option str;
  audit_result : option value;
  input_mode : str;
  camera_active : bool;
  uploaded_file_id : option str
}.

Definition cell_of {A} (f : A -> cell) (o : option A) : cell :=
  match o with
  | Some a => f a
  | None => CNone
  end.

(** The session state a [session] stands for. *)
Definition cells (s : session) : PyDict.dict cell :=
  [ (utf8 "bill_bytes", cell_of CBytes (bill_bytes s));
    (utf8 "bill_filename", cell_of CStr (bill_filename s));
    (utf8 "bill_text", cell_of CStr (bill_text s));
    (utf8 "audit_result", cell_of CValue (audit_result s));
    (utf8 "input_mode", CStr (input_mode s));
    (utf8 "camera_active", CBool (camera_active s));
    (utf8 "uploaded_file_id", cell_of CStr (uploaded_file_id s)) ].

(** The session of a browser tab that has just been opened. *)
Definition FRESH : session :=
  {| bill_bytes := None;
     bill_filename := None;
     bill_text := None;
     audit_result := None;
     input_mode := utf8 "Upload File";
     camera_active := false;
     uploaded_file_id := None |}.

(** *** The results section *)

(** Whether a [float] written as [lexeme] is zero: its digits are all
    zero, or it is at most half of the smallest positive [float],
    2 to the power -1075, which the conversion rounds to zero. *)
Definition float_is_zero (lexeme : str) : bool :=
  let body := match lexeme with
              | c :: t => if c =? 45 then t else lexeme
              | [] => []
              end in
  let (whole, r0) := span_digits body in
  let (frac, r1) :=
    match r0 with
    | c :: t => if c =? 46 then span_digits t else ([], r0)
    | [] => ([], [])
    end in
  let exponent :=
    match r1 with
    | _ :: c :: t =>
        if c =? 45 then (- digits_value t)%Z
        else if c =? 43 then digits_value t
        else digits_value (c :: t)
    | _ => 0%Z
    end in
  match whole with
  | [] => false
  | _ :: _ =>
      let m := digits_value (whole ++ frac) in
      let k := (exponent - Z.of_nat (List.length frac))%Z in
      (m =? 0)%Z || ((k <? 0)%Z && (m * 2 ^ 1075 <=? 10 ^ (- k))%Z)
  end.

(** [bool(x)], the test of an [if]. *)
Definition py_truthy (x : value) : bool :=
  match x with
  | JNull => false
  | JBool b => b
  | JInt z => negb (z =? 0)%Z
  | JFloat lexeme => negb (float_is_zero lexeme)
  | JStr s => match s with [] => false | _ :: _ => true end
  | JList l => match l with [] => false | _ :: _ => true end
  | JDict d => match d with [] => false | _ :: _ => true end
  end.

(** [table.get(key, default)] for a table with string keys and a key
    that came out of the reply: a list or a dict cannot be hashed, and
    no other value than a string is equal to a string. *)
Definition table_get (table : PyDict.dict str) (key : value) (default : str) : result str :=
  match key with
  | JStr s => ret (PyDict.get table s default)
  | JList _ => raise TypeError
  | JDict _ => raise TypeError
  | _ => ret default
  end.

(** What the banner needs. *)
Record header := {
  rows : value;
  verdict : value;
  summary : value;
  steps : value;
  v_colour : str;
  v_icon : str
}.

(** Lines 354 to 366 of [main]. *)
Definition results_header (res : value) : result header :=
  rows <- py_get res (utf8 "rows") (JList []) ;;
  elig <- py_get res (utf8 "eligibility") (JDict []) ;;
  verdict <- py_get elig (utf8 "verdict") (JStr (utf8 "Unknown")) ;;
  summary <- py_get elig (utf8 "summary") (JStr []) ;;
  steps <- py_get elig (utf8 "next_steps") (JList []) ;;
  v_colour <- table_get VERDICT_COLOURS verdict (utf8 "#e2e3e5") ;;
  v_icon <- table_get VERDICT_ICONS verdict (utf8 "❓") ;;
  ret {| rows := rows; verdict := verdict; summary := summary; steps := steps;
         v_colour := v_colour; v_icon := v_icon |}.

(** The items a [for] goes through. *)
Definition py_iter (x : value) : result (list value) :=
  match x with
  | JList l => ret l
  | JDict d => ret (map (fun kv => JStr (fst kv)) d)
  | JStr s => ret (map (fun c => JStr [c]) s)
  | _ => raise TypeError
  end.

(** [str(r.get("status", "")).strip() == icon] for one of the three
    status icons: the text [str] makes of a value that is not a string
    is a number, a name, or starts with a bracket, and is no icon. *)
Definition status_is (icon : str) (r : value) : result bool :=
  status <- py_get r (utf8 "status") (JStr []) ;;
  ret (match status with
       | JStr s => str_eqb (strip s) icon
       | _ => false
       end).

(** [sum(1 for r in rows if ...)] *)
Fixpoint count_status (icon : str) (items : list value) : result nat :=
  match items with
  | [] => ret 0%nat
  | r :: rest =>
      hit <- status_is icon r ;;
      n <- count_status icon rest ;;
      ret (if hit then S n else n)
  end.

Record counts := {
  count_total : nat;
  count_ok : nat;
  count_warn : nat;
  count_fail : nat
}.

(** Lines 378 to 381 of [main]. *)
Definition status_counts (rows : value) : result counts :=
  total <- py_len rows ;;
  items <- py_iter rows ;;
  ok <- count_status (utf8 "✅") items ;;
  warn <- count_status (utf8 "⚠️") items ;;
  fail <- count_status (utf8 "❌") items ;;
  ret {| count_total := total; count_ok := ok; count_warn := warn; count_fail := fail |}.

(** *** [main], one run of the script *)

(** What [st.file_uploader] returns. *)
Record UploadedFile := {
  file_id : str;
  file_name : str;
  file_data : bytes
}.

(** What one run of the script is given from outside: the secrets, the
    policies found in the data directory, the values of the widgets, the
    libraries and the two hosted models as they answer during this run,
    and [rest_of_results], whether lines 382 to 471 (average risk,
    table, next steps, download) run through or raise. *)
Record surroundings (page : Type) := {
  secrets : option str;
  policies : list str;
  data_dir : str -> Path;
  selected : str;
  uploaded : option UploadedFile;
  open_camera_btn : bool;
  close_camera_btn : bool;
  camera_image : option bytes;
  extract_btn : bool;
  crosscheck_btn : bool;
  reset_btn : bool;
  libs : libraries page;
  svc : service;
  rest_of_results : value -> option exn
}.
Arguments secrets {page}.
Arguments policies {page}.
Arguments data_dir {page}.
Arguments selected {page}.
Arguments uploaded {page}.
Arguments open_camera_btn {page}.
Arguments close_camera_btn {page}.
Arguments camera_image {page}.
Arguments extract_btn {page}.
Arguments crosscheck_btn {page}.
Arguments reset_btn {page}.
Arguments libs {page}.
Arguments svc {page}.
Arguments rest_of_results {page}.

(** What outlives a run: the session state and the client bound in
    [processors.claim_auditor]. *)
Record dashboard := {
  state : session;
  _client : option Groq
}.


(** What the script reports before it stops. *)
Inductive notice :=
| KeyNotFound
| ExtractionFailed (exc : exn)
| AuditFailed (exc : exn).

(** How a run ends: at the last line, at [st.rerun()], at [st.stop()],
    or with an exception nothing catches. *)
Inductive ending :=
| Completed
| Rerun
| Stopped (shown : notice)
| Crashed (exc : exn).

(** A block of the script: it ends the run or lets it go on. *)
Definition block := dashboard -> option ending * dashboard.


Section Main.
Context {page : Type}.
Variable w : surroundings page.











(** Lines 475 to 478, what the reset button does to the session. *)
Definition reset (a : dashboard) : dashboard :=
  {| state :=
       {| bill_bytes := None;
          bill_filename := None;
          bill_text := None;
          audit_result := None;
          input_mode := input_mode (state a);
          camera_active := false;
          uploaded_file_id := None |};
     _client := _client a |}.

(** Lines 354 to 471: the banner, the counts, and the rest. *)
Definition results_section (res : value) : option exn :=
  match results_header res with
  | inl exc => Some exc
  | inr h =>
      match status_counts (rows h) with
      | inl exc => Some exc
      | inr _ => rest_of_results w res
      end
  end.

(** Lines 353 to 479, the results and the reset button under them. *)
Definition results_step : block :=
  fun a =>
    match audit_result (state a) with
    | Some res =>
        if py_truthy res then
          match results_section res with
          | Some exc => (Some (Crashed exc), a)
          | None =>
              if reset_btn w then (Some Rerun, reset a) else (None, a)
          end
        else (None, a)
    | None => (None, a)
    end.


End Main.


End App.

(** ** What the assembled message is compared with *)

Module Shape.
Import Py Json Auditor Policy Base64 Ocr App.

(** [textwrap.dedent] on a text whose margin is empty: every line made
    of blanks only is emptied, the other lines stay. *)
Definition normalise_lines (t : str) : str :=
  join_lines (blank_lines (split_lines t)).

(** What is found between two delimiter lines for an interpolated text:
    the template's four spaces, the text, and the lines of blanks
    emptied. *)
Definition segment (t : str) : str := normalise_lines (utf8 "    " ++ t).

(** A text every line of which survives [normalise_lines] unchanged once
    it stands behind the template's indentation. *)
Definition plain (t : str) : bool :=
  forallb (fun l => negb (whitespace_only l)) (split_lines (utf8 "    " ++ t)).

(** The few-shot block without the newlines around it. *)
Definition EXAMPLES_BLOCK : str := strip FEW_SHOT_EXAMPLES.

(** The message, given what stands in its three variable segments. *)
Definition message_of_segments (baseline uploaded bill : str) : str :=
  join_lines
    [ EXAMPLES_BLOCK;
      [];
      [];
      utf8 "    <policy_baseline>";
      baseline;
      utf8 "    </policy_baseline>";
      [];
      utf8 "    <uploaded_policy>";
      uploaded;
      utf8 "    </uploaded_policy>";
      [];
      utf8 "    <bill>";
      bill;
      utf8 "    </bill>";
      [];
      utf8 "    Now perform the full audit and return the JSON object." ].

(** [needle] occurs in [hay]. *)
Definition occurs (needle hay : str) : Prop :=
  exists pre post, hay = pre ++ needle ++ post.

(** [a] occurs in [hay] and [b] occurs after it. *)
Definition occurs_then (a b hay : str) : Prop :=
  exists pre mid post, hay = pre ++ a ++ mid ++ b ++ post.

(** A code fence, and the tags the opening pattern lets follow it: none,
    or the four letters of json in any case. *)
Definition FENCE : str := [backtick; backtick; backtick].

Inductive fence_tag : str -> Prop :=
| no_tag : fence_tag []
| json_tag (j s o n : N) :
    is_j j = true -> is_s s = true -> is_o o = true -> is_n n = true ->
    fence_tag [j; s; o; n].


(** A reply wrapped in fences: whitespace around, a tag, and whitespace
    between the fences and the text they hold. *)
Definition fenced (lead tag sep1 body sep2 trail : str) : str :=
  lead ++ FENCE ++ tag ++ sep1 ++ body ++ sep2 ++ FENCE ++ trail.

(** The sub-limits the template of the prompt text names. *)
Definition RENDERED_SUB_LIMITS : list string :=
  [ "room_rent_per_day_inr"; "icu_rent_per_day_inr"; "ambulance_per_event_inr";
    "cataract_per_eye_inr"; "mental_health_inr"; "ayush_treatment_inr" ]%string.

(** A character other than the comma, and [s.replace(',', '')]. *)
Definition no_comma (c : N) : bool := negb (c =? 44).

Definition without_commas (s : str) : str := filter no_comma s.

(** The request for page [i] of a document of [total] pages. *)
Definition page_request (total : nat) (page : nat * bytes) : vision_request :=
  vision_request_for (b64encode (snd page)) JPEG (page_label (fst page) total).

(** The pages with their numbers, as [enumerate(page_images, i)] gives
    them. *)
Definition numbered_from (i : nat) (page_images : list bytes) : list (nat * bytes) :=
  combine (seq i (List.length page_images)) page_images.

Definition numbered (page_images : list bytes) : list (nat * bytes) :=
  numbered_from 1 page_images.

(** The requests for all the pages of a document, in their order. *)
Definition page_requests (page_images : list bytes) : list vision_request :=
  map (page_request (List.length page_images)) (numbered page_images).

(** The text [_vision_extract] returns for a reply that has a content. *)
Definition content_of (r : reply) : str :=
  match r with
  | Content text => strip text
  | Failed _ => []
  end.

(** The entry of [page_texts] for a page, given what the model answers
    to the request for it. *)
Definition page_section {page : Type} (lib : libraries page) (groq_client : Groq)
    (total : nat) (p : nat * bytes) : str :=
  page_text (page_label (fst p) total)
    (content_of (create lib groq_client (page_request total p))).

(** A reply with a content. *)
Definition answered {page : Type} (lib : libraries page) (groq_client : Groq)
    (req : vision_request) : Prop :=
  exists text, create lib groq_client req = Content text.

(** [isinstance(v, dict)] *)
Definition is_dict (v : value) : bool :=
  match v with
  | JDict _ => true
  | _ => false
  end.






(** The four styles [_colour_row] chooses from. *)
Definition ROW_STYLES : list str :=
  [ utf8 "background-color: #d4edda; color: #111111";
    utf8 "background-color: #fff3cd; color: #111111";
    utf8 "background-color: #f8d7da; color: #111111";
    utf8 "background-color: #1e1e1e; color: #ffffff" ].

End Shape.

(** ** Sample replies and texts *)

Module Samples.
Import Py.

(** A reply that has [rows] and nothing else. *)
Definition reply_rows_only : str := utf8 (cat ["{"; q "rows"; ": []}"]%string).

(** The rows sent as a top-level array. *)
Definition reply_top_level_rows : str :=
  utf8 (cat ["[{"; q "parameter"; ": "; q "ICU Room Rent"; "}]"]%string).

(** [rows] bound to a number. *)
Definition reply_rows_number : str := utf8 (cat ["{"; q "rows"; ": 5}"]%string).

(** The rows under another key, and the verdict as a bare string. *)
Definition reply_items_and_verdict : str :=
  utf8 (cat ["{"; q "items"; ": [{"; q "parameter"; ": "; q "ICU Room Rent"; "}], ";
             q "eligibility"; ": "; q "Eligible"; "}"]%string).

(** Only the verdict, as a bare string. *)
Definition reply_verdict_only : str :=
  utf8 (cat ["{"; q "eligibility"; ": "; q "Eligible"; "}"]%string).

(** The shape the system prompt asks for. *)
Definition reply_well_formed : str :=
  utf8 (cat ["{"; q "rows"; ": [{"; q "parameter"; ": "; q "ICU Room Rent"; "}], ";
             q "eligibility"; ": {"; q "verdict"; ": "; q "Eligible"; "}}"]%string).

(** The rows under another key, and no eligibility. *)
Definition reply_items_only : str :=
  utf8 (cat ["{"; q "items"; ": [{"; q "parameter"; ": "; q "ICU Room Rent"; "}]}"]%string).

(** An object with a summary and nothing else. *)
Definition reply_summary_only : str :=
  utf8 (cat ["{"; q "summary"; ": "; q "Nothing to audit"; "}"]%string).

(** Two lists under other keys, after a number. *)
Definition reply_two_lists : str :=
  utf8 (cat ["{"; q "count"; ": 2, "; q "items"; ": [1], "; q "notes"; ": [2, 3]}"]%string).

(** Libraries that find [page_images] in every PDF and leave an image
    as it is, and a model that fails on a request whose text holds
    [failing] and answers the others with a word between spaces. *)
Definition sample_libraries (page_images : list Base64.bytes) (failing : str)
    : Ocr.libraries Base64.bytes :=
  {| Ocr.PdfDocument := fun _ => inr page_images;
     Ocr.render_jpeg := fun p => inr p;
     Ocr.convert_jpeg := fun b => inr b;
     Ocr.create := fun _ req =>
       if contains (Ocr.vr_text req) failing then Auditor.Failed (utf8 "quota")
       else Auditor.Content (utf8 " ok ") |}.

(** Three rows: admissible with spaces around the icon, rejected, and a
    status that is a number. *)
Definition rows_of_three : Json.value :=
  Json.JList
    [ Json.JDict [(utf8 "status", Json.JStr (utf8 " ✅ "))];
      Json.JDict [(utf8 "status", Json.JStr (utf8 "❌"))];
      Json.JDict [(utf8 "status", Json.JInt 1)] ].

(** A reply whose rows hold a number. *)
Definition reply_row_number : str := utf8 (cat ["{"; q "rows"; ": [1]}"]%string).

(** What [audit_claim] returns for it. *)
Definition result_row_number : Json.value :=
  Json.JDict [(utf8 "rows", Json.JList [Json.JInt 1])].

(** A run in which only the reset button is pressed, when nothing that
    follows the counts in the results section raises. *)
Definition reset_pressed : App.surroundings Base64.bytes :=
  {| App.secrets := None;
     App.policies := [];
     App.data_dir := fun file => {| Ocr.name := file; Ocr.read_bytes := inr [] |};
     App.selected := [];
     App.uploaded := None;
     App.open_camera_btn := false;
     App.close_camera_btn := false;
     App.camera_image := None;
     App.extract_btn := false;
     App.crosscheck_btn := false;
     App.reset_btn := true;
     App.libs := sample_libraries [] [];
     App.svc := fun _ _ => Auditor.Content reply_row_number;
     App.rest_of_results := fun _ => None |}.

(** A session that holds a bill, its text and that result. *)
Definition session_with_bad_row : App.dashboard :=
  {| App.state :=
       {| App.bill_bytes := Some [255; 216];
          App.bill_filename := Some (utf8 "bill.jpg");
          App.bill_text := Some (utf8 "ok");
          App.audit_result := Some result_row_number;
          App.input_mode := utf8 "Upload File";
          App.camera_active := false;
          App.uploaded_file_id := Some (utf8 "1") |};
     App._client := None |}.

(** A reply whose verdict is an array. *)
Definition reply_verdict_array : str :=
  utf8 (cat ["{"; q "rows"; ": [], "; q "eligibility"; ": {"; q "verdict"; ": ["; q "Eligible"; "]}}"]%string).

(** What [audit_claim] returns for it. *)
Definition result_verdict_array : Json.value :=
  Json.JDict
    [ (utf8 "rows", Json.JList []);
      (utf8 "eligibility",
       Json.JDict [(utf8 "verdict", Json.JList [Json.JStr (utf8 "Eligible")])]) ].

(** Three lines, the second a single space. *)
Definition text_with_blank_line : str := [97; nl; 32; nl; 98].

End Samples.

(** * Properties *)

Import Py Json Auditor Policy Shape Samples.

(** ** The model on concrete inputs *)

Example strip_both_ends : strip (utf8 "  ab c  ") = utf8 "ab c".
Proof. reflexivity. Qed.

Example strip_unicode_space : strip [160; 97; 8232] = [97].
Proof. reflexivity. Qed.

Example format_comma_millions : format_comma 2500000 = utf8 "2,500,000".
Proof. reflexivity. Qed.

Example format_comma_small : format_comma 0 = utf8 "0".
Proof. reflexivity. Qed.

Example dedent_common_margin :
  dedent (join_lines [utf8 "    a"; utf8 "      b"; utf8 "  "; utf8 "    c"])
  = join_lines [utf8 "a"; utf8 "  b"; []; utf8 "c"].
Proof. reflexivity. Qed.

Example few_shot_examples_already_at_margin :
  FEW_SHOT_EXAMPLES = literal_text FEW_SHOT_EXAMPLES_literal.
Proof. vm_compute. reflexivity. Qed.

Example loads_keeps_first_position_last_value :
  loads (utf8 (cat ["{"; q "a"; ": 1, "; q "b"; ": 2, "; q "a"; ": 3}"]%string))
  = Done (JDict [(utf8 "a", JInt 3); (utf8 "b", JInt 2)]).
Proof. vm_compute. reflexivity. Qed.

Example loads_refuses_trailing_comma : loads (utf8 "[1, 2,]") = Invalid.
Proof. vm_compute. reflexivity. Qed.

Example loads_nested_arrays :
  loads (utf8 "[[[[]]]]") = Done (JList [JList [JList [JList []]]]).
Proof. vm_compute. reflexivity. Qed.

Example clean_response_fence_with_tag :
  clean_response (utf8 "```json
{}
```") = utf8 "{}".
Proof. vm_compute. reflexivity. Qed.

Example first_list_in_insertion_order :
  first_list [JInt 1; JList [JInt 2]; JList [JInt 3]] = JList [JInt 2].
Proof. reflexivity. Qed.

(** A configured client and a service that answers with the fenced,
    well-formed reply: one request goes out and the parsed object comes
    back. *)
Example audit_claim_configured :
  let svc : service := fun _ _ => Content (FENCE ++ nl :: reply_well_formed ++ nl :: FENCE) in
  let p := run svc
             [ Configure (utf8 "key");
               Audit (utf8 "bill") (utf8 "policy") [] DEFAULT_MODEL DEFAULT_TEMPERATURE ] in
  outcomes p
  = [ inr (JDict
        [ (utf8 "rows", JList [JDict [(utf8 "parameter", JStr (utf8 "ICU Room Rent"))]]);
          (utf8 "eligibility", JDict [(utf8 "verdict", JStr (utf8 "Eligible"))]) ]) ]
  /\ List.length (sent p) = 1%nat.
Proof. vm_compute. split; reflexivity. Qed.

(** ** Text: comparison, stripping, lines *)

Section TextFacts.

Lemma str_eqb_eq (a b : str) : str_eqb a b = true <-> a = b.
Proof.
  revert b; induction a as [|x a IH]; intros [|y b]; simpl; split;
    try congruence; try reflexivity.
  - intros H. apply andb_true_iff in H as [Hx Hab].
    apply N.eqb_eq in Hx. apply IH in Hab. congruence.
  - intros H. injection H as -> ->.
    rewrite N.eqb_refl. simpl. apply IH. reflexivity.
Qed.

Lemma str_eqb_refl (a : str) : str_eqb a a = true.
Proof. apply str_eqb_eq. reflexivity. Qed.

Lemma startswith_app (p rest : str) : startswith (p ++ rest) p = true.
Proof.
  induction p as [|x p IH]; simpl.
  - destruct rest; reflexivity.
  - rewrite N.eqb_refl. exact IH.
Qed.

Lemma startswith_split (s p : str) :
  startswith s p = true -> exists rest, s = p ++ rest.
Proof.
  revert s; induction p as [|x p IH]; intros s H.
  - exists s. reflexivity.
  - destruct s as [|y s]; simpl in H; [discriminate|].
    apply andb_true_iff in H as [Hx Hp].
    apply N.eqb_eq in Hx. subst y.
    destruct (IH _ Hp) as [rest ->]. exists rest. reflexivity.
Qed.

(** [contains] decides [occurs]. *)
Lemma contains_occurs (hay needle : str) :
  contains hay needle = true <-> occurs needle hay.
Proof.
  split.
  - induction hay as [|c hay IH]; cbn [contains]; intros H.
    + rewrite orb_false_r in H.
      destruct (startswith_split _ _ H) as [rest E].
      exists [], rest. exact E.
    + apply orb_true_iff in H as [H|H].
      * destruct (startswith_split _ _ H) as [rest E].
        exists [], rest. exact E.
      * destruct (IH H) as (pre & post & E).
        exists (c :: pre), post. simpl. congruence.
  - intros (pre & post & ->).
    induction pre as [|c pre IH].
    + cbn [app]. destruct (needle ++ post) eqn:E; cbn [contains];
        rewrite <- E, startswith_app; reflexivity.
    + cbn [app contains]. rewrite IH. apply orb_true_r.
Qed.

Lemma not_contains_not_occurs (hay needle : str) :
  contains hay needle = false -> ~ occurs needle hay.
Proof.
  intros H O. apply contains_occurs in O. congruence.
Qed.

Lemma lstrip_spaces (w s : str) :
  forallb isspace w = true -> lstrip (w ++ s) = lstrip s.
Proof.
  induction w as [|c w IH]; simpl; intros H; [reflexivity|].
  apply andb_true_iff in H as [Hc Hw]. rewrite Hc. auto.
Qed.

Lemma lstrip_keep (c : N) (s : str) :
  isspace c = false -> lstrip (c :: s) = c :: s.
Proof. intros H. simpl. rewrite H. reflexivity. Qed.

Lemma rstrip_app_keep (a b : str) :
  rstrip b <> [] -> rstrip (a ++ b) = a ++ rstrip b.
Proof.
  intros Hb. induction a as [|c a IH]; simpl; [reflexivity|].
  rewrite IH. destruct (a ++ rstrip b) eqn:E; [|reflexivity].
  destruct a; simpl in E; [contradiction|discriminate].
Qed.

Lemma rstrip_spaces (w : str) : forallb isspace w = true -> rstrip w = [].
Proof.
  induction w as [|c w IH]; simpl; intros H; [reflexivity|].
  apply andb_true_iff in H as [Hc Hw]. rewrite (IH Hw), Hc. reflexivity.
Qed.

Lemma rstrip_app_spaces (s w : str) :
  forallb isspace w = true -> rstrip (s ++ w) = rstrip s.
Proof.
  intros Hw. induction s as [|c s IH]; simpl.
  - apply rstrip_spaces, Hw.
  - rewrite IH. reflexivity.
Qed.

Lemma rstrip_last_keep (s : str) (c : N) :
  isspace c = false -> rstrip (s ++ [c]) = s ++ [c].
Proof.
  intros Hc. rewrite rstrip_app_keep; simpl; rewrite Hc; congruence.
Qed.

(** A text is stripped to nothing exactly when it is whitespace only. *)
Lemma strip_nil_iff (s : str) : strip s = [] <-> forallb isspace s = true.
Proof.
  unfold strip. induction s as [|c s IH]; simpl; [tauto|].
  destruct (isspace c) eqn:Hc; simpl; [exact IH|].
  split; [|discriminate].
  destruct (rstrip s); simpl; rewrite ?Hc; discriminate.
Qed.

Lemma split_lines_cons (s : str) : exists l ls, split_lines s = l :: ls.
Proof.
  induction s as [|c s (l & ls & E)]; simpl; eauto.
  destruct (c =? nl); eauto. rewrite E. eauto.
Qed.

Lemma split_lines_app (a b : str) :
  split_lines (a ++ nl :: b) = split_lines a ++ split_lines b.
Proof.
  induction a as [|c a IH]; simpl; [reflexivity|].
  destruct (c =? nl); rewrite IH; [reflexivity|].
  destruct (split_lines_cons a) as (l & ls & ->). reflexivity.
Qed.

Lemma join_lines_cons (l : str) (ls : list str) :
  ls <> [] -> join_lines (l :: ls) = l ++ nl :: join_lines ls.
Proof. destruct ls; [congruence|reflexivity]. Qed.

Lemma join_lines_app (xs ys : list str) :
  xs <> [] -> ys <> [] ->
  join_lines (xs ++ ys) = join_lines xs ++ nl :: join_lines ys.
Proof.
  intros Hx Hy. induction xs as [|x xs IH]; [congruence|].
  destruct xs as [|x' xs].
  - simpl app. rewrite join_lines_cons by assumption. reflexivity.
  - change ((x :: x' :: xs) ++ ys) with (x :: (x' :: xs) ++ ys).
    rewrite join_lines_cons by discriminate.
    rewrite IH by discriminate.
    rewrite (join_lines_cons x (x' :: xs)) by discriminate.
    rewrite <- app_assoc. reflexivity.
Qed.

Lemma join_split_lines (s : str) : join_lines (split_lines s) = s.
Proof.
  induction s as [|c s IH]; [reflexivity|]. simpl.
  destruct (c =? nl) eqn:Hc.
  - apply N.eqb_eq in Hc. subst c.
    destruct (split_lines_cons s) as (l & ls & E).
    rewrite join_lines_cons by (rewrite E; discriminate).
    rewrite IH. reflexivity.
  - destruct (split_lines_cons s) as (l & ls & E). rewrite E in *.
    destruct ls as [|l' ls].
    + unfold join_lines in *. cbn [join] in *. congruence.
    + rewrite (join_lines_cons (c :: l)) by discriminate.
      rewrite (join_lines_cons l) in IH by discriminate.
      rewrite <- IH. reflexivity.
Qed.

Lemma blank_lines_nonempty (ls : list str) : ls <> [] -> blank_lines ls <> [].
Proof. destruct ls; simpl; congruence. Qed.

Lemma normalise_lines_app (a b : str) :
  normalise_lines (a ++ nl :: b) = normalise_lines a ++ nl :: normalise_lines b.
Proof.
  unfold normalise_lines. rewrite split_lines_app.
  unfold blank_lines at 1. rewrite map_app. fold (blank_lines (split_lines a)).
  fold (blank_lines (split_lines b)).
  apply join_lines_app; apply blank_lines_nonempty;
    [destruct (split_lines_cons a) as (l & ls & ->)
    |destruct (split_lines_cons b) as (l & ls & ->)]; discriminate.
Qed.

(** [normalise_lines] works through a template entry by entry. *)
Lemma normalise_join_lines (parts : list str) :
  parts <> [] ->
  normalise_lines (join_lines parts) = join_lines (map normalise_lines parts).
Proof.
  induction parts as [|x parts IH]; [congruence|]. intros _.
  destruct parts as [|y parts]; [reflexivity|].
  rewrite join_lines_cons by discriminate.
  rewrite normalise_lines_app, IH by discriminate.
  change (map normalise_lines (x :: y :: parts))
    with (normalise_lines x :: map normalise_lines (y :: parts)).
  rewrite join_lines_cons by discriminate. reflexivity.
Qed.

Lemma narrow_nil_stays (ins : list str) : fold_left narrow ins (Some []) = Some [].
Proof.
  induction ins as [|i ins IH]; simpl; [reflexivity|].
  destruct i; exact IH.
Qed.

Lemma narrow_to_nil (m : option str) : narrow m [] = Some [].
Proof.
  destruct m as [[|c m]|]; reflexivity.
Qed.

(** One line without indentation empties the margin. *)
Lemma margin_of_nil (ins : list str) : In [] ins -> margin_of ins = Some [].
Proof.
  unfold margin_of. generalize (@None str).
  induction ins as [|i ins IH]; intros m H; [contradiction|].
  destruct H as [->|H]; simpl.
  - rewrite narrow_to_nil. apply narrow_nil_stays.
  - apply IH, H.
Qed.

Lemma dedent_no_margin (t : str) :
  In [] (indents (blank_lines (split_lines t))) ->
  dedent t = normalise_lines t.
Proof.
  intros H. unfold dedent. rewrite (margin_of_nil _ H). reflexivity.
Qed.

Lemma indents_app (xs ys : list str) : indents (xs ++ ys) = indents xs ++ indents ys.
Proof. unfold indents. apply flat_map_app. Qed.

End TextFacts.

(** ** The assembled user message *)

(** The constant few-shot block: it has no line of blanks, its first
    line is empty and its opening tag stands at the margin. *)
Lemma few_normalised :
  normalise_lines (utf8 "    " ++ FEW_SHOT_EXAMPLES) = FEW_SHOT_EXAMPLES.
Proof. vm_compute. reflexivity. Qed.

Lemma few_unindented :
  In [] (indents (blank_lines (split_lines (utf8 "    " ++ FEW_SHOT_EXAMPLES)))).
Proof. vm_compute. left. reflexivity. Qed.

Lemma few_block : FEW_SHOT_EXAMPLES = nl :: EXAMPLES_BLOCK ++ [nl].
Proof. vm_compute. reflexivity. Qed.

Lemma examples_block_head : exists t, EXAMPLES_BLOCK = 60 :: t.
Proof. eexists. vm_compute. reflexivity. Qed.

Lemma template_unindented (b p u : str) :
  In [] (indents (blank_lines (split_lines (user_message_template b p u)))).
Proof.
  unfold user_message_template.
  rewrite join_lines_cons by discriminate.
  rewrite join_lines_cons by discriminate.
  rewrite split_lines_app, split_lines_app.
  unfold blank_lines. rewrite !map_app. rewrite !indents_app.
  apply in_or_app. right. apply in_or_app. left.
  apply few_unindented.
Qed.


(** Rewrites [normalise_lines] of each literal line of the template. *)
Ltac literal_lines :=
  repeat match goal with
  | |- context [normalise_lines (utf8 ?x)] =>
      let v := eval vm_compute in (normalise_lines (utf8 x)) in
      let e := eval vm_compute in (utf8 x) in
      first
        [ unify v e;
          replace (normalise_lines (utf8 x)) with (utf8 x)
            by (vm_compute; reflexivity)
        | replace (normalise_lines (utf8 x)) with (@nil N)
            by (vm_compute; reflexivity) ]
  end.

Section MessageShape.

#[local] Opaque FEW_SHOT_EXAMPLES EXAMPLES_BLOCK utf8.

(** Whatever the three texts are, the margin of the template is empty
    (the few-shot block has lines at column 0), so [dedent] only empties
    lines of blanks and [strip] takes the newlines at both ends. *)
Lemma build_user_message_shape (b p u : str) :
  _build_user_message b p u
  = message_of_segments (segment p) (segment (uploaded_or_fallback u)) (segment b).
Proof.
  unfold _build_user_message.
  rewrite dedent_no_margin by apply template_unindented.
  unfold user_message_template.
  rewrite normalise_join_lines by discriminate.
  cbn [map].
  fold (segment p). fold (segment (uploaded_or_fallback u)). fold (segment b).
  rewrite few_normalised.
  change (normalise_lines []) with (@nil N).
  literal_lines.
  rewrite few_block.
  destruct examples_block_head as [t Ht].
  unfold message_of_segments, join_lines. cbn [join]. rewrite Ht.
  set (tail := utf8 "    Now perform the full audit and return the JSON object.").
  assert (Htail : rstrip tail = tail) by (vm_compute; reflexivity).
  assert (Hne : tail <> []) by (vm_compute; discriminate).
  change (nl :: (60 :: t) ++ [nl]) with ([nl] ++ (60 :: t) ++ [nl]).
  rewrite !app_nil_l, !app_nil_r, <- !app_assoc.
  unfold strip.
  rewrite !(lstrip_spaces [nl]) by reflexivity.
  change ((60 :: t) ++ ?r) with (60 :: (t ++ r)).
  rewrite lstrip_keep by reflexivity.
  rewrite !app_comm_cons, !app_assoc.
  rewrite rstrip_app_spaces by reflexivity.
  rewrite rstrip_app_keep by (rewrite Htail; exact Hne).
  rewrite Htail. reflexivity.
Qed.

End MessageShape.

Lemma blank_lines_plain (ls : list str) :
  forallb (fun l => negb (whitespace_only l)) ls = true -> blank_lines ls = ls.
Proof.
  induction ls as [|l ls IH]; simpl; intros H; [reflexivity|].
  apply andb_true_iff in H as [Hl Hls].
  apply negb_true_iff in Hl. rewrite Hl, (IH Hls). reflexivity.
Qed.

Lemma segment_plain (t : str) : plain t = true -> segment t = utf8 "    " ++ t.
Proof.
  intros H. unfold segment, normalise_lines.
  rewrite blank_lines_plain by exact H. apply join_split_lines.
Qed.

Lemma examples_block_tags :
  exists body, EXAMPLES_BLOCK = utf8 "<examples>" ++ body ++ utf8 "</examples>".
Proof.
  exists (firstn (List.length EXAMPLES_BLOCK - 21) (skipn 10 EXAMPLES_BLOCK)).
  vm_compute. reflexivity.
Qed.


Lemma occurs_in_lines (xs mid ys : list str) (indent needle : str) :
  xs <> [] -> ys <> [] -> mid <> [] ->
  join_lines mid = indent ++ needle ->
  occurs needle (join_lines (xs ++ mid ++ ys)).
Proof.
  intros Hx Hy Hm E.
  rewrite join_lines_app, join_lines_app, E; try assumption.
  - exists (join_lines xs ++ nl :: indent), (nl :: join_lines ys).
    rewrite <- !app_assoc. reflexivity.
  - destruct mid; [congruence|discriminate].
Qed.

Lemma occurs_uploaded_segment (baseline uploaded bill : str) :
  occurs
    (join_lines [utf8 "<uploaded_policy>"; uploaded; utf8 "    </uploaded_policy>"])
    (message_of_segments baseline uploaded bill).
Proof.
  unfold message_of_segments.
  apply (occurs_in_lines
    [ EXAMPLES_BLOCK; []; []; utf8 "    <policy_baseline>"; baseline;
      utf8 "    </policy_baseline>"; [] ]
    [ utf8 "    <uploaded_policy>"; uploaded; utf8 "    </uploaded_policy>" ]
    [ []; utf8 "    <bill>"; bill; utf8 "    </bill>"; [];
      utf8 "    Now perform the full audit and return the JSON object." ]
    (utf8 "    ")); try discriminate.
  reflexivity.
Qed.

(** ** The response *)

Lemma has_key_lookup {V} (d : PyDict.dict V) (k : str) :
  PyDict.has_key d k = true <-> exists v, PyDict.lookup d k = Some v.
Proof.
  induction d as [|[k' v'] d IH]; simpl.
  - split; [discriminate|intros [v H]; discriminate].
  - destruct (str_eqb k' k); simpl; [split; eauto|exact IH].
Qed.

Lemma has_key_false {V} (d : PyDict.dict V) (k : str) :
  PyDict.has_key d k = false <-> PyDict.lookup d k = None.
Proof.
  induction d as [|[k' v'] d IH]; simpl; [tauto|].
  destruct (str_eqb k' k); simpl; [split; discriminate|exact IH].
Qed.

Lemma lstrip_split (s : str) :
  exists w, forallb isspace w = true /\ s = w ++ lstrip s.
Proof.
  induction s as [|c s (w & Hw & E)]; simpl.
  - exists []. split; reflexivity.
  - destruct (isspace c) eqn:Hc.
    + exists (c :: w). simpl. rewrite Hc, Hw. split; [reflexivity|congruence].
    + exists []. split; reflexivity.
Qed.

Lemma lstrip_app_keep (a b : str) : lstrip a <> [] -> lstrip (a ++ b) = lstrip a ++ b.
Proof.
  induction a as [|c a IH]; simpl; [congruence|].
  destruct (isspace c); auto.
Qed.

Lemma rstrip_tail (c : N) (s : str) : rstrip (c :: s) = c :: s -> rstrip s = s.
Proof.
  simpl. destruct (rstrip s) eqn:E.
  - destruct (isspace c); [discriminate|]. intros H. injection H as <-. reflexivity.
  - intros H. injection H as <-. reflexivity.
Qed.

Lemma rstrip_fixed_not_spaces (c : N) (s : str) :
  rstrip (c :: s) = c :: s -> forallb isspace (c :: s) = false.
Proof.
  intros H. destruct (forallb isspace (c :: s)) eqn:E; [|reflexivity].
  rewrite (rstrip_spaces _ E) in H. discriminate.
Qed.

Lemma forallb_app_true {A} (f : A -> bool) (a b : list A) :
  forallb f (a ++ b) = true -> forallb f a = true.
Proof. rewrite forallb_app. intros H. apply andb_true_iff in H. tauto. Qed.

(** What a match of the closing pattern looks like. *)
Lemma closing_fence_here_spec (s r : str) :
  closing_fence_here s = Some r ->
  exists w, forallb isspace w = true /\ s = w ++ FENCE ++ r /\ (r = [] \/ r = [nl]).
Proof.
  unfold closing_fence_here. destruct (lstrip_split s) as (w & Hw & E).
  destruct (lstrip s) as [|b1 [|b2 [|b3 t]]]; try discriminate.
  destruct ((b1 =? backtick) && (b2 =? backtick) && (b3 =? backtick)) eqn:Hb;
    [|discriminate].
  apply andb_true_iff in Hb as [Hb Hb3]. apply andb_true_iff in Hb as [Hb1 Hb2].
  apply N.eqb_eq in Hb1, Hb2, Hb3. subst b1 b2 b3.
  destruct t as [|c [|c' t]]; try discriminate.
  - intros H. injection H as <-. exists w. auto.
  - destruct (c =? nl) eqn:Hc; [|discriminate].
    apply N.eqb_eq in Hc. subst c.
    intros H. injection H as <-. exists w. auto.
Qed.

Lemma closing_fence_at_end (w : str) :
  forallb isspace w = true -> closing_fence_here (w ++ FENCE) = Some [].
Proof.
  intros Hw. unfold closing_fence_here. rewrite lstrip_spaces by exact Hw.
  reflexivity.
Qed.

(** The closing pattern cannot match from inside a text that ends with
    a character other than whitespace and is followed by the fence. *)
Lemma closing_fence_not_inside (c : N) (core w : str) :
  rstrip (c :: core) = c :: core -> forallb isspace w = true ->
  closing_fence_here ((c :: core) ++ w ++ FENCE) = None.
Proof.
  intros Hcore Hw.
  destruct (closing_fence_here ((c :: core) ++ w ++ FENCE)) as [r|] eqn:E;
    [|reflexivity].
  exfalso. apply closing_fence_here_spec in E as (w' & Hw' & E & [->| ->]).
  - rewrite app_nil_r in E. rewrite app_assoc in E.
    apply app_inv_tail in E.
    apply rstrip_fixed_not_spaces in Hcore.
    rewrite <- E in Hw'. apply forallb_app_true in Hw'. congruence.
  - unfold FENCE in E.
    change ((c :: core) ++ w ++ [backtick; backtick; backtick])
      with ((c :: core) ++ w ++ [backtick; backtick] ++ [backtick]) in E.
    change (w' ++ [backtick; backtick; backtick] ++ [nl])
      with (w' ++ [backtick; backtick; backtick] ++ [nl]) in E.
    rewrite !app_assoc in E.
    apply app_inj_tail in E as [_ E]. discriminate.
Qed.

Lemma sub_closing_fence_unwraps (core w : str) :
  rstrip core = core -> forallb isspace w = true ->
  sub_closing_fence (core ++ w ++ FENCE) = core.
Proof.
  intros Hcore Hw. induction core as [|c core IH].
  - simpl app. destruct w as [|x w].
    + reflexivity.
    + simpl. change (x :: w ++ FENCE) with ((x :: w) ++ FENCE).
      rewrite closing_fence_at_end by exact Hw. reflexivity.
  - cbn [sub_closing_fence app].
    change (c :: core ++ w ++ FENCE) with ((c :: core) ++ w ++ FENCE).
    rewrite closing_fence_not_inside by assumption.
    cbn [app]. f_equal. apply IH. eapply rstrip_tail, Hcore.
Qed.

Lemma skip_json_tag_tag (tag rest : str) :
  fence_tag tag -> (tag = [] -> forall c t, rest = c :: t -> is_j c = false) ->
  skip_json_tag (tag ++ rest) = rest.
Proof.
  intros [|j s o n Hj Hs Ho Hn] Hrest.
  - simpl app. unfold skip_json_tag.
    destruct rest as [|c [|c1 [|c2 [|c3 t]]]]; try reflexivity.
    rewrite (Hrest eq_refl c _ eq_refl). reflexivity.
  - simpl. rewrite Hj, Hs, Ho, Hn. reflexivity.
Qed.

Lemma sub_opening_fence_unwraps (tag sep core rest : str) (c : N) :
  fence_tag tag -> forallb isspace sep = true ->
  isspace c = false -> is_j c = false ->
  sub_opening_fence (FENCE ++ tag ++ sep ++ (c :: core) ++ rest) = (c :: core) ++ rest.
Proof.
  intros Htag Hsep Hc Hj. unfold FENCE. cbn [app sub_opening_fence].
  rewrite N.eqb_refl. cbn [andb].
  rewrite skip_json_tag_tag.
  - rewrite lstrip_spaces by exact Hsep. apply lstrip_keep, Hc.
  - exact Htag.
  - intros _ c' t E. destruct sep as [|x sep].
    + injection E as <- _. exact Hj.
    + injection E as E _. subst c'.
      simpl in Hsep. apply andb_true_iff in Hsep as [Hx _].
      unfold is_j.
      destruct (x =? 106) eqn:E1; [apply N.eqb_eq in E1; subst; discriminate|].
      destruct (x =? 74) eqn:E2; [apply N.eqb_eq in E2; subst; discriminate|].
      reflexivity.
Qed.

Lemma strip_fixed_head (c : N) (s : str) : strip (c :: s) = c :: s -> isspace c = false.
Proof.
  unfold strip. simpl. destruct (isspace c) eqn:Hc; [|reflexivity].
  intros H. exfalso.
  destruct (lstrip_split s) as (w & Hw & E).
  assert (L : (List.length (rstrip (lstrip s)) <= List.length s)%nat).
  { rewrite E at 2. rewrite length_app.
    assert (R : forall x, (List.length (rstrip x) <= List.length x)%nat).
    { induction x as [|a x IHx]; simpl; [lia|].
      destruct (rstrip x); [destruct (isspace a)|]; simpl in *; lia. }
    specialize (R (lstrip s)). lia. }
  rewrite H in L. simpl in L. lia.
Qed.

Lemma strip_fixed_rstrip (s : str) : strip s = s -> rstrip s = s.
Proof.
  destruct s as [|c s]; [reflexivity|]. intros H.
  pose proof (strip_fixed_head _ _ H) as Hc.
  unfold strip in H. rewrite lstrip_keep in H by exact Hc. exact H.
Qed.

Lemma strip_fenced (lead inner trail : str) :
  forallb isspace lead = true -> forallb isspace trail = true ->
  strip (lead ++ FENCE ++ inner ++ FENCE ++ trail) = FENCE ++ inner ++ FENCE.
Proof.
  intros Hlead Htrail. unfold strip.
  rewrite lstrip_spaces by exact Hlead.
  replace (lstrip (FENCE ++ inner ++ FENCE ++ trail))
    with (((FENCE ++ inner) ++ FENCE) ++ trail)
    by (rewrite <- !app_assoc; reflexivity).
  rewrite rstrip_app_spaces by exact Htrail.
  rewrite rstrip_app_keep by (vm_compute; discriminate).
  rewrite <- app_assoc. reflexivity.
Qed.

(** The three steps of lines 255 to 257 on a fenced reply. *)
Lemma clean_response_fenced (lead tag sep1 sep2 trail core : str) (c : N) :
  fence_tag tag ->
  forallb isspace lead = true -> forallb isspace sep1 = true ->
  forallb isspace sep2 = true -> forallb isspace trail = true ->
  strip (c :: core) = c :: core -> is_j c = false ->
  clean_response (fenced lead tag sep1 (c :: core) sep2 trail) = c :: core.
Proof.
  intros Htag Hlead H1 H2 Htrail Hcore Hj.
  pose proof (strip_fixed_head _ _ Hcore) as Hc.
  unfold clean_response, fenced.
  replace (lead ++ FENCE ++ tag ++ sep1 ++ (c :: core) ++ sep2 ++ FENCE ++ trail)
    with (lead ++ FENCE ++ (tag ++ sep1 ++ (c :: core) ++ sep2) ++ FENCE ++ trail)
    by (rewrite <- !app_assoc; reflexivity).
  rewrite strip_fenced by assumption.
  rewrite <- !app_assoc.
  rewrite sub_opening_fence_unwraps by assumption.
  apply sub_closing_fence_unwraps; [|exact H2].
  apply strip_fixed_rstrip, Hcore.
Qed.

(** ** The decoder: what is left is shorter, and the fuel is enough *)

Ltac break_hyp H :=
  match type of H with
  | context [match ?x with _ => _ end] => destruct x eqn:?
  end.

Lemma skip_ws_length (s : str) : (List.length (skip_ws s) <= List.length s)%nat.
Proof.
  induction s as [|c s IH]; simpl; [lia|]. destruct (is_ws c); simpl; lia.
Qed.

Lemma cons_chunk_some (c : N) (o : option (str * str)) (x r : str) :
  cons_chunk c o = Some (x, r) -> exists x', x = c :: x' /\ o = Some (x', r).
Proof.
  destruct o as [[x' r']|]; simpl; [|discriminate].
  intros H. injection H as <- <-. eauto.
Qed.

Lemma scanstring_shorter (s x r : str) :
  scanstring s = Some (x, r) -> (List.length r < List.length s)%nat.
Proof.
  remember (List.length s) as n eqn:Hn. revert s x r Hn.
  induction n as [n IH] using lt_wf_ind. intros s x r Hn H.
  assert (REC : forall c t x' r', (List.length t < n)%nat ->
            cons_chunk c (scanstring t) = Some (x', r') ->
            (List.length r' < List.length t)%nat).
  { intros c t x' r' Ht Hc. apply cons_chunk_some in Hc as (y & _ & Hc).
    eapply (IH _ Ht); eauto. }
  destruct s as [|c t]; [discriminate|]. cbn [scanstring] in H.
  repeat break_hyp H; try discriminate; subst; cbn [List.length] in *;
    try (injection H as <- <-; cbn [List.length]; lia);
    try (apply REC in H; cbn [List.length] in *; lia).
Qed.

Lemma span_digits_length (s : str) :
  (List.length (snd (span_digits s)) <= List.length s)%nat.
Proof.
  induction s as [|c s IH]; simpl; [lia|].
  destruct (is_digit c); [|simpl; lia].
  destruct (span_digits s). simpl in *. lia.
Qed.

Lemma match_integer_shorter (s i r : str) :
  match_integer s = Some (i, r) -> (List.length r < List.length s)%nat.
Proof.
  unfold match_integer. intros H.
  assert (D : forall d t, (List.length (snd (span_digits t)) < List.length (d :: t))%nat).
  { intros d t. pose proof (span_digits_length t). simpl. lia. }
  destruct s as [|c t]; [discriminate|].
  destruct (c =? 45).
  - destruct t as [|d t']; [discriminate|].
    destruct (d =? 48); [injection H as <- <-; simpl; lia|].
    destruct (is_digit d); [|discriminate].
    specialize (D d t'). destruct (span_digits t'). injection H as <- <-.
    simpl in *. lia.
  - destruct (c =? 48); [injection H as <- <-; simpl; lia|].
    destruct (is_digit c); [|discriminate].
    specialize (D c t). destruct (span_digits t). injection H as <- <-.
    simpl in *. lia.
Qed.

Lemma match_frac_length (s : str) :
  (List.length (snd (match_frac s)) <= List.length s)%nat.
Proof.
  unfold match_frac. destruct s as [|dot [|d t]]; simpl; try lia.
  destruct ((dot =? 46) && is_digit d); [|simpl; lia].
  pose proof (span_digits_length t). destruct (span_digits t). simpl in *. lia.
Qed.

Lemma match_exp_length (s : str) :
  (List.length (snd (match_exp s)) <= List.length s)%nat.
Proof.
  unfold match_exp. destruct s as [|e t]; simpl; [lia|].
  destruct ((e =? 101) || (e =? 69)); [|simpl; lia].
  destruct t as [|c t1]; [simpl; lia|].
  destruct ((c =? 45) || (c =? 43)).
  - destruct t1 as [|d t2]; [simpl; lia|].
    destruct (is_digit d); [|simpl; lia].
    pose proof (span_digits_length t2). destruct (span_digits t2). simpl in *. lia.
  - destruct (is_digit c); [|simpl; lia].
    pose proof (span_digits_length t1). destruct (span_digits t1). simpl in *. lia.
Qed.

Lemma match_number_shorter (s : str) (v : value) (r : str) :
  match_number s = Some (v, r) -> (List.length r < List.length s)%nat.
Proof.
  unfold match_number. intros H.
  destruct (match_integer s) as [[i r0]|] eqn:Ei; [|discriminate].
  apply match_integer_shorter in Ei.
  pose proof (match_frac_length r0) as Hf. destruct (match_frac r0) as [fr r1].
  pose proof (match_exp_length r1) as He. destruct (match_exp r1) as [ex r2].
  simpl in *. destruct fr, ex; injection H as <- <-; lia.
Qed.

Lemma after_word_length (w s r : str) :
  after_word w s = Some r -> List.length s = (List.length w + List.length r)%nat.
Proof.
  revert s; induction w as [|x w IH]; intros s H; simpl in *.
  - injection H as <-. reflexivity.
  - destruct s as [|y s]; [discriminate|].
    destruct (x =? y); [|discriminate]. simpl. rewrite (IH _ H). reflexivity.
Qed.

Lemma scan_constant_shorter (s : str) (v : value) (r : str) :
  scan_constant s = Some (v, r) -> (List.length r < List.length s)%nat.
Proof.
  unfold scan_constant. intros H.
  repeat break_hyp H; try discriminate; injection H as <- <-;
    match goal with E : after_word _ _ = Some _ |- _ =>
      apply after_word_length in E; rewrite E; vm_compute List.length; lia end.
Qed.

Lemma scan_once_S (f : nat) (s : str) :
  scan_once (S f) s =
  match s with
  | [] => Invalid
  | c :: t =>
      if c =? 34 then
        match scanstring t with
        | Some (x, r) => Done (JStr x, r)
        | None => Invalid
        end
      else if c =? 123 then
        match skip_ws t with
        | c1 :: t1 =>
            if c1 =? 125 then Done (JDict [], t1)
            else
              match object_members f (c1 :: t1) with
              | Done (ps, r) => Done (JDict (PyDict.of_pairs ps), r)
              | Invalid => Invalid
              | Exhausted => Exhausted
              end
        | [] => Invalid
        end
      else if c =? 91 then
        match skip_ws t with
        | c1 :: t1 =>
            if c1 =? 93 then Done (JList [], t1)
            else
              match array_items f (c1 :: t1) with
              | Done (vs, r) => Done (JList vs, r)
              | Invalid => Invalid
              | Exhausted => Exhausted
              end
        | [] => Invalid
        end
      else scan_leaf s
  end.
Proof. reflexivity. Qed.

Lemma array_items_S (f : nat) (s : str) :
  array_items (S f) s =
  match scan_once f s with
  | Done (v, r) =>
      match skip_ws r with
      | c :: t =>
          if c =? 93 then Done ([v], t)
          else if c =? 44 then
            match array_items f (skip_ws t) with
            | Done (vs, r') => Done (v :: vs, r')
            | Invalid => Invalid
            | Exhausted => Exhausted
            end
          else Invalid
      | [] => Invalid
      end
  | Invalid => Invalid
  | Exhausted => Exhausted
  end.
Proof. reflexivity. Qed.

Lemma object_members_S (f : nat) (s : str) :
  object_members (S f) s =
  match s with
  | q :: t =>
      if q =? 34 then
        match scanstring t with
        | None => Invalid
        | Some (key, r) =>
            match skip_ws r with
            | colon :: r1 =>
                if colon =? 58 then
                  match scan_once f (skip_ws r1) with
                  | Done (v, r2) =>
                      match skip_ws r2 with
                      | c :: t2 =>
                          if c =? 125 then Done ([(key, v)], t2)
                          else if c =? 44 then
                            match object_members f (skip_ws t2) with
                            | Done (ps, r') => Done ((key, v) :: ps, r')
                            | Invalid => Invalid
                            | Exhausted => Exhausted
                            end
                          else Invalid
                      | [] => Invalid
                      end
                  | Invalid => Invalid
                  | Exhausted => Exhausted
                  end
                else Invalid
            | [] => Invalid
            end
        end
      else Invalid
  | [] => Invalid
  end.
Proof. reflexivity. Qed.

Lemma scan_leaf_shorter (s : str) (v : value) (r : str) :
  scan_leaf s = Done (v, r) -> (List.length r < List.length s)%nat.
Proof.
  unfold scan_leaf. intros H.
  destruct (after_word (utf8 "null") s) eqn:E1.
  { injection H as <- <-. apply after_word_length in E1. rewrite E1.
    vm_compute. lia. }
  destruct (after_word (utf8 "true") s) eqn:E2.
  { injection H as <- <-. apply after_word_length in E2. rewrite E2.
    vm_compute. lia. }
  destruct (after_word (utf8 "false") s) eqn:E3.
  { injection H as <- <-. apply after_word_length in E3. rewrite E3.
    vm_compute. lia. }
  destruct (match_number s) as [[v' r']|] eqn:E4.
  { injection H as <- <-. eapply match_number_shorter, E4. }
  destruct (scan_constant s) as [[v' r']|] eqn:E5; [|discriminate].
  injection H as <- <-. eapply scan_constant_shorter, E5.
Qed.

Lemma scan_leaf_not_exhausted (s : str) : scan_leaf s <> Exhausted.
Proof.
  unfold scan_leaf, of_option.
  repeat match goal with |- context [match ?x with _ => _ end] => destruct x end;
    discriminate.
Qed.

(** Collects what the equations in the context say about lengths. *)
Ltac lengths :=
  repeat match goal with
  | E : skip_ws ?t = _ |- _ =>
      let H := fresh "L" in
      pose proof (skip_ws_length t) as H; rewrite E in H; clear E
  | E : scanstring _ = Some _ |- _ => apply scanstring_shorter in E
  | E : scan_leaf _ = Done _ |- _ => apply scan_leaf_shorter in E
  | H : context [List.length (skip_ws ?t)] |- _ =>
      lazymatch goal with
      | _ : (List.length (skip_ws t) <= List.length t)%nat |- _ => fail
      | _ => pose proof (skip_ws_length t)
      end
  | |- context [List.length (skip_ws ?t)] =>
      lazymatch goal with
      | _ : (List.length (skip_ws t) <= List.length t)%nat |- _ => fail
      | _ => pose proof (skip_ws_length t)
      end
  end;
  cbn [List.length] in *; try lia.

Lemma decoder_shorter (f : nat) :
  (forall s v r, scan_once f s = Done (v, r) -> (List.length r < List.length s)%nat)
  /\ (forall s vs r, array_items f s = Done (vs, r) ->
        (List.length r < List.length s)%nat)
  /\ (forall s ps r, object_members f s = Done (ps, r) ->
        (List.length r < List.length s)%nat).
Proof.
  induction f as [|f (IHs & IHa & IHo)]; [repeat split; discriminate|].
  repeat split.
  - intros s v r H. rewrite scan_once_S in H.
    repeat break_hyp H; try discriminate; try (injection H as <- <-); subst;
      try match goal with E : object_members f _ = Done _ |- _ => apply IHo in E end;
      try match goal with E : array_items f _ = Done _ |- _ => apply IHa in E end;
      lengths.
  - intros s vs r H. rewrite array_items_S in H.
    repeat break_hyp H; try discriminate; try (injection H as <- <-); subst;
      try match goal with E : scan_once f _ = Done _ |- _ => apply IHs in E end;
      try match goal with E : array_items f _ = Done _ |- _ => apply IHa in E end;
      lengths.
  - intros s ps r H. rewrite object_members_S in H.
    repeat break_hyp H; try discriminate; try (injection H as <- <-); subst;
      try match goal with E : scan_once f _ = Done _ |- _ => apply IHs in E end;
      try match goal with E : object_members f _ = Done _ |- _ => apply IHo in E end;
      lengths.
Qed.

Ltac break_goal :=
  match goal with
  | |- context [match ?x with _ => _ end] => destruct x eqn:?
  end.

(** With fuel above twice the length of the text the decoder does not
    stop for lack of fuel. *)
Lemma decoder_fuel_enough (f : nat) :
  (forall s, (2 * List.length s < f)%nat -> scan_once f s <> Exhausted)
  /\ (forall s, (2 * List.length s + 1 < f)%nat -> array_items f s <> Exhausted)
  /\ (forall s, (2 * List.length s + 1 < f)%nat -> object_members f s <> Exhausted).
Proof.
  induction f as [|f (IHs & IHa & IHo)]; [repeat split; intros; lia|].
  repeat split.
  - intros s Hf. rewrite scan_once_S.
    repeat break_goal; try discriminate; try apply scan_leaf_not_exhausted;
      exfalso;
      match goal with
      | E : object_members f _ = Exhausted |- _ => revert E; apply IHo
      | E : array_items f _ = Exhausted |- _ => revert E; apply IHa
      end; subst; lengths.
  - intros s Hf. rewrite array_items_S.
    repeat break_goal; try discriminate; exfalso;
      repeat match goal with
      | E : scan_once f _ = Done _ |- _ => apply (proj1 (decoder_shorter f)) in E
      end;
      match goal with
      | E : scan_once f _ = Exhausted |- _ => revert E; apply IHs
      | E : array_items f _ = Exhausted |- _ => revert E; apply IHa
      end; subst; lengths.
  - intros s Hf. rewrite object_members_S.
    repeat break_goal; try discriminate; exfalso;
      repeat match goal with
      | E : scan_once f _ = Done _ |- _ => apply (proj1 (decoder_shorter f)) in E
      end;
      match goal with
      | E : scan_once f _ = Exhausted |- _ => revert E; apply IHs
      | E : object_members f _ = Exhausted |- _ => revert E; apply IHo
      end; subst; lengths.
Qed.

(** A result reached with some fuel is the result with more fuel. *)
Lemma decoder_fuel_mono (f : nat) :
  (forall s, scan_once f s <> Exhausted -> scan_once (S f) s = scan_once f s)
  /\ (forall s, array_items f s <> Exhausted -> array_items (S f) s = array_items f s)
  /\ (forall s, object_members f s <> Exhausted ->
        object_members (S f) s = object_members f s).
Proof.
  induction f as [|f (IHs & IHa & IHo)]; [repeat split; intros s H; now destruct H|].
  repeat split.
  - intros s H. rewrite (scan_once_S (S f)). rewrite scan_once_S in H |- *.
    repeat (break_goal; try reflexivity);
      match goal with
      | E : object_members f ?x = _ |- _ =>
          rewrite (IHo x) in * by (rewrite E; discriminate); rewrite E in *
      | E : array_items f ?x = _ |- _ =>
          rewrite (IHa x) in * by (rewrite E; discriminate); rewrite E in *
      | _ => idtac
      end; try reflexivity; try congruence.
  - intros s H. rewrite (array_items_S (S f)). rewrite array_items_S in H |- *.
    destruct (scan_once f s) as [[v r]| |] eqn:Es; [| |congruence];
      rewrite (IHs s) by (rewrite Es; discriminate); rewrite Es; [|reflexivity].
    repeat (break_goal; try reflexivity);
      match goal with
      | E : array_items f ?x = _ |- _ =>
          rewrite (IHa x) in * by (rewrite E; discriminate); rewrite E in *
      | _ => idtac
      end; try reflexivity; try congruence.
  - intros s H. rewrite (object_members_S (S f)). rewrite object_members_S in H |- *.
    destruct s as [|q t]; [reflexivity|].
    destruct (q =? 34); [|reflexivity].
    destruct (scanstring t) as [[key r]|]; [|reflexivity].
    destruct (skip_ws r) as [|colon r1]; [reflexivity|].
    destruct (colon =? 58); [|reflexivity].
    destruct (scan_once f (skip_ws r1)) as [[v r2]| |] eqn:Es; [| |congruence];
      rewrite (IHs (skip_ws r1)) by (rewrite Es; discriminate); rewrite Es;
      [|reflexivity].
    repeat (break_goal; try reflexivity);
      match goal with
      | E : object_members f ?x = _ |- _ =>
          rewrite (IHo x) in * by (rewrite E; discriminate); rewrite E in *
      | _ => idtac
      end; try reflexivity; try congruence.
Qed.

Lemma scan_once_more_fuel (s : str) (f k : nat) :
  (2 * List.length s < f)%nat -> scan_once (k + f) s = scan_once f s.
Proof.
  intros Hf. induction k as [|k IH]; [reflexivity|].
  cbn [Nat.add]. rewrite <- IH.
  apply (proj1 (decoder_fuel_mono (k + f))).
  apply (proj1 (decoder_fuel_enough (k + f))). lia.
Qed.

(** Above twice the length of the text the fuel does not matter. *)
Lemma scan_once_fuel (s : str) (f1 f2 : nat) :
  (2 * List.length s < f1)%nat -> (2 * List.length s < f2)%nat ->
  scan_once f1 s = scan_once f2 s.
Proof.
  intros H1 H2.
  destruct (Nat.le_ge_cases f1 f2) as [L|L].
  - replace f2 with ((f2 - f1) + f1)%nat by lia.
    symmetry. apply scan_once_more_fuel, H1.
  - replace f1 with ((f1 - f2) + f2)%nat by lia.
    apply scan_once_more_fuel, H2.
Qed.

Lemma decode_fuel (s : str) (f1 f2 : nat) :
  (2 * List.length s < f1)%nat -> (2 * List.length s < f2)%nat ->
  decode f1 s = decode f2 s.
Proof.
  intros H1 H2. unfold decode. pose proof (skip_ws_length s).
  rewrite (scan_once_fuel (skip_ws s) f1 f2) by lia. reflexivity.
Qed.


(** ** The decoder and the whitespace around a text *)

(** Whitespace lies outside the range of the characters that start or
    make up a JSON token. *)
Lemma isspace_range (c : N) : isspace c = true -> c <= 32 \/ 133 <= c.
Proof.
  unfold isspace. intros H.
  destruct (N.le_gt_cases c 32) as [L|L]; [left; exact L|].
  destruct (N.le_gt_cases 133 c) as [G|G]; [right; exact G|].
  exfalso.
  repeat (apply orb_true_iff in H as [H|H]);
    try (apply andb_true_iff in H as [H1 H2]; apply N.leb_le in H1, H2; lia);
    try (apply N.eqb_eq in H; lia).
Qed.

Lemma is_digit_off_token (c : N) : c <= 32 \/ 133 <= c -> is_digit c = false.
Proof.
  intros H. unfold is_digit.
  destruct (N.leb_spec 48 c); destruct (N.leb_spec c 57); try reflexivity; lia.
Qed.


Lemma after_word_mismatch (x c : N) (w s : str) :
  x <> c -> after_word (x :: w) (c :: s) = None.
Proof. intros H. simpl. destruct (N.eqb_spec x c); [contradiction|reflexivity]. Qed.

Lemma match_integer_off_token (c : N) (s : str) :
  c <= 32 \/ 133 <= c -> match_integer (c :: s) = None.
Proof.
  intros H. unfold match_integer.
  destruct (N.eqb_spec c 45); [lia|].
  destruct (N.eqb_spec c 48); [lia|].
  rewrite (is_digit_off_token c H). reflexivity.
Qed.

Lemma scan_leaf_off_token (c : N) (s : str) :
  c <= 32 \/ 133 <= c -> scan_leaf (c :: s) = Invalid.
Proof.
  intros H. unfold scan_leaf, match_number, scan_constant.
  change (utf8 "null") with (110 :: utf8 "ull").
  change (utf8 "true") with (116 :: utf8 "rue").
  change (utf8 "false") with (102 :: utf8 "alse").
  change (utf8 "NaN") with (78 :: utf8 "aN").
  change (utf8 "Infinity") with (73 :: utf8 "nfinity").
  change (utf8 "-Infinity") with (45 :: utf8 "Infinity").
  rewrite !after_word_mismatch by lia.
  rewrite match_integer_off_token by exact H. reflexivity.
Qed.

Lemma scan_once_off_token (f : nat) (c : N) (s : str) (v : value) (r : str) :
  c <= 32 \/ 133 <= c -> scan_once f (c :: s) <> Done (v, r).
Proof.
  intros H. destruct f as [|f]; [discriminate|].
  rewrite scan_once_S.
  repeat match goal with
  | |- context [N.eqb c ?a] => destruct (N.eqb_spec c a); [lia|]
  end.
  rewrite scan_leaf_off_token by exact H. discriminate.
Qed.

Lemma cons_chunk_keep_last (u c : N) (o : option (str * str)) :
  cons_chunk u (keep_last c o) = keep_last c (cons_chunk u o).
Proof. destruct o as [[x r]|]; reflexivity. Qed.

Lemma hex_digit_off_token (c : N) : c <= 32 \/ 133 <= c -> hex_digit c = None.
Proof.
  intros H. unfold hex_digit. rewrite (is_digit_off_token c H).
  destruct (N.leb_spec 97 c); destruct (N.leb_spec c 102); cbn [andb]; try lia;
    destruct (N.leb_spec 65 c); destruct (N.leb_spec c 70); cbn [andb]; try lia;
    reflexivity.
Qed.

Lemma hex4_last (a b d c : N) : hex_digit c = None -> hex4 a b d c = None.
Proof.
  intros H. unfold hex4. rewrite H.
  destruct (hex_digit a), (hex_digit b), (hex_digit d); reflexivity.
Qed.

Lemma backslash_off_token (c : N) : c <= 32 \/ 133 <= c -> backslash c = None.
Proof.
  intros H. unfold backslash.
  repeat match goal with
  | |- context [N.eqb c ?a] => destruct (N.eqb_spec c a); [lia|]
  end.
  reflexivity.
Qed.

Lemma scanstring_snoc (c : N) (s : str) :
  c <= 32 \/ 133 <= c ->
  scanstring (s ++ [c]) = keep_last c (scanstring s).
Proof.
  intros Hc.
  pose proof (hex_digit_off_token c Hc) as Hhex.
  pose proof (backslash_off_token c Hc) as Hback.
  assert (Hq : (c =? 34) = false) by (destruct (N.eqb_spec c 34); [lia|reflexivity]).
  assert (Hb : (c =? 92) = false) by (destruct (N.eqb_spec c 92); [lia|reflexivity]).
  assert (Hu : (c =? 117) = false) by (destruct (N.eqb_spec c 117); [lia|reflexivity]).
  remember (List.length s) as n eqn:Hn. revert s Hn.
  induction n as [n IH] using lt_wf_ind. intros s Hn.
  assert (REC : forall t, (List.length t < List.length s)%nat ->
            scanstring (t ++ [c]) = keep_last c (scanstring t)).
  { intros t Ht. apply (IH (List.length t)); [lia|reflexivity]. }
  clear IH Hn.
  destruct s as [|c0 t].
  { cbn. rewrite Hq, Hb. destruct (c <? 32); reflexivity. }
  cbn [app]. cbn [scanstring].
  assert (USE : forall u t0, (List.length t0 < List.length (c0 :: t))%nat ->
            cons_chunk u (scanstring (t0 ++ [c]))
            = keep_last c (cons_chunk u (scanstring t0))).
  { intros u t0 Ht0. rewrite (REC t0 Ht0). apply cons_chunk_keep_last. }
  destruct (c0 =? 34); [reflexivity|].
  destruct (c0 =? 92).
  2: { destruct (c0 <? 32); [reflexivity|]. apply USE. cbn [List.length]. lia. }
  destruct t as [|e t1]; cbn [app].
  { rewrite Hu, Hback. reflexivity. }
  destruct (e =? 117).
  2: { destruct (backslash e); [|reflexivity]. apply USE. cbn [List.length]. lia. }
  destruct t1 as [|h1 [|h2 [|h3 [|h4 t2]]]]; cbn [app]; try reflexivity.
  { rewrite hex4_last by exact Hhex. reflexivity. }
  destruct (hex4 h1 h2 h3 h4) as [uni|]; [|reflexivity].
  destruct ((55296 <=? uni) && (uni <=? 56319)).
  2: { apply USE. cbn [List.length]. lia. }
  destruct t2 as [|b [|u [|g1 [|g2 [|g3 [|g4 t3]]]]]]; cbn [app].
  - apply (USE uni []). cbn [List.length]. lia.
  - apply (USE uni [b]). cbn [List.length]. lia.
  - apply (USE uni [b; u]). cbn [List.length]. lia.
  - apply (USE uni [b; u; g1]). cbn [List.length]. lia.
  - apply (USE uni [b; u; g1; g2]). cbn [List.length]. lia.
  - destruct ((b =? 92) && (u =? 117)) eqn:E.
    + rewrite hex4_last by exact Hhex.
      apply andb_true_iff in E as [E1 E2]. apply N.eqb_eq in E1, E2. subst b u.
      reflexivity.
    + apply (USE uni [b; u; g1; g2; g3]). cbn [List.length]. lia.
  - destruct ((b =? 92) && (u =? 117)).
    + destruct (hex4 g1 g2 g3 g4) as [uni2|]; [|reflexivity].
      destruct ((56320 <=? uni2) && (uni2 <=? 57343)).
      * apply USE. cbn [List.length]. lia.
      * apply (USE uni (b :: u :: g1 :: g2 :: g3 :: g4 :: t3)). cbn [List.length]. lia.
    + apply (USE uni (b :: u :: g1 :: g2 :: g3 :: g4 :: t3)). cbn [List.length]. lia.
Qed.

Lemma span_digits_snoc (c : N) (s : str) :
  is_digit c = false ->
  span_digits (s ++ [c]) = (fst (span_digits s), snd (span_digits s) ++ [c]).
Proof.
  intros Hc. induction s as [|d s IH]; simpl.
  - rewrite Hc. reflexivity.
  - destruct (is_digit d); [|reflexivity].
    rewrite IH. destruct (span_digits s). reflexivity.
Qed.

Section OffToken.
Variable c : N.
Hypothesis Hc : c <= 32 \/ 133 <= c.

Lemma match_integer_snoc (s : str) :
  match_integer (s ++ [c]) = keep_last c (match_integer s).
Proof.
  pose proof (is_digit_off_token c Hc) as D.
  assert (Z0 : (c =? 48) = false) by (destruct (N.eqb_spec c 48); [lia|reflexivity]).
  assert (M : (c =? 45) = false) by (destruct (N.eqb_spec c 45); [lia|reflexivity]).
  unfold match_integer.
  destruct s as [|a t]; cbn [app].
  { rewrite M, Z0, D. reflexivity. }
  destruct (a =? 45).
  - destruct t as [|d t']; cbn [app].
    { rewrite Z0, D. reflexivity. }
    destruct (d =? 48); [reflexivity|].
    destruct (is_digit d); [|reflexivity].
    rewrite (span_digits_snoc c t' D). destruct (span_digits t'). reflexivity.
  - destruct (a =? 48); [reflexivity|].
    destruct (is_digit a); [|reflexivity].
    rewrite (span_digits_snoc c t D). destruct (span_digits t). reflexivity.
Qed.

Lemma match_frac_snoc (s : str) :
  match_frac (s ++ [c]) = (fst (match_frac s), snd (match_frac s) ++ [c]).
Proof.
  pose proof (is_digit_off_token c Hc) as D.
  assert (P : (c =? 46) = false) by (destruct (N.eqb_spec c 46); [lia|reflexivity]).
  unfold match_frac.
  destruct s as [|dot [|d t]]; cbn [app].
  - reflexivity.
  - rewrite D, andb_false_r. reflexivity.
  - destruct ((dot =? 46) && is_digit d); [|reflexivity].
    rewrite (span_digits_snoc c t D). destruct (span_digits t). reflexivity.
Qed.

Lemma match_exp_snoc (s : str) :
  match_exp (s ++ [c]) = (fst (match_exp s), snd (match_exp s) ++ [c]).
Proof.
  pose proof (is_digit_off_token c Hc) as D.
  assert (E1 : (c =? 101) = false) by (destruct (N.eqb_spec c 101); [lia|reflexivity]).
  assert (E2 : (c =? 69) = false) by (destruct (N.eqb_spec c 69); [lia|reflexivity]).
  assert (S1 : (c =? 45) = false) by (destruct (N.eqb_spec c 45); [lia|reflexivity]).
  assert (S2 : (c =? 43) = false) by (destruct (N.eqb_spec c 43); [lia|reflexivity]).
  unfold match_exp.
  destruct s as [|e t]; cbn [app].
  { rewrite E1, E2. reflexivity. }
  destruct ((e =? 101) || (e =? 69)); [|reflexivity].
  destruct t as [|x t1]; cbn [app].
  { rewrite S1, S2, D. reflexivity. }
  destruct ((x =? 45) || (x =? 43)).
  - destruct t1 as [|d t2]; cbn [app].
    { rewrite D. reflexivity. }
    destruct (is_digit d); [|reflexivity].
    rewrite (span_digits_snoc c t2 D). destruct (span_digits t2). reflexivity.
  - destruct (is_digit x); [|reflexivity].
    rewrite (span_digits_snoc c t1 D). destruct (span_digits t1). reflexivity.
Qed.

Lemma match_number_snoc (s : str) :
  match_number (s ++ [c]) = keep_last c (match_number s).
Proof.
  unfold match_number. rewrite match_integer_snoc.
  destruct (match_integer s) as [[i r0]|]; [|reflexivity]. cbn [keep_last].
  rewrite match_frac_snoc. destruct (match_frac r0) as [fr r1]. cbn [fst snd].
  rewrite match_exp_snoc. destruct (match_exp r1) as [ex r2]. cbn [fst snd].
  destruct fr, ex; reflexivity.
Qed.

Lemma after_word_snoc (w s : str) :
  ~ In c w ->
  after_word w (s ++ [c]) = option_map (fun r => r ++ [c]) (after_word w s).
Proof.
  revert s. induction w as [|x w IH]; intros s Hw; [reflexivity|].
  assert (Hx : (x =? c) = false).
  { destruct (N.eqb_spec x c); [|reflexivity]. exfalso. apply Hw. left. assumption. }
  destruct s as [|y s]; cbn [app after_word].
  - rewrite Hx. reflexivity.
  - destruct (x =? y); [|reflexivity]. apply IH. intros K. apply Hw. right. exact K.
Qed.

Lemma word_off_token (w : string) :
  forallb (fun x => (33 <=? x) && (x <=? 132)) (utf8 w) = true -> ~ In c (utf8 w).
Proof.
  intros H K. rewrite forallb_forall in H. specialize (H c K).
  apply andb_true_iff in H as [H1 H2]. apply N.leb_le in H1, H2. lia.
Qed.

Lemma scan_constant_snoc (s : str) :
  scan_constant (s ++ [c]) = keep_last c (scan_constant s).
Proof.
  unfold scan_constant.
  rewrite !after_word_snoc by (apply word_off_token; reflexivity).
  destruct (after_word (utf8 "NaN") s); [reflexivity|].
  destruct (after_word (utf8 "Infinity") s); [reflexivity|].
  destruct (after_word (utf8 "-Infinity") s); reflexivity.
Qed.

Lemma scan_leaf_snoc (s : str) : scan_leaf (s ++ [c]) = keep_last_done c (scan_leaf s).
Proof.
  unfold scan_leaf.
  rewrite !after_word_snoc by (apply word_off_token; reflexivity).
  destruct (after_word (utf8 "null") s); [reflexivity|].
  destruct (after_word (utf8 "true") s); [reflexivity|].
  destruct (after_word (utf8 "false") s); [reflexivity|]. cbn [option_map].
  rewrite match_number_snoc.
  destruct (match_number s) as [[v r]|]; [reflexivity|]. cbn [keep_last].
  rewrite scan_constant_snoc.
  destruct (scan_constant s) as [[v r]|]; reflexivity.
Qed.

End OffToken.

Section Trailing.
Variable c : N.
Hypothesis Hc : c <= 32 \/ 133 <= c.

Lemma skip_ws_last : skip_ws [c] = [] \/ skip_ws [c] = [c].
Proof. simpl. destruct (is_ws c); auto. Qed.

Lemma skip_ws_snoc (t : str) :
  (skip_ws t = [] /\ (skip_ws (t ++ [c]) = [] \/ skip_ws (t ++ [c]) = [c]))
  \/ (exists x y, skip_ws t = x :: y /\ skip_ws (t ++ [c]) = x :: y ++ [c]).
Proof.
  induction t as [|a t IH]; cbn [app].
  - left. split; [reflexivity|apply skip_ws_last].
  - cbn [skip_ws]. destruct (is_ws a); [exact IH|].
    right. exists a, t. split; reflexivity.
Qed.

Lemma scan_once_last (f : nat) (v : value) (r : str) :
  scan_once f [] <> Done (v, r) /\ scan_once f [c] <> Done (v, r).
Proof.
  split; [destruct f; discriminate|]. apply scan_once_off_token, Hc.
Qed.

Lemma array_items_last (f : nat) (vs : list value) (r : str) :
  array_items f [] <> Done (vs, r) /\ array_items f [c] <> Done (vs, r).
Proof.
  destruct f as [|f]; [split; discriminate|]. rewrite !array_items_S.
  split.
  - destruct f; discriminate.
  - destruct (scan_once f [c]) as [[v r0]| |] eqn:E; try discriminate.
    exfalso. revert E. apply scan_once_off_token, Hc.
Qed.

Lemma object_members_last (f : nat) (ps : list (str * value)) (r : str) :
  object_members f [] <> Done (ps, r) /\ object_members f [c] <> Done (ps, r).
Proof.
  destruct f as [|f]; [split; discriminate|]. rewrite !object_members_S.
  split; [discriminate|].
  destruct (N.eqb_spec c 34); [lia|discriminate].
Qed.

(** A value decoded from a text that ends with a whitespace character
    is decoded from the text without it, and that character is left. *)
Lemma decoder_snoc (f : nat) :
  (forall s v r, scan_once f (s ++ [c]) = Done (v, r) ->
     exists r', r = r' ++ [c] /\ scan_once f s = Done (v, r'))
  /\ (forall s vs r, array_items f (s ++ [c]) = Done (vs, r) ->
     exists r', r = r' ++ [c] /\ array_items f s = Done (vs, r'))
  /\ (forall s ps r, object_members f (s ++ [c]) = Done (ps, r) ->
     exists r', r = r' ++ [c] /\ object_members f s = Done (ps, r')).
Proof.
  assert (C93 : (c =? 93) = false) by (destruct (N.eqb_spec c 93); [lia|reflexivity]).
  assert (C125 : (c =? 125) = false) by (destruct (N.eqb_spec c 125); [lia|reflexivity]).
  assert (C44 : (c =? 44) = false) by (destruct (N.eqb_spec c 44); [lia|reflexivity]).
  assert (C58 : (c =? 58) = false) by (destruct (N.eqb_spec c 58); [lia|reflexivity]).
  induction f as [|f (IHs & IHa & IHo)]; [repeat split; discriminate|].
  repeat split.
  - intros s v r H.
    destruct s as [|c0 t].
    { exfalso. revert H. apply scan_once_last. }
    cbn [app] in H. rewrite scan_once_S in H |- *.
    destruct (c0 =? 34).
    { rewrite scanstring_snoc in H by exact Hc.
      destruct (scanstring t) as [[x r0]|]; [|discriminate].
      injection H as <- <-. eauto. }
    destruct (c0 =? 123).
    { destruct (skip_ws_snoc t) as [[E [E'|E']]|(x & y & E & E')];
        rewrite E' in H; rewrite E; try discriminate.
      - rewrite C125 in H.
        destruct (object_members f [c]) as [[ps r0]| |] eqn:K; try discriminate.
        exfalso. revert K. apply object_members_last.
      - destruct (x =? 125); [injection H as <- <-; eauto|].
        change (x :: y ++ [c]) with ((x :: y) ++ [c]) in H.
        destruct (object_members f ((x :: y) ++ [c])) as [[ps r0]| |] eqn:K;
          try discriminate.
        apply IHo in K as (r' & -> & K). rewrite K.
        injection H as <- <-. eauto. }
    destruct (c0 =? 91).
    { destruct (skip_ws_snoc t) as [[E [E'|E']]|(x & y & E & E')];
        rewrite E' in H; rewrite E; try discriminate.
      - rewrite C93 in H.
        destruct (array_items f [c]) as [[vs r0]| |] eqn:K; try discriminate.
        exfalso. revert K. apply array_items_last.
      - destruct (x =? 93); [injection H as <- <-; eauto|].
        change (x :: y ++ [c]) with ((x :: y) ++ [c]) in H.
        destruct (array_items f ((x :: y) ++ [c])) as [[vs r0]| |] eqn:K;
          try discriminate.
        apply IHa in K as (r' & -> & K). rewrite K.
        injection H as <- <-. eauto. }
    change (c0 :: t ++ [c]) with ((c0 :: t) ++ [c]) in H.
    rewrite scan_leaf_snoc in H by exact Hc.
    destruct (scan_leaf (c0 :: t)) as [[v0 r0]| |]; try discriminate.
    injection H as <- <-. eauto.
  - intros s vs r H. rewrite array_items_S in H |- *.
    destruct (scan_once f (s ++ [c])) as [[v r0]| |] eqn:K; try discriminate.
    apply IHs in K as (r1 & -> & K). rewrite K.
    destruct (skip_ws_snoc r1) as [[E [E'|E']]|(x & y & E & E')];
      rewrite E' in H; rewrite E; try discriminate.
    { rewrite C93, C44 in H. discriminate. }
    destruct (x =? 93); [injection H as <- <-; eauto|].
    destruct (x =? 44); [|discriminate].
    destruct (skip_ws_snoc y) as [[F [F'|F']]|(x' & y' & F & F')];
      rewrite F' in H; rewrite F.
    + destruct (array_items f []) as [[vs0 r0]| |] eqn:K2; try discriminate.
      exfalso. revert K2. apply array_items_last.
    + destruct (array_items f [c]) as [[vs0 r0]| |] eqn:K2; try discriminate.
      exfalso. revert K2. apply array_items_last.
    + change (x' :: y' ++ [c]) with ((x' :: y') ++ [c]) in H.
      destruct (array_items f ((x' :: y') ++ [c])) as [[vs0 r0]| |] eqn:K2;
        try discriminate.
      apply IHa in K2 as (r' & -> & K2). rewrite K2.
      injection H as <- <-. eauto.
  - intros s ps r H.
    destruct s as [|q t].
    { exfalso. revert H. apply object_members_last. }
    cbn [app] in H. rewrite object_members_S in H |- *.
    destruct (q =? 34); [|discriminate].
    rewrite scanstring_snoc in H by exact Hc.
    destruct (scanstring t) as [[key r0]|]; [|discriminate]. cbn [keep_last] in H.
    destruct (skip_ws_snoc r0) as [[E [E'|E']]|(x & y & E & E')];
      rewrite E' in H; rewrite E; try discriminate.
    { rewrite C58 in H. discriminate. }
    destruct (x =? 58); [|discriminate].
    destruct (skip_ws_snoc y) as [[F [F'|F']]|(x' & y' & F & F')];
      rewrite F' in H; rewrite F.
    + destruct (scan_once f []) as [[v0 r1]| |] eqn:K; try discriminate.
      exfalso. revert K. apply scan_once_last.
    + destruct (scan_once f [c]) as [[v0 r1]| |] eqn:K; try discriminate.
      exfalso. revert K. apply scan_once_last.
    + change (x' :: y' ++ [c]) with ((x' :: y') ++ [c]) in H.
      destruct (scan_once f ((x' :: y') ++ [c])) as [[v0 r1]| |] eqn:K;
        try discriminate.
      apply IHs in K as (r2 & -> & K). rewrite K.
      destruct (skip_ws_snoc r2) as [[G [G'|G']]|(x2 & y2 & G & G')];
        rewrite G' in H; rewrite G; try discriminate.
      { rewrite C125, C44 in H. discriminate. }
      destruct (x2 =? 125); [injection H as <- <-; eauto|].
      destruct (x2 =? 44); [|discriminate].
      destruct (skip_ws_snoc y2) as [[J [J'|J']]|(x3 & y3 & J & J')];
        rewrite J' in H; rewrite J.
      * destruct (object_members f []) as [[ps0 r3]| |] eqn:K2; try discriminate.
        exfalso. revert K2. apply object_members_last.
      * destruct (object_members f [c]) as [[ps0 r3]| |] eqn:K2; try discriminate.
        exfalso. revert K2. apply object_members_last.
      * change (x3 :: y3 ++ [c]) with ((x3 :: y3) ++ [c]) in H.
        destruct (object_members f ((x3 :: y3) ++ [c])) as [[ps0 r3]| |] eqn:K2;
          try discriminate.
        apply IHo in K2 as (r' & -> & K2). rewrite K2.
        injection H as <- <-. eauto.
Qed.

End Trailing.

Lemma decode_not_done_last (f : nat) (c : N) (v : value) :
  c <= 32 \/ 133 <= c -> decode f [c] <> Done v.
Proof.
  intros Hc. unfold decode.
  destruct (skip_ws_last c) as [E|E]; rewrite E;
    destruct (scan_once f _) as [[v0 r]| |] eqn:K; try discriminate;
    exfalso; revert K; apply (scan_once_last c Hc).
Qed.

Lemma decode_snoc (f : nat) (c : N) (s : str) (v : value) :
  c <= 32 \/ 133 <= c -> decode f (s ++ [c]) = Done v -> decode f s = Done v.
Proof.
  intros Hc. unfold decode. intros H.
  destruct (skip_ws_snoc c s) as [[E [E'|E']]|(x & y & E & E')]; rewrite E' in H.
  - destruct (scan_once f []) as [[v0 r]| |] eqn:K; try discriminate.
    exfalso. revert K. apply (scan_once_last c Hc).
  - destruct (scan_once f [c]) as [[v0 r]| |] eqn:K; try discriminate.
    exfalso. revert K. apply (scan_once_last c Hc).
  - rewrite E. change (x :: y ++ [c]) with ((x :: y) ++ [c]) in H.
    destruct (scan_once f ((x :: y) ++ [c])) as [[v0 r]| |] eqn:K; try discriminate.
    apply (proj1 (decoder_snoc c Hc f)) in K as (r' & -> & K). rewrite K.
    destruct (skip_ws_snoc c r') as [[G _]|(x2 & y2 & _ & G')].
    + rewrite G. destruct (skip_ws (r' ++ [c])); [exact H|discriminate].
    + rewrite G' in H. discriminate.
Qed.

Lemma bom_not_space (c : N) : isspace c = true -> (c =? 65279) = false.
Proof.
  intros H. destruct (N.eqb_spec c 65279); [subst; discriminate|reflexivity].
Qed.

(** A whitespace character in front of a text that decodes can go. *)
Lemma loads_drop_leading (c : N) (s : str) (v : value) :
  isspace c = true -> loads (c :: s) = Done v -> loads s = Done v.
Proof.
  intros Hs H. pose proof (isspace_range c Hs) as Hc.
  unfold loads in H. rewrite (bom_not_space c Hs) in H.
  unfold decode in H. cbn [skip_ws] in H.
  destruct (is_ws c).
  2: { destruct (scan_once _ (c :: s)) as [[v0 r]| |] eqn:K; try discriminate.
       exfalso. revert K. apply scan_once_off_token, Hc. }
  assert (D : decode (S (2 * List.length s)) s = Done v).
  { rewrite (decode_fuel s _ (S (2 * List.length (c :: s)))) by (cbn [List.length]; lia).
    exact H. }
  unfold loads. destruct s as [|a t]; [exact D|].
  destruct (N.eqb_spec a 65279) as [->|_]; [|exact D].
  exfalso. unfold decode in D. cbn [skip_ws] in D.
  change (is_ws 65279) with false in D. cbv iota in D.
  destruct (scan_once (S (2 * List.length (65279 :: t))) (65279 :: t))
    as [[v0 r]| |] eqn:K; discriminate.
Qed.

(** A whitespace character behind a text that decodes can go. *)
Lemma loads_drop_trailing (c : N) (s : str) (v : value) :
  isspace c = true -> loads (s ++ [c]) = Done v -> loads s = Done v.
Proof.
  intros Hs H. pose proof (isspace_range c Hs) as Hc.
  assert (D : decode (S (2 * List.length s)) s = Done v).
  { rewrite (decode_fuel s _ (S (2 * List.length (s ++ [c]))))
      by (rewrite ?length_app; cbn [List.length]; lia).
    apply (decode_snoc _ c s v Hc).
    unfold loads in H. destruct s as [|a t]; cbn [app] in *.
    - rewrite (bom_not_space c Hs) in H. exact H.
    - destruct (a =? 65279); [discriminate|exact H]. }
  unfold loads. destruct s as [|a t]; [exact D|].
  unfold loads in H. cbn [app] in H.
  destruct (a =? 65279); [discriminate|exact D].
Qed.

Lemma loads_lstrip (s : str) (v : value) : loads s = Done v -> loads (lstrip s) = Done v.
Proof.
  induction s as [|c s IH]; [auto|]. intros H. cbn [lstrip].
  destruct (isspace c) eqn:Hc; [|exact H].
  apply IH. eapply loads_drop_leading; eassumption.
Qed.

Lemma rstrip_split (s : str) :
  exists w, forallb isspace w = true /\ s = rstrip s ++ w.
Proof.
  induction s as [|c s (w & Hw & E)]; [exists []; split; reflexivity|].
  cbn [rstrip]. destruct (rstrip s) as [|x t] eqn:R.
  - destruct (isspace c) eqn:Hc.
    + exists (c :: w). cbn [forallb app]. rewrite Hc, Hw. split; [reflexivity|].
      cbn [app] in E. congruence.
    + exists w. split; [exact Hw|]. cbn [app] in *. congruence.
  - exists w. split; [exact Hw|]. cbn [app] in *. congruence.
Qed.

Lemma loads_drop_trailing_all (w s : str) (v : value) :
  forallb isspace w = true -> loads (s ++ w) = Done v -> loads s = Done v.
Proof.
  revert s. induction w as [|c w IH]; intros s Hw H.
  - rewrite app_nil_r in H. exact H.
  - cbn [forallb] in Hw. apply andb_true_iff in Hw as [Hc Hw].
    apply (loads_drop_trailing c s v Hc). apply (IH _ Hw).
    rewrite <- app_assoc. exact H.
Qed.

Lemma loads_rstrip (s : str) (v : value) : loads s = Done v -> loads (rstrip s) = Done v.
Proof.
  intros H. destruct (rstrip_split s) as (w & Hw & E).
  apply (loads_drop_trailing_all w _ v Hw). rewrite <- E. exact H.
Qed.

(** A text that decodes still decodes, to the same value, once the
    whitespace around it is stripped. *)
Lemma loads_strip (s : str) (v : value) : loads s = Done v -> loads (strip s) = Done v.
Proof. intros H. unfold strip. apply loads_rstrip, loads_lstrip, H. Qed.

Lemma rstrip_idempotent (s : str) : rstrip (rstrip s) = rstrip s.
Proof.
  induction s as [|c s IH]; [reflexivity|]. cbn [rstrip].
  destruct (rstrip s) as [|x t] eqn:R.
  - destruct (isspace c) eqn:Hc; [reflexivity|]. cbn. rewrite Hc. reflexivity.
  - assert (E : rstrip (c :: x :: t)
                = match rstrip (x :: t) with
                  | [] => if isspace c then [] else [c]
                  | t' => c :: t'
                  end) by reflexivity.
    rewrite E, IH. reflexivity.
Qed.

Lemma lstrip_head (s : str) :
  lstrip s = [] \/ exists c t, lstrip s = c :: t /\ isspace c = false.
Proof.
  induction s as [|c s IH]; [left; reflexivity|]. cbn [lstrip].
  destruct (isspace c) eqn:Hc; [exact IH|]. right. eauto.
Qed.

Lemma rstrip_keeps_head (c : N) (t : str) :
  isspace c = false -> exists t', rstrip (c :: t) = c :: t'.
Proof.
  intros Hc. cbn [rstrip]. destruct (rstrip t); [rewrite Hc|]; eauto.
Qed.

Lemma strip_idempotent (s : str) : strip (strip s) = strip s.
Proof.
  unfold strip.
  destruct (lstrip_head s) as [E|(c & t & E & Hc)]; rewrite E; [reflexivity|].
  destruct (rstrip_keeps_head c t Hc) as [t' R]. rewrite R.
  rewrite lstrip_keep by exact Hc. rewrite <- R. apply rstrip_idempotent.
Qed.

Lemma strip_split (s : str) :
  exists w1 w2, forallb isspace w1 = true /\ forallb isspace w2 = true
                /\ s = w1 ++ strip s ++ w2.
Proof.
  destruct (lstrip_split s) as (w1 & H1 & E1).
  destruct (rstrip_split (lstrip s)) as (w2 & H2 & E2).
  exists w1, w2. repeat split; try assumption.
  unfold strip. rewrite <- E2. exact E1.
Qed.

(** ** The repair, in general *)

Lemma first_list_is_list (vs : list value) : exists l, first_list vs = JList l.
Proof.
  unfold first_list. destruct (find is_list vs) as [v|] eqn:E; [|eauto].
  apply find_some in E as [_ E]. destruct v; try discriminate. eauto.
Qed.

Lemma find_filter {A} (f : A -> bool) (l : list A) :
  find f l = hd_error (filter f l).
Proof.
  induction l as [|x l IH]; [reflexivity|]. simpl.
  destruct (f x); [reflexivity|exact IH].
Qed.

Lemma repair_without_rows (d : PyDict.dict value) :
  PyDict.has_key d (utf8 "rows") = false ->
  repair (JDict d)
  = inr (JDict [ (utf8 "rows", first_list (PyDict.values d));
                 (utf8 "eligibility",
                  PyDict.get d (utf8 "eligibility") FALLBACK_ELIGIBILITY) ]).
Proof.
  intros H. unfold repair. cbn [py_in bind ret]. rewrite H. reflexivity.
Qed.

Lemma normalise_without_rows
    (raw : str) (d e : PyDict.dict value) :
  loads raw = Done (JDict d) ->
  PyDict.has_key d (utf8 "rows") = false ->
  PyDict.get d (utf8 "eligibility") FALLBACK_ELIGIBILITY = JDict e ->
  normalise raw
  = inr (JDict [ (utf8 "rows", first_list (PyDict.values d));
                 (utf8 "eligibility", JDict e) ]).
Proof.
  intros Hparse Hrows He.
  unfold normalise, parse_response. rewrite Hparse. cbn [bind ret].
  rewrite (repair_without_rows d Hrows), He.
  destruct (first_list_is_list (PyDict.values d)) as [l ->].
  reflexivity.
Qed.


Lemma loads_head_not_j (c : N) (s : str) (v : value) :
  loads (c :: s) = Done v -> is_j c = false.
Proof.
  intros H. unfold is_j.
  destruct (c =? 106) eqn:E1.
  { apply N.eqb_eq in E1. subst c. discriminate. }
  destruct (c =? 74) eqn:E2.
  { apply N.eqb_eq in E2. subst c. discriminate. }
  reflexivity.
Qed.

Lemma run_unconfigured (svc : service) (calls : list call) (p : process) :
  forallb (fun c => negb (is_configure c)) calls = true ->
  client p = None ->
  client (fold_left (step svc) calls p) = None
  /\ sent (fold_left (step svc) calls p) = sent p.
Proof.
  revert p. induction calls as [|c calls IH]; intros p Hc Hp; [auto|].
  simpl in Hc. apply andb_true_iff in Hc as [Hc Hcs].
  destruct c as [key|b pol up m t]; [discriminate|].
  cbn [fold_left step]. rewrite Hp. cbn [audit_claim].
  destruct (IH {| client := None; outcomes := outcomes p ++ [raise UNCONFIGURED];
                  sent := sent p ++ [] |} Hcs eq_refl) as [H1 H2].
  split; [exact H1|]. rewrite H2. cbn [sent]. apply app_nil_r.
Qed.

(** ** The claims *)

(** C1.  The claim asks that every parseable reply comes back with [rows]
    and exactly one [eligibility] object, also when the reply has [rows]
    and no [eligibility].  On such a reply [audit_claim] skips the repair
    and returns the object as parsed: the result has no [eligibility]. *)
Theorem rows_without_eligibility_returned :
  normalise (clean_response reply_rows_only) = inr (JDict [(utf8 "rows", JList [])])
  /\ py_in (utf8 "eligibility") (JDict [(utf8 "rows", JList [])]) = inr false.
Proof. split; vm_compute; reflexivity. Qed.

(** C2.  The claim asks that the compact prompt text holds every entry
    of [sub_limits] with its value.  The text that
    [get_policy_as_prompt_text] returns names neither the organ donor nor
    the domiciliary limit, and the organ donor limit of 100000 is not in
    it in any spelling. *)
Theorem prompt_text_omits_organ_donor :
  exists t,
    get_policy_as_prompt_text = inr t
    /\ PyDict.lookup (sub_limits GENERALISED_POLICY) (utf8 "organ_donor_inr")
       = Some 100000%Z
    /\ contains t (format_comma 100000) = false
    /\ contains t (str_of_int 100000) = false
    /\ contains t (utf8 "rgan") = false
    /\ contains t (utf8 "omiciliary") = false.
Proof. eexists. repeat split; vm_compute; reflexivity. Qed.

(** C3.  The claim asks that a reply either yields a result or fails
    with the JSON decoding error only.  A reply that is a top-level
    array of rows parses and then raises [AttributeError]; a reply whose
    [rows] is a number parses and then raises [TypeError] in the
    arguments of the closing log call. *)
Theorem parseable_replies_raise :
  normalise (clean_response reply_top_level_rows) = inl AttributeError
  /\ normalise (clean_response reply_rows_number) = inl TypeError.
Proof. split; vm_compute; reflexivity. Qed.

(** C4.  A reply that parses as an object with a [rows] list and an
    [eligibility] object is returned as parsed, rows and eligibility
    unchanged. *)
Theorem well_formed_response_unchanged
    (content : str) (d : PyDict.dict value) (rows : list value)
    (eligibility : PyDict.dict value) :
  loads (clean_response content) = Done (JDict d) ->
  PyDict.lookup d (utf8 "rows") = Some (JList rows) ->
  PyDict.lookup d (utf8 "eligibility") = Some (JDict eligibility) ->
  normalise (clean_response content) = inr (JDict d).
Proof.
  intros Hparse Hrows Helig.
  unfold normalise, parse_response. rewrite Hparse. cbn [bind ret].
  unfold repair. cbn [py_in bind ret].
  assert (K : PyDict.has_key d (utf8 "rows") = true)
    by (apply has_key_lookup; eauto).
  rewrite K. cbn [negb bind ret].
  unfold log_summary. cbn [py_get bind ret]. unfold PyDict.get.
  rewrite Hrows, Helig. reflexivity.
Qed.

Lemma well_formed_response_unchanged_witness :
  normalise (clean_response reply_well_formed)
  = inr (JDict
      [ (utf8 "rows", JList [JDict [(utf8 "parameter", JStr (utf8 "ICU Room Rent"))]]);
        (utf8 "eligibility", JDict [(utf8 "verdict", JStr (utf8 "Eligible"))]) ]).
Proof.
  apply (well_formed_response_unchanged reply_well_formed _
           [JDict [(utf8 "parameter", JStr (utf8 "ICU Room Rent"))]]
           [(utf8 "verdict", JStr (utf8 "Eligible"))]);
    vm_compute; reflexivity.
Defined.

(** C5.  The claim asks that an object without [rows] and with one list
    field comes back with that list as [rows].  When the object also has
    an [eligibility] that is not an object, here a string, the reply
    parses, the repair keeps the string, and the closing log call raises
    [AttributeError]: nothing is returned. *)
Theorem one_list_field_raises :
  loads (clean_response reply_items_and_verdict)
  = Done (JDict
      [ (utf8 "items", JList [JDict [(utf8 "parameter", JStr (utf8 "ICU Room Rent"))]]);
        (utf8 "eligibility", JStr (utf8 "Eligible")) ])
  /\ normalise (clean_response reply_items_and_verdict) = inl AttributeError.
Proof. split; vm_compute; reflexivity. Qed.

(** C6.  A reply wrapped in fences, with any whitespace around them, no
    tag or the tag json in any letter case, and any whitespace between
    the fences and the text they hold: whenever that text is well-formed
    JSON, the fences are stripped, what is parsed is the text without the
    whitespace around it, and the parse succeeds with the value of the
    text. *)
Theorem fenced_response_parses
    (lead tag sep1 body sep2 trail : str) (v : value) :
  fence_tag tag ->
  forallb isspace lead = true -> forallb isspace sep1 = true ->
  forallb isspace sep2 = true -> forallb isspace trail = true ->
  loads body = Done v ->
  clean_response (fenced lead tag sep1 body sep2 trail) = strip body
  /\ parse_response (clean_response (fenced lead tag sep1 body sep2 trail)) = inr v.
Proof.
  intros Htag Hlead H1 H2 Htrail Hv.
  apply loads_strip in Hv.
  destruct (strip_split body) as (w1 & w2 & Hw1 & Hw2 & E).
  assert (F : fenced lead tag sep1 body sep2 trail
              = fenced lead tag (sep1 ++ w1) (strip body) (w2 ++ sep2) trail).
  { unfold fenced. rewrite E at 1. rewrite <- !app_assoc. reflexivity. }
  pose proof (strip_idempotent body) as I.
  destruct (strip body) as [|c core] eqn:S; [discriminate|].
  assert (C : clean_response (fenced lead tag sep1 body sep2 trail) = c :: core).
  { rewrite F. apply clean_response_fenced; try assumption.
    - rewrite forallb_app, H1, Hw1. reflexivity.
    - rewrite forallb_app, H2, Hw2. reflexivity.
    - eapply loads_head_not_j, Hv. }
  split; [exact C|].
  rewrite C. unfold parse_response. rewrite Hv. reflexivity.
Qed.

Lemma fenced_response_parses_witness :
  clean_response
    (fenced [32] (utf8 "JSON") [nl] (nl :: reply_rows_only ++ [32]) [nl] [nl])
  = strip (nl :: reply_rows_only ++ [32])
  /\ parse_response
       (clean_response
          (fenced [32] (utf8 "JSON") [nl] (nl :: reply_rows_only ++ [32]) [nl] [nl]))
     = inr (JDict [(utf8 "rows", JList [])]).
Proof.
  apply (fenced_response_parses
           [32] (utf8 "JSON") [nl] (nl :: reply_rows_only ++ [32]) [nl] [nl]);
    try (vm_compute; reflexivity).
  apply (json_tag 74 83 79 78); reflexivity.
Defined.

(** C7.  Whatever calls were made before, as long as none of them was
    [configure_groq], a call of [audit_claim] raises the error of an
    unconfigured client and no request has been sent to the service, by
    that call or by any call before it. *)
Theorem audit_before_configure
    (svc : service) (before : list call)
    (bill_text policy_baseline_text uploaded_policy_text model_name : str)
    (temperature : Q) :
  forallb (fun c => negb (is_configure c)) before = true ->
  audit_claim (client (run svc before)) svc
    bill_text policy_baseline_text uploaded_policy_text model_name temperature
  = (inl UNCONFIGURED, [])
  /\ sent (run svc before) = [].
Proof.
  intros H. destruct (run_unconfigured svc before START H eq_refl) as [Hc Hs].
  unfold run. rewrite Hc, Hs. split; reflexivity.
Qed.

Lemma audit_before_configure_witness :
  audit_claim
    (client (run (fun _ _ => Content reply_well_formed)
                 [Audit (utf8 "bill") (utf8 "policy") [] DEFAULT_MODEL DEFAULT_TEMPERATURE]))
    (fun _ _ => Content reply_well_formed)
    (utf8 "bill") (utf8 "policy") [] DEFAULT_MODEL DEFAULT_TEMPERATURE
  = (inl UNCONFIGURED, [])
  /\ sent (run (fun _ _ => Content reply_well_formed)
               [Audit (utf8 "bill") (utf8 "policy") [] DEFAULT_MODEL DEFAULT_TEMPERATURE])
     = [].
Proof.
  apply (audit_before_configure (fun _ _ => Content reply_well_formed)
           [Audit (utf8 "bill") (utf8 "policy") [] DEFAULT_MODEL DEFAULT_TEMPERATURE]).
  reflexivity.
Defined.

Lemma uploaded_or_fallback_blank (u : str) :
  forallb isspace u = true -> uploaded_or_fallback u = NO_UPLOADED_POLICY.
Proof.
  intros H. apply strip_nil_iff in H. unfold uploaded_or_fallback.
  rewrite H. reflexivity.
Qed.

Lemma uploaded_or_fallback_text (u : str) :
  forallb isspace u = false -> uploaded_or_fallback u = u.
Proof.
  intros H. unfold uploaded_or_fallback.
  destruct (strip u) eqn:E; [|reflexivity].
  apply strip_nil_iff in E. congruence.
Qed.

Lemma segment_fallback : segment NO_UPLOADED_POLICY = utf8 "    " ++ NO_UPLOADED_POLICY.
Proof. vm_compute. reflexivity. Qed.

(** C8, as the code has it.  For a blank uploaded text the message holds
    the fallback phrase between the uploaded-policy delimiters.  For any
    other text it holds, between them, the text behind the template's
    indentation with every line of blanks emptied by [textwrap.dedent],
    which is the text itself when it has no such line. *)
Theorem uploaded_policy_segment (bill baseline uploaded : str) :
  (forallb isspace uploaded = true ->
   occurs
     (join_lines
        [ utf8 "<uploaded_policy>";
          utf8 "    " ++ NO_UPLOADED_POLICY;
          utf8 "    </uploaded_policy>" ])
     (_build_user_message bill baseline uploaded))
  /\ (forallb isspace uploaded = false ->
      occurs
        (join_lines
           [ utf8 "<uploaded_policy>";
             segment uploaded;
             utf8 "    </uploaded_policy>" ])
        (_build_user_message bill baseline uploaded)
      /\ (plain uploaded = true -> segment uploaded = utf8 "    " ++ uploaded)).
Proof.
  rewrite build_user_message_shape. split.
  - intros H. rewrite (uploaded_or_fallback_blank _ H), segment_fallback.
    apply occurs_uploaded_segment.
  - intros H. rewrite (uploaded_or_fallback_text _ H). split.
    + apply occurs_uploaded_segment.
    + apply segment_plain.
Qed.

(** C8 as stated fails: an uploaded text that is not blank and has a
    line made of one space is not found in the message. *)
Lemma uploaded_text_not_embedded :
  forallb isspace text_with_blank_line = false
  /\ ~ occurs text_with_blank_line
         (_build_user_message (utf8 "bill") (utf8 "baseline") text_with_blank_line).
Proof.
  split; [reflexivity|]. apply not_contains_not_occurs. vm_compute. reflexivity.
Qed.

(** C9, as the code has it.  For all three texts the message is the
    few-shot block, which opens and closes with its [examples] tags, then
    the baseline, uploaded-policy and bill segments in that order, each
    between its delimiter lines; a segment is the text behind the
    template's indentation with every line of blanks emptied, the text
    itself when it has no such line.  [_build_user_message] is total. *)
Theorem message_segments_in_order (bill baseline uploaded : str) :
  _build_user_message bill baseline uploaded
  = message_of_segments
      (segment baseline) (segment (uploaded_or_fallback uploaded)) (segment bill)
  /\ (exists body, EXAMPLES_BLOCK = utf8 "<examples>" ++ body ++ utf8 "</examples>")
  /\ (forall t, plain t = true -> segment t = utf8 "    " ++ t).
Proof.
  split; [apply build_user_message_shape|].
  split; [apply examples_block_tags|apply segment_plain].
Qed.

(** C9 as stated fails: a bill text with a line made of one space is not
    found in the message. *)
Lemma bill_text_not_embedded :
  ~ occurs text_with_blank_line
      (_build_user_message text_with_blank_line (utf8 "baseline") (utf8 "policy")).
Proof. apply not_contains_not_occurs. vm_compute. reflexivity. Qed.

(** C10.  The claim asks that an object without [rows] and without any
    list field comes back with empty rows and its [eligibility] field.
    When that field is not an object, here a string, the reply parses
    and the closing log call raises [AttributeError]: nothing is
    returned. *)
Theorem no_list_field_raises :
  loads (clean_response reply_verdict_only)
  = Done (JDict [(utf8 "eligibility", JStr (utf8 "Eligible"))])
  /\ normalise (clean_response reply_verdict_only) = inl AttributeError.
Proof. split; vm_compute; reflexivity. Qed.

(** ** Further properties of the repair and of the prompt text *)

(** A reply that parses as an object without [rows], whose [eligibility]
    is missing or is an object, comes back as an object with exactly the
    two keys [rows], a list, and [eligibility], an object. *)
Theorem repaired_reply_shape (content : str) (d : PyDict.dict value) :
  loads (clean_response content) = Done (JDict d) ->
  PyDict.has_key d (utf8 "rows") = false ->
  (PyDict.lookup d (utf8 "eligibility") = None
   \/ exists e, PyDict.lookup d (utf8 "eligibility") = Some (JDict e)) ->
  exists rows e,
    normalise (clean_response content)
    = inr (JDict [(utf8 "rows", JList rows); (utf8 "eligibility", JDict e)]).
Proof.
  intros Hparse Hrows He.
  destruct (first_list_is_list (PyDict.values d)) as [rows R].
  assert (G : exists e, PyDict.get d (utf8 "eligibility") FALLBACK_ELIGIBILITY = JDict e).
  { unfold PyDict.get. destruct He as [->|[e ->]]; [|eauto].
    unfold FALLBACK_ELIGIBILITY. eauto. }
  destruct G as [e G]. exists rows, e.
  rewrite (normalise_without_rows _ d e Hparse Hrows G), R. reflexivity.
Qed.

Lemma repaired_reply_shape_witness :
  exists rows e,
    normalise (clean_response reply_items_only)
    = inr (JDict [(utf8 "rows", JList rows); (utf8 "eligibility", JDict e)]).
Proof.
  apply (repaired_reply_shape reply_items_only
           [(utf8 "items", JList [JDict [(utf8 "parameter", JStr (utf8 "ICU Room Rent"))]])]).
  - vm_compute. reflexivity.
  - vm_compute. reflexivity.
  - left. vm_compute. reflexivity.
Defined.

(** A reply that parses as an object without [rows] and without
    [eligibility], with exactly one list among its values, comes back
    with that list as [rows] and the fallback eligibility: verdict
    Unknown, a generic summary, one next step asking for manual review. *)
Theorem one_list_field_becomes_rows
    (content : str) (d : PyDict.dict value) (rows : list value) :
  loads (clean_response content) = Done (JDict d) ->
  PyDict.has_key d (utf8 "rows") = false ->
  filter is_list (PyDict.values d) = [JList rows] ->
  PyDict.lookup d (utf8 "eligibility") = None ->
  normalise (clean_response content)
  = inr (JDict [ (utf8 "rows", JList rows);
                 (utf8 "eligibility",
                  JDict [ (utf8 "verdict", JStr (utf8 "Unknown"));
                          (utf8 "summary", JStr (utf8 "Could not determine eligibility."));
                          (utf8 "next_steps",
                           JList [JStr (utf8 "Please review manually.")]) ]) ]).
Proof.
  intros Hparse Hrows Hone He.
  rewrite (normalise_without_rows _ d _ Hparse Hrows
             (f_equal (fun o => match o with Some v => v | None => FALLBACK_ELIGIBILITY end) He)).
  unfold first_list. rewrite find_filter, Hone. reflexivity.
Qed.

Lemma one_list_field_becomes_rows_witness :
  normalise (clean_response reply_items_only)
  = inr (JDict [ (utf8 "rows", JList [JDict [(utf8 "parameter", JStr (utf8 "ICU Room Rent"))]]);
                 (utf8 "eligibility",
                  JDict [ (utf8 "verdict", JStr (utf8 "Unknown"));
                          (utf8 "summary", JStr (utf8 "Could not determine eligibility."));
                          (utf8 "next_steps",
                           JList [JStr (utf8 "Please review manually.")]) ]) ]).
Proof.
  apply (one_list_field_becomes_rows reply_items_only
           [(utf8 "items", JList [JDict [(utf8 "parameter", JStr (utf8 "ICU Room Rent"))]])]);
    vm_compute; reflexivity.
Defined.

(** A reply that parses as an object without [rows] and with no list
    among its values comes back with empty rows, and with its
    [eligibility] when that is an object, the fallback when it is
    missing. *)
Theorem no_list_field_gives_empty_rows
    (content : str) (d e : PyDict.dict value) :
  loads (clean_response content) = Done (JDict d) ->
  PyDict.has_key d (utf8 "rows") = false ->
  filter is_list (PyDict.values d) = [] ->
  PyDict.get d (utf8 "eligibility") FALLBACK_ELIGIBILITY = JDict e ->
  normalise (clean_response content)
  = inr (JDict [(utf8 "rows", JList []); (utf8 "eligibility", JDict e)]).
Proof.
  intros Hparse Hrows Hnone He.
  rewrite (normalise_without_rows _ d e Hparse Hrows He).
  unfold first_list. rewrite find_filter, Hnone. reflexivity.
Qed.

Lemma no_list_field_gives_empty_rows_witness :
  normalise (clean_response reply_summary_only)
  = inr (JDict [(utf8 "rows", JList []); (utf8 "eligibility", FALLBACK_ELIGIBILITY)]).
Proof.
  apply (no_list_field_gives_empty_rows reply_summary_only
           [(utf8 "summary", JStr (utf8 "Nothing to audit"))]);
    vm_compute; reflexivity.
Defined.

Lemma find_first {A} (f : A -> bool) (before after : list A) (x : A) :
  forallb (fun y => negb (f y)) before = true -> f x = true ->
  find f (before ++ x :: after) = Some x.
Proof.
  intros Hb Hx. induction before as [|y before IH]; simpl.
  - rewrite Hx. reflexivity.
  - simpl in Hb. apply andb_true_iff in Hb as [Hy Hb].
    apply negb_true_iff in Hy. rewrite Hy. apply IH, Hb.
Qed.

(** When several values of the object are lists, [rows] is the first of
    them in the order of the keys in the reply. *)
Theorem first_list_field_wins
    (content : str) (before after : PyDict.dict value) (k : str)
    (l : list value) (e : PyDict.dict value) :
  loads (clean_response content) = Done (JDict (before ++ (k, JList l) :: after)) ->
  PyDict.has_key (before ++ (k, JList l) :: after) (utf8 "rows") = false ->
  forallb (fun kv => negb (is_list (snd kv))) before = true ->
  PyDict.get (before ++ (k, JList l) :: after) (utf8 "eligibility")
    FALLBACK_ELIGIBILITY = JDict e ->
  normalise (clean_response content)
  = inr (JDict [(utf8 "rows", JList l); (utf8 "eligibility", JDict e)]).
Proof.
  intros Hparse Hrows Hbefore He.
  rewrite (normalise_without_rows _ _ e Hparse Hrows He).
  unfold first_list, PyDict.values. rewrite map_app. cbn [map snd].
  rewrite (find_first is_list (map snd before) (map snd after) (JList l)).
  - reflexivity.
  - rewrite forallb_forall in *. intros y Hy.
    apply in_map_iff in Hy as (kv & <- & Hkv). apply Hbefore, Hkv.
  - reflexivity.
Qed.

Lemma first_list_field_wins_witness :
  normalise (clean_response reply_two_lists)
  = inr (JDict [(utf8 "rows", JList [JInt 1]); (utf8 "eligibility", FALLBACK_ELIGIBILITY)]).
Proof.
  apply (first_list_field_wins reply_two_lists
           [(utf8 "count", JInt 2)] [(utf8 "notes", JList [JInt 2; JInt 3])]
           (utf8 "items") [JInt 1]);
    vm_compute; reflexivity.
Defined.



(** * Further properties *)

(** ** The client, once bound *)




(** ** Replies with and without fences *)

Lemma startswith_more (a b p : str) :
  startswith a p = true -> startswith (a ++ b) p = true.
Proof.
  intros H. destruct (startswith_split _ _ H) as [rest ->].
  rewrite <- app_assoc. apply startswith_app.
Qed.

Lemma endswith_app (pre p : str) : endswith (pre ++ p) p = true.
Proof. unfold endswith. rewrite rev_app_distr. apply startswith_app. Qed.

Lemma endswith_split (s p : str) :
  endswith s p = true -> exists pre, s = pre ++ p.
Proof.
  unfold endswith. intros H. destruct (startswith_split _ _ H) as [rest E].
  exists (rev rest). rewrite <- (rev_involutive s), E, rev_app_distr, rev_involutive.
  reflexivity.
Qed.

Lemma rstrip_length (s : str) : (List.length (rstrip s) <= List.length s)%nat.
Proof.
  induction s as [|a s IH]; simpl; [lia|].
  destruct (rstrip s); [destruct (isspace a)|]; simpl in *; lia.
Qed.

Lemma rstrip_suffix (a b : str) : rstrip (a ++ b) = a ++ b -> rstrip b = b.
Proof.
  induction a as [|c a IH]; [auto|].
  intros H. apply IH. eapply rstrip_tail. exact H.
Qed.

(** A text that [rstrip] leaves alone does not end with a newline. *)
Lemma rstrip_fixed_no_newline (s : str) : rstrip (s ++ [nl]) <> s ++ [nl].
Proof.
  intros H. pose proof (rstrip_length s) as L.
  rewrite (rstrip_app_spaces s [nl] eq_refl) in H.
  rewrite H, length_app in L. simpl in L. lia.
Qed.

(** On a text without whitespace at its end, a match of the closing
    pattern is the fence at the very end. *)
Lemma closing_fence_here_stripped (s r : str) :
  rstrip s = s -> closing_fence_here s = Some r ->
  r = [] /\ exists w, forallb isspace w = true /\ s = w ++ FENCE.
Proof.
  intros Hs H. apply closing_fence_here_spec in H as (w & Hw & E & [->| ->]).
  - split; [reflexivity|]. exists w. rewrite app_nil_r in E. auto.
  - exfalso. apply (rstrip_fixed_no_newline (w ++ FENCE)).
    rewrite <- app_assoc. rewrite <- E. exact Hs.
Qed.

Lemma sub_closing_fence_prefix (s : str) :
  rstrip s = s -> exists post, s = sub_closing_fence s ++ post.
Proof.
  induction s as [|c s IH]; intros Hs.
  - exists []. reflexivity.
  - cbn [sub_closing_fence].
    destruct (closing_fence_here (c :: s)) as [r|] eqn:E.
    + apply closing_fence_here_stripped in E as [-> _]; [|exact Hs].
      exists (c :: s). reflexivity.
    + destruct (IH (rstrip_tail _ _ Hs)) as [post E']. exists post.
      cbn [app]. congruence.
Qed.

Lemma sub_closing_fence_unfenced (s : str) :
  rstrip s = s -> endswith s FENCE = false -> sub_closing_fence s = s.
Proof.
  induction s as [|c s IH]; intros Hs He; [reflexivity|].
  cbn [sub_closing_fence].
  destruct (closing_fence_here (c :: s)) as [r|] eqn:E.
  - apply closing_fence_here_stripped in E as [_ (w & _ & E)]; [|exact Hs].
    rewrite E, endswith_app in He. discriminate.
  - f_equal. apply IH; [eapply rstrip_tail, Hs|].
    destruct (endswith s FENCE) eqn:E'; [|reflexivity].
    apply endswith_split in E' as [pre ->].
    change (c :: pre ++ FENCE) with ((c :: pre) ++ FENCE) in He.
    rewrite endswith_app in He. discriminate.
Qed.

Lemma sub_opening_fence_unfenced (s : str) :
  startswith s FENCE = false -> sub_opening_fence s = s.
Proof.
  unfold sub_opening_fence, FENCE.
  destruct s as [|b1 [|b2 [|b3 t]]]; try reflexivity.
  cbn [startswith].
  rewrite (N.eqb_sym backtick b1), (N.eqb_sym backtick b2), (N.eqb_sym backtick b3).
  destruct (b1 =? backtick), (b2 =? backtick), (b3 =? backtick);
    cbn [andb]; try reflexivity.
  destruct t; discriminate.
Qed.

Lemma sub_opening_fence_suffix (s : str) :
  exists pre, s = pre ++ sub_opening_fence s.
Proof.
  unfold sub_opening_fence.
  destruct s as [|b1 [|b2 [|b3 t]]]; try (exists []; reflexivity).
  destruct ((b1 =? backtick) && (b2 =? backtick) && (b3 =? backtick));
    [|exists []; reflexivity].
  assert (T : exists tag, t = tag ++ skip_json_tag t).
  { unfold skip_json_tag. destruct t as [|j [|s' [|o [|n t']]]]; try (exists []; reflexivity).
    destruct (is_j j && is_s s' && is_o o && is_n n); [|exists []; reflexivity].
    exists [j; s'; o; n]. reflexivity. }
  destruct T as [tag T]. destruct (lstrip_split (skip_json_tag t)) as (w & _ & W).
  exists ([b1; b2; b3] ++ tag ++ w). rewrite <- !app_assoc. cbn [app].
  do 3 f_equal. rewrite <- W. exact T.
Qed.

Lemma strip_fixed (s : str) : rstrip (strip s) = strip s.
Proof. unfold strip. apply rstrip_idempotent. Qed.

(** A reply that neither starts nor ends with a fence is only stripped,
    whatever fences it holds inside. *)
Theorem unfenced_reply_only_stripped (content : str) :
  startswith (strip content) FENCE = false ->
  endswith (strip content) FENCE = false ->
  clean_response content = strip content.
Proof.
  intros Hs He. unfold clean_response.
  rewrite sub_opening_fence_unfenced by exact Hs.
  apply sub_closing_fence_unfenced; [apply strip_fixed|exact He].
Qed.

Lemma unfenced_reply_only_stripped_witness :
  clean_response (32 :: reply_well_formed ++ [nl]) = strip (32 :: reply_well_formed ++ [nl]).
Proof.
  apply (unfenced_reply_only_stripped (32 :: reply_well_formed ++ [nl]));
    vm_compute; reflexivity.
Defined.

(** The text that is parsed is a part of the reply: cleaning only takes
    characters away from its two ends. *)
Theorem cleaned_text_is_part_of_reply (content : str) :
  exists pre post, content = pre ++ clean_response content ++ post.
Proof.
  unfold clean_response.
  destruct (strip_split content) as (w1 & w2 & _ & _ & E).
  destruct (sub_opening_fence_suffix (strip content)) as [pre E1].
  assert (R : rstrip (sub_opening_fence (strip content)) = sub_opening_fence (strip content)).
  { apply (rstrip_suffix pre). rewrite <- E1. apply strip_fixed. }
  destruct (sub_closing_fence_prefix _ R) as [post E2].
  exists (w1 ++ pre), (post ++ w2).
  rewrite E at 1. rewrite E1 at 1. rewrite E2 at 1.
  rewrite <- !app_assoc. reflexivity.
Qed.

(** ** Replies that cannot be JSON *)








(** A reply of whitespace only, the empty reply among them, is not
    JSON. *)
Theorem blank_reply_rejected
    (c : Groq) (svc : service) (b pol up m : str) (t : Q) (text : str) :
  svc c {| req_model := m; req_temperature := t;
           req_response_format := utf8 "json_object";
           req_system := SYSTEM_PROMPT;
           req_user := _build_user_message b pol up |} = Content text ->
  forallb isspace text = true ->
  fst (audit_claim (Some c) svc b pol up m t) = inl JSONDecodeError.
Proof.
  intros Hsvc Hblank. cbn [audit_claim]. rewrite Hsvc. cbn [fst].
  unfold clean_response. apply strip_nil_iff in Hblank. rewrite Hblank.
  reflexivity.
Qed.

Lemma blank_reply_rejected_witness :
  fst (audit_claim (Some {| api_key := utf8 "k" |}) (fun _ _ => Content [32; nl])
         (utf8 "bill") (utf8 "policy") [] DEFAULT_MODEL DEFAULT_TEMPERATURE)
  = inl JSONDecodeError.
Proof.
  apply (blank_reply_rejected {| api_key := utf8 "k" |} (fun _ _ => Content [32; nl])
           (utf8 "bill") (utf8 "policy") [] DEFAULT_MODEL DEFAULT_TEMPERATURE [32; nl]);
    reflexivity.
Defined.

(** ** Amounts *)

Lemma digits_from_value (f : nat) :
  forall (n : N) (acc : str),
    n < 2 ^ N.of_nat f ->
    fold_left (fun acc c => (acc * 10 + Z.of_N (c - 48))%Z) (digits_from f n acc) 0%Z
    = fold_left (fun acc c => (acc * 10 + Z.of_N (c - 48))%Z) acc (Z.of_N n).
Proof.
  induction f as [|f IH]; intros n acc Hn.
  - cbn [digits_from]. change (2 ^ N.of_nat 0) with 1 in Hn.
    replace n with 0 by lia. reflexivity.
  - cbn [digits_from].
    assert (D : n = 10 * (n / 10) + n mod 10) by (apply N.div_mod; lia).
    assert (M : n mod 10 < 10) by (apply N.mod_lt; lia).
    revert D M. generalize (n mod 10) (n / 10). intros r q D M.
    replace (48 + r - 48) with r by lia.
    destruct (N.eqb_spec q 0) as [E|E].
    + cbn [fold_left]. f_equal. lia.
    + rewrite IH.
      * cbn [fold_left]. f_equal. lia.
      * rewrite Nat2N.inj_succ, N.pow_succ_r' in Hn. lia.
Qed.

Lemma digits_value_digits (n : N) : digits_value (digits n) = Z.of_N n.
Proof.
  unfold digits_value, digits. rewrite digits_from_value; [reflexivity|].
  rewrite Nat2N.inj_succ, N2Nat.id.
  destruct n as [|p]; [reflexivity|].
  apply N.log2_spec. lia.
Qed.

Lemma digits_from_are_digits (f : nat) :
  forall (n : N) (acc : str),
    forallb is_digit acc = true -> forallb is_digit (digits_from f n acc) = true.
Proof.
  induction f as [|f IH]; intros n acc Hacc; [exact Hacc|].
  cbn [digits_from].
  assert (M : n mod 10 < 10) by (apply N.mod_lt; lia).
  revert M. generalize (n mod 10). intros r M.
  assert (A : forallb is_digit ((48 + r) :: acc) = true).
  { cbn [forallb]. rewrite Hacc, andb_true_r. unfold is_digit.
    apply andb_true_iff. split; apply N.leb_le; lia. }
  destruct (n / 10 =? 0); [exact A|apply IH, A].
Qed.

Lemma digits_are_digits (n : N) : forallb is_digit (digits n) = true.
Proof. apply digits_from_are_digits. reflexivity. Qed.

Lemma digits_nonempty (n : N) : digits n <> [].
Proof.
  unfold digits. cbn [digits_from].
  assert (G : forall f m acc, acc <> [] -> digits_from f m acc <> []).
  { induction f as [|f IH]; intros m acc Hacc; [exact Hacc|].
    cbn [digits_from]. destruct (m / 10 =? 0); [discriminate|].
    apply IH. discriminate. }
  destruct (n / 10 =? 0); [discriminate|]. apply G. discriminate.
Qed.

Lemma filter_keep {A} (f : A -> bool) (x : A) (l : list A) :
  f x = true -> filter f (x :: l) = x :: filter f l.
Proof. intros H. cbn [filter]. rewrite H. reflexivity. Qed.

Lemma filter_drop {A} (f : A -> bool) (x : A) (l : list A) :
  f x = false -> filter f (x :: l) = filter f l.
Proof. intros H. cbn [filter]. rewrite H. reflexivity. Qed.

Lemma group3_without_commas (n : nat) :
  forall ds : str,
    (List.length ds <= n)%nat -> forallb no_comma ds = true ->
    filter no_comma (group3 ds) = ds.
Proof.
  induction n as [|n IH]; intros ds L H.
  - destruct ds; [reflexivity|simpl in L; lia].
  - destruct ds as [|a [|b [|c [|d more]]]];
      try (cbn [group3]; apply forallb_filter_id; exact H).
    change (group3 (a :: b :: c :: d :: more))
      with (a :: b :: c :: 44 :: group3 (d :: more)).
    change (forallb no_comma (a :: b :: c :: d :: more))
      with (no_comma a && (no_comma b && (no_comma c && forallb no_comma (d :: more)))) in H.
    apply andb_true_iff in H as [Ha H]. apply andb_true_iff in H as [Hb H].
    apply andb_true_iff in H as [Hc H].
    rewrite !filter_keep by assumption. rewrite filter_drop by reflexivity.
    rewrite IH; [reflexivity| |exact H].
    cbn [List.length] in *. lia.
Qed.

Lemma filter_rev {A} (f : A -> bool) (l : list A) : filter f (rev l) = rev (filter f l).
Proof.
  induction l as [|x l IH]; [reflexivity|].
  cbn [rev filter]. rewrite filter_app, IH. cbn [filter].
  destruct (f x); [reflexivity|apply app_nil_r].
Qed.

Lemma digit_no_comma (ds : str) : forallb is_digit ds = true -> forallb no_comma ds = true.
Proof.
  intros H. rewrite forallb_forall in *. intros c Hc.
  specialize (H c Hc). unfold is_digit in H. apply andb_true_iff in H as [H _].
  apply N.leb_le in H. unfold no_comma.
  destruct (N.eqb_spec c 44); [lia|reflexivity].
Qed.

Lemma grouped_without_commas (ds : str) :
  forallb is_digit ds = true ->
  filter no_comma (rev (group3 (rev ds))) = ds.
Proof.
  intros H. rewrite filter_rev.
  rewrite (group3_without_commas (List.length (rev ds))); [apply rev_involutive|lia|].
  apply digit_no_comma. rewrite forallb_forall in *. intros c Hc.
  apply H, in_rev, Hc.
Qed.

(** An amount printed with separators reads back as the amount once
    the commas are dropped. *)
Theorem format_comma_reads_back (z : Z) :
  without_commas (format_comma z) = str_of_int z
  /\ integer_value (str_of_int z) = z.
Proof.
  unfold without_commas, format_comma, str_of_int.
  pose proof (grouped_without_commas _ (digits_are_digits (Z.abs_N z))) as G.
  destruct (Z.ltb_spec z 0) as [Hz|Hz].
  - rewrite filter_keep by reflexivity.
    rewrite G. split; [reflexivity|].
    cbn [integer_value]. change (45 =? 45) with true. cbn iota.
    rewrite digits_value_digits. lia.
  - rewrite G. split; [reflexivity|].
    unfold integer_value.
    pose proof (digits_are_digits (Z.abs_N z)) as D.
    pose proof (digits_nonempty (Z.abs_N z)) as NE.
    destruct (digits (Z.abs_N z)) as [|c ds] eqn:E; [contradiction|].
    cbn [forallb] in D. apply andb_true_iff in D as [Dc _].
    unfold is_digit in Dc. apply andb_true_iff in Dc as [Dc _]. apply N.leb_le in Dc.
    destruct (N.eqb_spec c 45); [lia|].
    rewrite <- E, digits_value_digits. lia.
Qed.

(** ** The prompt text, for every policy *)

Lemma occurs_refl (a : str) : occurs a a.
Proof. exists [], []. rewrite app_nil_r. reflexivity. Qed.

Lemma occurs_trans (a b c : str) : occurs a b -> occurs b c -> occurs a c.
Proof.
  intros (p1 & q1 & ->) (p2 & q2 & ->).
  exists (p2 ++ p1), (q1 ++ q2). rewrite <- !app_assoc. reflexivity.
Qed.

Lemma occurs_inside (pre a post : str) : occurs a (pre ++ a ++ post).
Proof. exists pre, post. reflexivity. Qed.

Lemma occurs_after (pre a : str) : occurs a (pre ++ a).
Proof. exists pre, []. rewrite app_nil_r. reflexivity. Qed.

Lemma occurs_join (sep x : str) (parts : list str) :
  In x parts -> occurs x (join sep parts).
Proof.
  induction parts as [|p parts IH]; [contradiction|].
  intros [->|H].
  - destruct parts; [apply occurs_refl|].
    cbn [join]. exists [], (sep ++ join sep (s :: parts)). reflexivity.
  - specialize (IH H). destruct parts as [|p' parts]; [contradiction|].
    cbn [join]. eapply occurs_trans; [exact IH|].
    exists (p ++ sep), []. rewrite app_nil_r, <- app_assoc. reflexivity.
Qed.

Lemma format_comma_ends_with_digit (z : Z) :
  exists s d, format_comma z = s ++ [d] /\ is_digit d = true.
Proof.
  unfold format_comma.
  pose proof (digits_are_digits (Z.abs_N z)) as D.
  pose proof (digits_nonempty (Z.abs_N z)) as NE.
  destruct (rev (digits (Z.abs_N z))) as [|d0 r] eqn:R.
  { apply (f_equal (@rev N)) in R. rewrite rev_involutive in R. contradiction. }
  assert (Hd : is_digit d0 = true).
  { rewrite forallb_forall in D. apply D, in_rev. rewrite R. left. reflexivity. }
  assert (G : exists more, group3 (d0 :: r) = d0 :: more).
  { destruct r as [|b [|c [|e more]]]; cbn [group3]; eauto. }
  destruct G as [more ->]. cbn [rev].
  destruct (z <? 0)%Z.
  - exists (45 :: rev more), d0. split; [reflexivity|exact Hd].
  - exists (rev more), d0. split; [reflexivity|exact Hd].
Qed.

Lemma digit_not_space (d : N) : is_digit d = true -> isspace d = false.
Proof.
  unfold is_digit. intros H. apply andb_true_iff in H as [H1 H2].
  apply N.leb_le in H1, H2.
  destruct (isspace d) eqn:E; [|reflexivity].
  apply isspace_range in E. lia.
Qed.

(** A text between two newlines that starts and ends with something
    else than whitespace is what [strip] leaves. *)
Lemma strip_between_newlines (c : N) (body : str) (d : N) :
  isspace c = false -> isspace d = false ->
  strip (nl :: (c :: body ++ [d]) ++ [nl]) = c :: body ++ [d].
Proof.
  intros Hc Hd. unfold strip.
  change (lstrip (nl :: (c :: body ++ [d]) ++ [nl]))
    with (lstrip ((c :: body ++ [d]) ++ [nl])).
  cbn [app]. rewrite lstrip_keep by exact Hc.
  change (c :: (body ++ [d]) ++ [nl]) with ((c :: body ++ [d]) ++ [nl]).
  rewrite (rstrip_app_spaces _ [nl] eq_refl).
  change (c :: body ++ [d]) with ((c :: body) ++ [d]).
  apply rstrip_last_keep, Hd.
Qed.

(** The line that is the very term looked for, among the lines of a
    text. *)
Ltac find_line :=
  repeat lazymatch goal with
         | |- ?a = ?b \/ _ => first [constr_eq a b; left; reflexivity | right]
         end.

Section PromptText.

#[local] Opaque utf8 join str_of_int str_of_tenths format_comma.

Lemma render_prompt_text
    (p : policy) (room icu ambulance cataract mental ayush : Z) :
  PyDict.lookup (sub_limits p) (utf8 "room_rent_per_day_inr") = Some room ->
  PyDict.lookup (sub_limits p) (utf8 "icu_rent_per_day_inr") = Some icu ->
  PyDict.lookup (sub_limits p) (utf8 "ambulance_per_event_inr") = Some ambulance ->
  PyDict.lookup (sub_limits p) (utf8 "cataract_per_eye_inr") = Some cataract ->
  PyDict.lookup (sub_limits p) (utf8 "mental_health_inr") = Some mental ->
  PyDict.lookup (sub_limits p) (utf8 "ayush_treatment_inr") = Some ayush ->
  exists t,
    render_prompt p = inr t
    /\ forall line,
         In line
           [ utf8 "- Specific illnesses: "
               ++ join (utf8 "; ")
                    (map illness_entry (specific_illness_months (p_waiting_periods p)));
             utf8 "- Room rent: " ++ rupees room ++ utf8 "/day";
             utf8 "- ICU: " ++ rupees icu ++ utf8 "/day";
             utf8 "- Ambulance: " ++ rupees ambulance ++ utf8 "/event";
             utf8 "- Cataract: " ++ rupees cataract ++ utf8 "/eye";
             utf8 "- Mental health: " ++ rupees mental;
             utf8 "- AYUSH: " ++ rupees ayush;
             utf8 "- Dental: EXCLUDED";
             utf8 "- Cosmetic: EXCLUDED";
             join (utf8 ", ") (common_peds (p_pre_existing_conditions p));
             join [nl] (map (fun x => utf8 "- " ++ x) (exclusions p));
             utf8 "SUM INSURED OPTIONS: "
               ++ join (utf8 ", ") (map rupees (sum_insured_options_inr p)) ] ->
         occurs line t.
Proof.
  intros H1 H2 H3 H4 H5 H6.
  unfold render_prompt, getitem. rewrite H1, H2, H3, H4, H5, H6. cbn [bind ret].
  eexists. split; [reflexivity|].
  intros line Hline.
  destruct (format_comma_ends_with_digit (default_sum_insured_inr p)) as (s & d & Es & Hd).
  match goal with
  | |- occurs line (strip (join_lines ([] :: ?X))) => set (X0 := X)
  end.
  set (L := removelast X0).
  assert (EX : X0 = L ++ [[]]) by reflexivity.
  set (L0 := removelast L).
  assert (EL : L = L0 ++ [utf8 "DEFAULT SUM INSURED: " ++ rupees (default_sum_insured_inr p)])
    by reflexivity.
  assert (E0 : exists body0, join_lines L0 = 80 :: body0).
  { subst L0 L X0. cbn [removelast].
    rewrite join_lines_cons by discriminate.
    change (utf8 "POLICY: ") with (80 :: utf8 "OLICY: ").
    eexists. reflexivity. }
  destruct E0 as [body0 E0].
  assert (EB : exists body, join_lines L = 80 :: body ++ [d]).
  { rewrite EL, join_lines_app; [|subst L0 L X0; discriminate|discriminate].
    change (join_lines [utf8 "DEFAULT SUM INSURED: " ++ rupees (default_sum_insured_inr p)])
      with (utf8 "DEFAULT SUM INSURED: " ++ rupees (default_sum_insured_inr p)).
    unfold rupees. rewrite Es, E0.
    exists (body0 ++ nl :: utf8 "DEFAULT SUM INSURED: " ++ utf8 "₹" ++ s).
    cbn [List.app]. rewrite <- !app_assoc. reflexivity. }
  destruct EB as [body EB].
  assert (ET : strip (join_lines ([] :: X0)) = join_lines L).
  { rewrite EX, join_lines_cons by (destruct L; discriminate).
    rewrite join_lines_app; [|subst L X0; discriminate|discriminate].
    change (join_lines [[]]) with (@nil N).
    rewrite EB. cbn [List.app].
    change (nl :: 80 :: (body ++ [d]) ++ [nl]) with (nl :: (80 :: body ++ [d]) ++ [nl]).
    apply strip_between_newlines; [reflexivity|apply digit_not_space, Hd]. }
  rewrite ET. apply occurs_join.
  subst L X0. cbn [removelast].
  cbn [In] in Hline.
  repeat (destruct Hline as [<-|Hline]; [cbn [In]; find_line|]).
  contradiction.
Qed.

End PromptText.

(** For every content of the policy that has the six sub-limits the
    template names, the prompt text is returned and holds every
    exclusion after a dash, every specific illness with its months,
    every pre-existing condition, every sum insured option, the six
    sub-limits, and dental and cosmetic treatment as excluded whatever
    amounts the policy gives them. *)
Theorem prompt_text_lists_the_policy (p : policy) :
  forallb (fun k => PyDict.has_key (sub_limits p) (utf8 k)) RENDERED_SUB_LIMITS = true ->
  exists t,
    render_prompt p = inr t
    /\ (forall x, In x (exclusions p) -> occurs (utf8 "- " ++ x) t)
    /\ (forall kv, In kv (specific_illness_months (p_waiting_periods p)) ->
          occurs (illness_entry kv) t)
    /\ (forall x, In x (common_peds (p_pre_existing_conditions p)) -> occurs x t)
    /\ (forall amount, In amount (sum_insured_options_inr p) -> occurs (rupees amount) t)
    /\ (forall k amount, In k RENDERED_SUB_LIMITS ->
          PyDict.lookup (sub_limits p) (utf8 k) = Some amount -> occurs (rupees amount) t)
    /\ occurs (utf8 "- Dental: EXCLUDED") t
    /\ occurs (utf8 "- Cosmetic: EXCLUDED") t.
Proof.
  intros H. unfold RENDERED_SUB_LIMITS in H. cbn [forallb] in H.
  apply andb_true_iff in H as [K1 H]. apply andb_true_iff in H as [K2 H].
  apply andb_true_iff in H as [K3 H]. apply andb_true_iff in H as [K4 H].
  apply andb_true_iff in H as [K5 H]. apply andb_true_iff in H as [K6 _].
  apply has_key_lookup in K1 as [z1 E1]. apply has_key_lookup in K2 as [z2 E2].
  apply has_key_lookup in K3 as [z3 E3]. apply has_key_lookup in K4 as [z4 E4].
  apply has_key_lookup in K5 as [z5 E5]. apply has_key_lookup in K6 as [z6 E6].
  destruct (render_prompt_text p z1 z2 z3 z4 z5 z6 E1 E2 E3 E4 E5 E6) as (t & Et & Hl).
  exists t. split; [exact Et|].
  assert (L : forall line needle,
             occurs needle line ->
             In line
               [ utf8 "- Specific illnesses: "
                   ++ join (utf8 "; ")
                        (map illness_entry
                           (specific_illness_months (p_waiting_periods p)));
                 utf8 "- Room rent: " ++ rupees z1 ++ utf8 "/day";
                 utf8 "- ICU: " ++ rupees z2 ++ utf8 "/day";
                 utf8 "- Ambulance: " ++ rupees z3 ++ utf8 "/event";
                 utf8 "- Cataract: " ++ rupees z4 ++ utf8 "/eye";
                 utf8 "- Mental health: " ++ rupees z5;
                 utf8 "- AYUSH: " ++ rupees z6;
                 utf8 "- Dental: EXCLUDED";
                 utf8 "- Cosmetic: EXCLUDED";
                 join (utf8 ", ") (common_peds (p_pre_existing_conditions p));
                 join [nl] (map (fun x => utf8 "- " ++ x) (exclusions p));
                 utf8 "SUM INSURED OPTIONS: "
                   ++ join (utf8 ", ") (map rupees (sum_insured_options_inr p)) ] ->
             occurs needle t).
  { intros line needle Hn Hi. eapply occurs_trans; [exact Hn|apply Hl, Hi]. }
  clear Hl. repeat split.
  - intros x Hx.
    eapply L; [apply occurs_join, (in_map (fun x => utf8 "- " ++ x)), Hx|].
    cbn [In]. tauto.
  - intros kv Hkv.
    eapply L; [eapply occurs_trans; [apply occurs_join, in_map, Hkv|apply occurs_after]|].
    cbn [In]. tauto.
  - intros x Hx. eapply L; [apply occurs_join, Hx|]. cbn [In]. tauto.
  - intros amount Hz.
    eapply L; [eapply occurs_trans; [apply occurs_join, in_map, Hz|apply occurs_after]|].
    cbn [In]. tauto.
  - intros k amount Hk Hz. cbn [In] in Hk.
    destruct Hk as [<-|[<-|[<-|[<-|[<-|[<-|[]]]]]]].
    + assert (amount = z1) by congruence. subst amount.
      eapply L; [apply occurs_inside|]. cbn [In]. tauto.
    + assert (amount = z2) by congruence. subst amount.
      eapply L; [apply occurs_inside|]. cbn [In]. tauto.
    + assert (amount = z3) by congruence. subst amount.
      eapply L; [apply occurs_inside|]. cbn [In]. tauto.
    + assert (amount = z4) by congruence. subst amount.
      eapply L; [apply occurs_inside|]. cbn [In]. tauto.
    + assert (amount = z5) by congruence. subst amount.
      eapply L; [apply occurs_after|]. cbn [In]. tauto.
    + assert (amount = z6) by congruence. subst amount.
      eapply L; [apply occurs_after|]. cbn [In]. tauto.
  - eapply L; [apply occurs_refl|]. cbn [In]. tauto.
  - eapply L; [apply occurs_refl|]. cbn [In]. tauto.
Qed.

Lemma prompt_text_lists_the_policy_witness :
  exists t,
    get_policy_as_prompt_text = inr t
    /\ (forall x, In x (exclusions GENERALISED_POLICY) -> occurs (utf8 "- " ++ x) t)
    /\ (forall kv, In kv (specific_illness_months (p_waiting_periods GENERALISED_POLICY)) ->
          occurs (illness_entry kv) t)
    /\ (forall x, In x (common_peds (p_pre_existing_conditions GENERALISED_POLICY)) ->
          occurs x t)
    /\ (forall amount, In amount (sum_insured_options_inr GENERALISED_POLICY) ->
          occurs (rupees amount) t)
    /\ (forall k amount, In k RENDERED_SUB_LIMITS ->
          PyDict.lookup (sub_limits GENERALISED_POLICY) (utf8 k) = Some amount ->
          occurs (rupees amount) t)
    /\ occurs (utf8 "- Dental: EXCLUDED") t
    /\ occurs (utf8 "- Cosmetic: EXCLUDED") t.
Proof. apply (prompt_text_lists_the_policy GENERALISED_POLICY). reflexivity. Defined.

(** ** The Markdown summary, for every policy *)

Lemma rstrip_nil_spaces (s : str) : rstrip s = [] -> forallb isspace s = true.
Proof.
  intros H. destruct (rstrip_split s) as (w & Hw & E).
  rewrite H in E. cbn [List.app] in E. subst. exact Hw.
Qed.

Lemma rstrip_app_fixed (a b : str) : rstrip a = a -> rstrip (a ++ b) = a ++ rstrip b.
Proof.
  intros Ha. destruct (rstrip b) as [|c r] eqn:E.
  - rewrite rstrip_app_spaces by (apply rstrip_nil_spaces, E).
    rewrite app_nil_r. exact Ha.
  - rewrite <- E. apply rstrip_app_keep. congruence.
Qed.

Lemma occurs_rstrip (s : str) : occurs (rstrip s) s.
Proof.
  destruct (rstrip_split s) as (w & _ & E). exists [], w. exact E.
Qed.

Lemma bullet_rstrip_nonempty (x : str) : rstrip (bullet x) <> [].
Proof.
  unfold bullet. change (utf8 "- ") with [45; 32]. cbn [List.app rstrip].
  destruct (rstrip x); discriminate.
Qed.

(** What [rstrip] leaves of bullets joined by newlines: each of them,
    the last without the whitespace at its end. *)
Lemma occurs_rstrip_bullets (xs : list str) (x : str) :
  In x xs -> occurs (rstrip (bullet x)) (rstrip (join [nl] (map bullet xs))).
Proof.
  intros Hx. destruct (exists_last (l := xs)) as (ps & z & ->).
  { intros ->. contradiction. }
  rewrite map_app. cbn [map].
  assert (J : exists A, join [nl] (map bullet ps ++ [bullet z]) = A ++ bullet z
                        /\ (In x ps -> occurs (bullet x) A)).
  { destruct ps as [|p0 ps'].
    - exists []. split; [reflexivity|contradiction].
    - exists (join [nl] (map bullet (p0 :: ps')) ++ [nl]). split.
      + change (join [nl] (map bullet (p0 :: ps') ++ [bullet z]))
          with (join_lines (map bullet (p0 :: ps') ++ [bullet z])).
        rewrite join_lines_app by discriminate.
        rewrite <- app_assoc. reflexivity.
      + intros H. eapply occurs_trans;
          [apply occurs_join, in_map, H|].
        exists [], [nl]. reflexivity. }
  destruct J as (A & -> & HA).
  rewrite rstrip_app_keep by apply bullet_rstrip_nonempty.
  apply in_app_or in Hx as [Hx|[<-|[]]].
  - eapply occurs_trans; [apply occurs_rstrip|].
    eapply occurs_trans; [apply (HA Hx)|].
    exists [], (rstrip (bullet z)). reflexivity.
  - apply occurs_after.
Qed.

Lemma all_some_map {A B} (f : A -> option B) (g : A -> B) (l : list A) :
  (forall a, In a l -> f a = Some (g a)) -> all_some (map f l) = Some (map g l).
Proof.
  induction l as [|a l IH]; intros H; [reflexivity|].
  cbn [map all_some]. rewrite (H a (or_introl eq_refl)).
  rewrite IH by (intros b Hb; apply H; right; exact Hb). reflexivity.
Qed.

(** The row of an illness whose key is ASCII. *)
Lemma illness_row_ascii (kv : str * Z) :
  forallb (fun c => c <? 128) (fst kv) = true ->
  illness_row kv
  = Some (utf8 "| " ++ title_from false (replace_char 95 32 (fst kv)) ++ utf8 " | "
            ++ str_of_int (snd kv) ++ utf8 " months |").
Proof.
  intros H. unfold illness_row, title.
  assert (R : forallb (fun c => c <? 128) (replace_char 95 32 (fst kv)) = true).
  { unfold replace_char. rewrite forallb_forall in *. intros c Hc.
    apply in_map_iff in Hc as (c0 & <- & Hc0).
    destruct (c0 =? 95); [reflexivity|apply H, Hc0]. }
  rewrite R. reflexivity.
Qed.

Section MarkdownText.

#[local] Opaque utf8 join str_of_int str_of_tenths format_comma bullet.

Lemma render_markdown_text
    (p : policy) (rows : list str) (room icu ambulance cataract mental ayush : Z) :
  all_some (map illness_row (specific_illness_months (p_waiting_periods p))) = Some rows ->
  PyDict.lookup (sub_limits p) (utf8 "room_rent_per_day_inr") = Some room ->
  PyDict.lookup (sub_limits p) (utf8 "icu_rent_per_day_inr") = Some icu ->
  PyDict.lookup (sub_limits p) (utf8 "ambulance_per_event_inr") = Some ambulance ->
  PyDict.lookup (sub_limits p) (utf8 "cataract_per_eye_inr") = Some cataract ->
  PyDict.lookup (sub_limits p) (utf8 "mental_health_inr") = Some mental ->
  PyDict.lookup (sub_limits p) (utf8 "ayush_treatment_inr") = Some ayush ->
  exists t,
    render_markdown p = Some (inr t)
    /\ (forall line,
          In line
            [ join [nl] rows;
              utf8 "| Room Rent / Day | " ++ rupees room ++ utf8 " |";
              utf8 "| ICU Rent / Day | " ++ rupees icu ++ utf8 " |";
              utf8 "| Ambulance / Event | " ++ rupees ambulance ++ utf8 " |";
              utf8 "| Cataract / Eye | " ++ rupees cataract ++ utf8 " |";
              utf8 "| Mental Health | " ++ rupees mental ++ utf8 " |";
              utf8 "| AYUSH Treatment | " ++ rupees ayush ++ utf8 " |";
              utf8 "| Dental | Excluded |";
              utf8 "| Cosmetic Surgery | Excluded |";
              join [nl] (map bullet (common_peds (p_pre_existing_conditions p))) ] ->
          occurs line t)
    /\ occurs (rstrip (join [nl] (map bullet (exclusions p)))) t.
Proof.
  intros Hrows H1 H2 H3 H4 H5 H6.
  unfold render_markdown, getitem. rewrite Hrows, H1, H2, H3, H4, H5, H6. cbn [bind ret].
  eexists. split; [reflexivity|].
  match goal with
  | |- context [strip (join_lines ([] :: ?X))] => set (X0 := X)
  end.
  set (E := join [nl] (map bullet (exclusions p))).
  set (M := removelast (removelast X0)).
  assert (EX : X0 = M ++ [E; []]) by reflexivity.
  assert (E0 : exists body0, join_lines M = 35 :: body0).
  { subst M X0. cbn [removelast].
    rewrite join_lines_cons by discriminate.
    change (utf8 "## ") with (35 :: utf8 "# ").
    eexists. reflexivity. }
  destruct E0 as [body0 E0].
  assert (EM : rstrip (join_lines M) = join_lines M).
  { set (M0 := removelast M).
    assert (EM0 : M = M0 ++ [utf8 "### Exclusions"]) by reflexivity.
    rewrite EM0, join_lines_app; [|subst M0 M X0; discriminate|discriminate].
    change (join_lines [utf8 "### Exclusions"]) with (utf8 "### Exclusion" ++ [115]).
    change (join_lines M0 ++ nl :: utf8 "### Exclusion" ++ [115])
      with (join_lines M0 ++ (nl :: utf8 "### Exclusion") ++ [115]).
    rewrite app_assoc. apply rstrip_last_keep. reflexivity. }
  assert (ET : strip (join_lines ([] :: X0))
               = join_lines M ++ rstrip (nl :: E ++ [nl])).
  { rewrite EX, join_lines_cons by (destruct M; discriminate).
    rewrite join_lines_app; [|subst M X0; discriminate|discriminate].
    change (join_lines [E; []]) with (E ++ [nl]).
    cbn [List.app]. unfold strip.
    assert (LS : lstrip (nl :: join_lines M ++ nl :: E ++ [nl])
                 = join_lines M ++ nl :: E ++ [nl]).
    { change (lstrip (nl :: join_lines M ++ nl :: E ++ [nl]))
        with (lstrip (join_lines M ++ nl :: E ++ [nl])).
      rewrite E0. cbn [List.app]. apply lstrip_keep. reflexivity. }
    rewrite LS. apply rstrip_app_fixed, EM. }
  rewrite ET. split.
  - intros line Hline. eapply occurs_trans; [|exists [], (rstrip (nl :: E ++ [nl])); reflexivity].
    apply occurs_join.
    subst M X0. cbn [removelast].
    cbn [In] in Hline.
    repeat (destruct Hline as [<-|Hline]; [cbn [In]; find_line|]).
    contradiction.
  - change (nl :: E ++ [nl]) with ((nl :: E) ++ [nl]).
    rewrite (rstrip_app_spaces _ [nl] eq_refl).
    destruct (rstrip E) as [|c r] eqn:R.
    + exists (join_lines M ++ rstrip (nl :: E)), []. rewrite !app_nil_r. reflexivity.
    + rewrite <- R.
      change (nl :: E) with ([nl] ++ E). rewrite rstrip_app_keep by congruence.
      exists (join_lines M ++ [nl]), []. rewrite app_nil_r, <- app_assoc. reflexivity.
Qed.

End MarkdownText.

(** For every content of the policy whose illness keys are ASCII and
    that has the six sub-limits the template names, the Markdown
    summary is returned and holds a table row for every specific
    illness, a bullet for every pre-existing condition and every
    exclusion (the last bullet without the whitespace at its end, which
    the final [strip] takes), the six sub-limits, and dental and
    cosmetic treatment as excluded whatever amounts the policy gives
    them. *)
Theorem markdown_lists_the_policy (p : policy) :
  forallb (fun kv => forallb (fun c => c <? 128) (fst kv))
          (specific_illness_months (p_waiting_periods p)) = true ->
  forallb (fun k => PyDict.has_key (sub_limits p) (utf8 k)) RENDERED_SUB_LIMITS = true ->
  exists t,
    render_markdown p = Some (inr t)
    /\ (forall kv, In kv (specific_illness_months (p_waiting_periods p)) ->
          occurs (utf8 "| " ++ title_from false (replace_char 95 32 (fst kv)) ++ utf8 " | "
                    ++ str_of_int (snd kv) ++ utf8 " months |") t)
    /\ (forall x, In x (common_peds (p_pre_existing_conditions p)) -> occurs (bullet x) t)
    /\ (forall x, In x (exclusions p) -> occurs (rstrip (bullet x)) t)
    /\ (forall k amount, In k RENDERED_SUB_LIMITS ->
          PyDict.lookup (sub_limits p) (utf8 k) = Some amount -> occurs (rupees amount) t)
    /\ occurs (utf8 "| Dental | Excluded |") t
    /\ occurs (utf8 "| Cosmetic Surgery | Excluded |") t.
Proof.
  intros Hascii H. unfold RENDERED_SUB_LIMITS in H. cbn [forallb] in H.
  apply andb_true_iff in H as [K1 H]. apply andb_true_iff in H as [K2 H].
  apply andb_true_iff in H as [K3 H]. apply andb_true_iff in H as [K4 H].
  apply andb_true_iff in H as [K5 H]. apply andb_true_iff in H as [K6 _].
  apply has_key_lookup in K1 as [z1 E1]. apply has_key_lookup in K2 as [z2 E2].
  apply has_key_lookup in K3 as [z3 E3]. apply has_key_lookup in K4 as [z4 E4].
  apply has_key_lookup in K5 as [z5 E5]. apply has_key_lookup in K6 as [z6 E6].
  pose proof (all_some_map illness_row
                (fun kv => utf8 "| " ++ title_from false (replace_char 95 32 (fst kv))
                             ++ utf8 " | " ++ str_of_int (snd kv) ++ utf8 " months |")
                (specific_illness_months (p_waiting_periods p))) as Hrows.
  rewrite forallb_forall in Hascii.
  specialize (Hrows (fun kv Hkv => illness_row_ascii kv (Hascii kv Hkv))).
  destruct (render_markdown_text p _ z1 z2 z3 z4 z5 z6 Hrows E1 E2 E3 E4 E5 E6)
    as (t & Et & Hl & He).
  exists t. split; [exact Et|].
  assert (L : forall line needle,
             occurs needle line ->
             In line
               [ join [nl]
                   (map (fun kv => utf8 "| " ++ title_from false (replace_char 95 32 (fst kv))
                                     ++ utf8 " | " ++ str_of_int (snd kv) ++ utf8 " months |")
                        (specific_illness_months (p_waiting_periods p)));
                 utf8 "| Room Rent / Day | " ++ rupees z1 ++ utf8 " |";
                 utf8 "| ICU Rent / Day | " ++ rupees z2 ++ utf8 " |";
                 utf8 "| Ambulance / Event | " ++ rupees z3 ++ utf8 " |";
                 utf8 "| Cataract / Eye | " ++ rupees z4 ++ utf8 " |";
                 utf8 "| Mental Health | " ++ rupees z5 ++ utf8 " |";
                 utf8 "| AYUSH Treatment | " ++ rupees z6 ++ utf8 " |";
                 utf8 "| Dental | Excluded |";
                 utf8 "| Cosmetic Surgery | Excluded |";
                 join [nl] (map bullet (common_peds (p_pre_existing_conditions p))) ] ->
             occurs needle t).
  { intros line needle Hn Hi. eapply occurs_trans; [exact Hn|apply Hl, Hi]. }
  clear Hl. repeat split.
  - intros kv Hkv.
    eapply L; [apply occurs_join,
                 (in_map (fun kv => utf8 "| " ++ title_from false (replace_char 95 32 (fst kv))
                                      ++ utf8 " | " ++ str_of_int (snd kv) ++ utf8 " months |")),
                 Hkv|].
    cbn [In]. tauto.
  - intros x Hx. eapply L; [apply occurs_join, in_map, Hx|]. cbn [In]. tauto.
  - intros x Hx. eapply occurs_trans; [apply occurs_rstrip_bullets, Hx|exact He].
  - intros k amount Hk Hz. cbn [In] in Hk.
    destruct Hk as [<-|[<-|[<-|[<-|[<-|[<-|[]]]]]]].
    + assert (amount = z1) by congruence. subst amount.
      eapply L; [apply occurs_inside|]. cbn [In]. tauto.
    + assert (amount = z2) by congruence. subst amount.
      eapply L; [apply occurs_inside|]. cbn [In]. tauto.
    + assert (amount = z3) by congruence. subst amount.
      eapply L; [apply occurs_inside|]. cbn [In]. tauto.
    + assert (amount = z4) by congruence. subst amount.
      eapply L; [apply occurs_inside|]. cbn [In]. tauto.
    + assert (amount = z5) by congruence. subst amount.
      eapply L; [apply occurs_inside|]. cbn [In]. tauto.
    + assert (amount = z6) by congruence. subst amount.
      eapply L; [apply occurs_inside|]. cbn [In]. tauto.
  - eapply L; [apply occurs_refl|]. cbn [In]. tauto.
  - eapply L; [apply occurs_refl|]. cbn [In]. tauto.
Qed.

Lemma markdown_lists_the_policy_witness :
  exists t,
    get_policy_markdown = Some (inr t)
    /\ (forall kv, In kv (specific_illness_months (p_waiting_periods GENERALISED_POLICY)) ->
          occurs (utf8 "| " ++ title_from false (replace_char 95 32 (fst kv)) ++ utf8 " | "
                    ++ str_of_int (snd kv) ++ utf8 " months |") t)
    /\ (forall x, In x (common_peds (p_pre_existing_conditions GENERALISED_POLICY)) ->
          occurs (bullet x) t)
    /\ (forall x, In x (exclusions GENERALISED_POLICY) -> occurs (rstrip (bullet x)) t)
    /\ (forall k amount, In k RENDERED_SUB_LIMITS ->
          PyDict.lookup (sub_limits GENERALISED_POLICY) (utf8 k) = Some amount ->
          occurs (rupees amount) t)
    /\ occurs (utf8 "| Dental | Excluded |") t
    /\ occurs (utf8 "| Cosmetic Surgery | Excluded |") t.
Proof.
  apply (markdown_lists_the_policy GENERALISED_POLICY); reflexivity.
Defined.

Import Base64 Ocr App.

(** ** Base64 *)

Lemma by_threes {A} (P : list A -> Prop) :
  P [] -> (forall a, P [a]) -> (forall a b, P [a; b]) ->
  (forall a b c rest, P rest -> P (a :: b :: c :: rest)) ->
  forall l, P l.
Proof.
  intros H0 H1 H2 H3.
  assert (G : forall n l, (List.length l <= n)%nat -> P l).
  { induction n as [|n IH]; intros l L.
    - destruct l; [exact H0|simpl in L; lia].
    - destruct l as [|a [|b [|c rest]]]; auto.
      apply H3, IH. simpl in L. lia. }
  intros l. apply (G (List.length l)). lia.
Qed.

(** Four characters for every three bytes, the last group filled up. *)
Theorem b64encode_length (data : bytes) :
  List.length (b64encode data) = (4 * ((List.length data + 2) / 3))%nat.
Proof.
  induction data as [|a|a b|a b c rest IH] using by_threes; try reflexivity.
  cbn [b64encode List.length]. rewrite IH.
  replace (S (S (S (List.length rest))) + 2)%nat
    with (List.length rest + 2 + 1 * 3)%nat by lia.
  rewrite Nat.div_add by lia. lia.
Qed.

Lemma b64_char_injective (i j : N) :
  i < 64 -> j < 64 -> b64_char i = b64_char j -> i = j.
Proof.
  unfold b64_char. intros Hi Hj.
  destruct (N.ltb_spec i 26), (N.ltb_spec i 52), (N.ltb_spec i 62), (N.eqb_spec i 62),
           (N.ltb_spec j 26), (N.ltb_spec j 52), (N.ltb_spec j 62), (N.eqb_spec j 62);
    lia.
Qed.

Lemma b64_char_not_pad (i : N) : b64_char i <> 61.
Proof.
  unfold b64_char.
  destruct (N.ltb_spec i 26), (N.ltb_spec i 52), (N.ltb_spec i 62), (N.eqb_spec i 62); lia.
Qed.

Ltac split_byte a k :=
  let q := fresh "q" in
  let r := fresh "r" in
  let D := fresh "D" in
  let M := fresh "M" in
  assert (D : a = k * (a / k) + a mod k) by (apply N.div_mod; lia);
  assert (M : a mod k < k) by (apply N.mod_lt; lia);
  revert D M; generalize (a mod k) (a / k); intros r q D M.

(** The sextets of a group give its bytes back. *)
Lemma sextets_injective (a b c a' b' c' : N) :
  a < 256 -> b < 256 -> c < 256 -> a' < 256 -> b' < 256 -> c' < 256 ->
  b64_char (a / 4) = b64_char (a' / 4) ->
  b64_char (a mod 4 * 16 + b / 16) = b64_char (a' mod 4 * 16 + b' / 16) ->
  b64_char (b mod 16 * 4 + c / 64) = b64_char (b' mod 16 * 4 + c' / 64) ->
  b64_char (c mod 64) = b64_char (c' mod 64) ->
  a = a' /\ b = b' /\ c = c'.
Proof.
  intros Ha Hb Hc Ha' Hb' Hc'.
  split_byte a 4. split_byte b 16. split_byte c 64.
  split_byte a' 4. split_byte b' 16. split_byte c' 64.
  intros E1 E2 E3 E4.
  apply b64_char_injective in E1, E2, E3, E4; lia.
Qed.

(** Two [bytes] objects with the same encoding are the same. *)
Theorem b64encode_injective (x y : bytes) :
  Forall (fun b => b < 256) x -> Forall (fun b => b < 256) y ->
  b64encode x = b64encode y -> x = y.
Proof.
  revert y. induction x as [|a|a b|a b c rest IH] using by_threes;
    intros y Hx Hy E;
    destruct y as [|a' [|b' [|c' rest']]]; try discriminate E;
    try reflexivity;
    cbn [b64encode] in E;
    repeat match goal with
    | H : Forall _ (_ :: _) |- _ => apply Forall_cons_iff in H; destruct H
    end.
  - injection E as E1 E2.
    destruct (sextets_injective a 0 0 a' 0 0) as (-> & _); auto; try lia.
    + rewrite !N.add_0_r. exact E2.
  - injection E as _ _ E3. symmetry in E3. apply b64_char_not_pad in E3. contradiction.
  - injection E as _ _ E3 _. symmetry in E3. apply b64_char_not_pad in E3. contradiction.
  - injection E as _ _ E3. apply b64_char_not_pad in E3. contradiction.
  - injection E as E1 E2 E3.
    destruct (sextets_injective a b 0 a' b' 0) as (-> & -> & _); auto; try lia.
    + rewrite !N.add_0_r. exact E3.
  - injection E as _ _ _ E4. symmetry in E4. apply b64_char_not_pad in E4. contradiction.
  - injection E as _ _ E3 _. apply b64_char_not_pad in E3. contradiction.
  - injection E as _ _ _ E4. apply b64_char_not_pad in E4. contradiction.
  - injection E as E1 E2 E3 E4 E5.
    destruct (sextets_injective a b c a' b' c') as (-> & -> & ->); auto.
    f_equal. f_equal. f_equal. apply IH; assumption.
Qed.

Lemma b64encode_injective_witness :
  [137; 80; 78; 71] = [137; 80; 78; 71].
Proof.
  apply (b64encode_injective [137; 80; 78; 71] [137; 80; 78; 71]);
    try (repeat constructor; reflexivity).
Defined.

(** ** The bill reader *)

Section Reader.
Context {page : Type}.
Variable lib : libraries page.
Variable groq_client : Groq.

Lemma vision_extract_content (b64 media label text : str) :
  create lib groq_client (vision_request_for b64 media label) = Content text ->
  _vision_extract lib groq_client b64 media label
  = (inr (strip text), [vision_request_for b64 media label]).
Proof. intros H. unfold _vision_extract. rewrite H. reflexivity. Qed.

Lemma vision_extract_failed (b64 media label cause : str) :
  create lib groq_client (vision_request_for b64 media label) = Failed cause ->
  _vision_extract lib groq_client b64 media label
  = (inl (ServiceError cause), [vision_request_for b64 media label]).
Proof. intros H. unfold _vision_extract. rewrite H. reflexivity. Qed.

Lemma vision_pages_all (total : nat) (pages : list bytes) :
  forall i,
    Forall (answered lib groq_client)
           (map (page_request total) (numbered_from i pages)) ->
    vision_pages lib groq_client total i pages
    = (inr (map (page_section lib groq_client total) (numbered_from i pages)),
       map (page_request total) (numbered_from i pages)).
Proof.
  induction pages as [|p pages IH]; intros i H; [reflexivity|].
  unfold numbered_from in *. cbn [List.length seq combine map] in *.
  apply Forall_cons_iff in H as [[text Ht] H].
  assert (Ht' := Ht). unfold page_request in Ht'. cbn [fst snd] in Ht'.
  cbn [vision_pages].
  rewrite (vision_extract_content _ _ _ _ Ht'), (IH (S i) H).
  unfold page_section at 2. rewrite Ht. reflexivity.
Qed.

Lemma numbered_from_app (i : nat) (before : list bytes) (p : bytes) (after : list bytes) :
  numbered_from i (before ++ p :: after)
  = numbered_from i before
      ++ ((i + List.length before)%nat, p)
      :: numbered_from (S (i + List.length before)) after.
Proof.
  revert i. induction before as [|b before IH]; intros i.
  - unfold numbered_from. cbn [app List.length seq combine]. rewrite Nat.add_0_r.
    reflexivity.
  - unfold numbered_from in *. cbn [app List.length seq combine].
    rewrite (IH (S i)).
    replace (S i + List.length before)%nat with (i + S (List.length before))%nat by lia.
    reflexivity.
Qed.

Lemma numbered_from_length (i : nat) (pages : list bytes) :
  List.length (numbered_from i pages) = List.length pages.
Proof.
  unfold numbered_from. rewrite length_combine, length_seq. lia.
Qed.

Lemma vision_pages_stop (total : nat) (before : list bytes) (p : bytes)
    (after : list bytes) (cause : str) :
  forall i,
    Forall (answered lib groq_client)
           (map (page_request total) (numbered_from i before)) ->
    create lib groq_client (page_request total ((i + List.length before)%nat, p))
      = Failed cause ->
    vision_pages lib groq_client total i (before ++ p :: after)
    = (inl (ServiceError cause),
       map (page_request total) (numbered_from i before)
         ++ [page_request total ((i + List.length before)%nat, p)]).
Proof.
  induction before as [|b before IH]; intros i H Hp.
  - cbn [app vision_pages List.length] in *. rewrite Nat.add_0_r in Hp.
    unfold page_request in Hp. cbn [fst snd] in Hp.
    rewrite (vision_extract_failed _ _ _ _ Hp). rewrite Nat.add_0_r. reflexivity.
  - unfold numbered_from in *. cbn [List.length seq combine map app] in *.
    apply Forall_cons_iff in H as [[text Ht] H].
    unfold page_request in Ht at 1. cbn [fst snd] in Ht.
    cbn [vision_pages].
    rewrite (vision_extract_content _ _ _ _ Ht).
    rewrite (IH (S i) H).
    + replace (S i + List.length before)%nat with (i + S (List.length before))%nat by lia.
      reflexivity.
    + replace (S i + List.length before)%nat with (i + S (List.length before))%nat by lia.
      exact Hp.
Qed.

Lemma extract_pdf (file_bytes : bytes) (filename : str) (page_images : list bytes) :
  endswith (lower filename) (utf8 ".pdf") = true ->
  _pdf_to_images lib file_bytes = inr page_images ->
  page_images <> [] ->
  extract_text_from_bytes lib file_bytes filename groq_client
  = match vision_pages lib groq_client (List.length page_images) 1 page_images with
    | (inl e, reqs) => (inl e, reqs)
    | (inr page_texts, reqs) => (inr (join PAGE_BREAK page_texts), reqs)
    end.
Proof.
  intros Hext Hpdf NE. unfold extract_text_from_bytes. rewrite Hext, Hpdf.
  destruct page_images; [contradiction|reflexivity].
Qed.

(** A PDF whose pages are all answered: one request per page, in the
    order of the pages and numbered from 1, and the answers joined in
    that order.  A PDF without pages gives the notice and sends
    nothing. *)
Theorem pdf_pages_read_in_order
    (file_bytes : bytes) (filename : str) (page_images : list bytes) :
  endswith (lower filename) (utf8 ".pdf") = true ->
  _pdf_to_images lib file_bytes = inr page_images ->
  Forall (answered lib groq_client) (page_requests page_images) ->
  extract_text_from_bytes lib file_bytes filename groq_client
  = (inr (match page_images with
          | [] => NO_PAGES
          | _ :: _ =>
              join PAGE_BREAK
                (map (page_section lib groq_client (List.length page_images))
                     (numbered page_images))
          end),
     page_requests page_images).
Proof.
  intros Hext Hpdf Hall. unfold extract_text_from_bytes.
  rewrite Hext, Hpdf. destruct page_images as [|p rest]; [reflexivity|].
  unfold page_requests, numbered in *.
  rewrite (vision_pages_all _ _ 1%nat Hall). reflexivity.
Qed.

(** A PDF one page of which the model fails on: the pages before it
    were sent, that page was sent, the pages after it are not, and the
    error of the client comes out. *)
Theorem pdf_reading_stops_at_failure
    (file_bytes : bytes) (filename : str) (page_images : list bytes)
    (k : nat) (req : vision_request) (cause : str) :
  endswith (lower filename) (utf8 ".pdf") = true ->
  _pdf_to_images lib file_bytes = inr page_images ->
  Forall (answered lib groq_client) (firstn k (page_requests page_images)) ->
  nth_error (page_requests page_images) k = Some req ->
  create lib groq_client req = Failed cause ->
  extract_text_from_bytes lib file_bytes filename groq_client
  = (inl (ServiceError cause), firstn (S k) (page_requests page_images)).
Proof.
  intros Hext Hpdf Hbefore Hnth Hreq.
  assert (K : (k < List.length page_images)%nat).
  { assert (N : nth_error (page_requests page_images) k <> None) by congruence.
    apply nth_error_Some in N.
    unfold page_requests, numbered in N.
    rewrite length_map, numbered_from_length in N. exact N. }
  destruct (nth_error page_images k) as [p|] eqn:Ep;
    [|apply nth_error_None in Ep; lia].
  apply nth_error_split in Ep as (before & after & Epages & Ek).
  subst page_images k.
  set (total := List.length (before ++ p :: after)) in *.
  assert (E : page_requests (before ++ p :: after)
              = map (page_request total) (numbered_from 1 before)
                  ++ page_request total (S (List.length before), p)
                  :: map (page_request total)
                       (numbered_from (S (S (List.length before))) after)).
  { unfold page_requests, numbered. fold total.
    rewrite numbered_from_app, map_app. reflexivity. }
  assert (L : List.length (map (page_request total) (numbered_from 1 before))
              = List.length before).
  { rewrite length_map. apply numbered_from_length. }
  rewrite E, nth_error_app2 in Hnth by lia.
  rewrite L, Nat.sub_diag in Hnth. injection Hnth as <-.
  rewrite (extract_pdf _ _ _ Hext Hpdf) by (destruct before; discriminate).
  fold total.
  rewrite E in Hbefore. rewrite firstn_app, L, Nat.sub_diag in Hbefore.
  cbn [firstn] in Hbefore. rewrite app_nil_r in Hbefore.
  rewrite <- L in Hbefore at 1. rewrite firstn_all in Hbefore.
  rewrite (vision_pages_stop total before p after cause 1%nat Hbefore Hreq).
  rewrite E, firstn_app, L. rewrite firstn_all2 by lia.
  replace (S (List.length before) - List.length before)%nat with 1%nat by lia.
  reflexivity.
Qed.

Lemma vision_pages_requests (total : nat) (pages : list bytes) :
  forall i,
    Forall (fun req => exists image label,
              req = vision_request_for (b64encode image) JPEG label)
           (snd (vision_pages lib groq_client total i pages)).
Proof.
  induction pages as [|p pages IH]; intros i; [constructor|].
  cbn [vision_pages]. unfold _vision_extract.
  destruct (create lib groq_client _) as [text|cause].
  - specialize (IH (S i)).
    destruct (vision_pages lib groq_client total (S i) pages) as [[e|texts] more];
      cbn [snd app] in *; constructor; eauto.
  - cbn [snd]. constructor; eauto.
Qed.

(** Whatever the file is and whatever the libraries give back, every
    request that goes out has the same model and token limit, an image
    announced as JPEG and given in base64, and the prompt after a label
    between brackets. *)
Theorem every_request_carries_a_jpeg (file_bytes : bytes) (filename : str) :
  Forall (fun req => exists image label,
            req = vision_request_for (b64encode image) JPEG label)
         (snd (extract_text_from_bytes lib file_bytes filename groq_client)).
Proof.
  unfold extract_text_from_bytes.
  destruct (endswith (lower filename) (utf8 ".pdf")).
  - destruct (_pdf_to_images lib file_bytes) as [e|[|p pages]]; try constructor.
    pose proof (vision_pages_requests (List.length (p :: pages)) (p :: pages) 1) as H.
    destruct (vision_pages lib groq_client (List.length (p :: pages)) 1 (p :: pages))
      as [[e|texts] reqs]; exact H.
  - unfold _to_base64_jpeg.
    destruct (endswith (lower filename) (utf8 ".jpg") || endswith (lower filename) (utf8 ".jpeg")).
    + cbn [ret]. unfold _vision_extract.
      destruct (create lib groq_client _); cbn [snd]; constructor; eauto.
    + destruct (convert_jpeg lib file_bytes) as [e|jpeg]; cbn [bind ret]; [constructor|].
      unfold _vision_extract.
      destruct (create lib groq_client _); cbn [snd]; constructor; eauto.
Qed.

End Reader.

Lemma pdf_pages_read_in_order_witness :
  extract_text_from_bytes (sample_libraries [[1]; [2; 3]] (utf8 "[Page 9 of"))
    [37; 80] (utf8 "Bill.PDF") {| api_key := utf8 "k" |}
  = (inr (join PAGE_BREAK
            (map (page_section (sample_libraries [[1]; [2; 3]] (utf8 "[Page 9 of"))
                    {| api_key := utf8 "k" |} 2)
                 (numbered [[1]; [2; 3]]))),
     page_requests [[1]; [2; 3]]).
Proof.
  apply (pdf_pages_read_in_order (sample_libraries [[1]; [2; 3]] (utf8 "[Page 9 of"))
           {| api_key := utf8 "k" |} [37; 80] (utf8 "Bill.PDF") [[1]; [2; 3]]).
  - reflexivity.
  - reflexivity.
  - repeat constructor; exists (utf8 " ok "); vm_compute; reflexivity.
Defined.

Lemma pdf_reading_stops_at_failure_witness :
  extract_text_from_bytes (sample_libraries [[1]; [2; 3]; [4]] (utf8 "[Page 2 of"))
    [37; 80] (utf8 "bill.pdf") {| api_key := utf8 "k" |}
  = (inl (ServiceError (utf8 "quota")), firstn 2 (page_requests [[1]; [2; 3]; [4]])).
Proof.
  apply (pdf_reading_stops_at_failure
           (sample_libraries [[1]; [2; 3]; [4]] (utf8 "[Page 2 of"))
           {| api_key := utf8 "k" |} [37; 80] (utf8 "bill.pdf") [[1]; [2; 3]; [4]] 1
           (page_request 3 (2%nat, [2; 3])) (utf8 "quota")).
  - reflexivity.
  - reflexivity.
  - repeat constructor; exists (utf8 " ok "); vm_compute; reflexivity.
  - reflexivity.
  - vm_compute. reflexivity.
Defined.

(** ** The session state *)

Lemma str_eqb_sym (a b : str) : str_eqb a b = str_eqb b a.
Proof.
  destruct (str_eqb a b) eqn:E.
  - apply str_eqb_eq in E. subst. symmetry. apply str_eqb_refl.
  - destruct (str_eqb b a) eqn:E'; [|reflexivity].
    apply str_eqb_eq in E'. subst. rewrite str_eqb_refl in E. discriminate.
Qed.

Lemma lookup_set {V} (d : PyDict.dict V) (k k' : str) (v : V) :
  PyDict.lookup (PyDict.set d k v) k'
  = if str_eqb k k' then Some v else PyDict.lookup d k'.
Proof.
  induction d as [|[k0 v0] d IH]; cbn [PyDict.set PyDict.lookup].
  - reflexivity.
  - destruct (str_eqb k0 k) eqn:E0.
    + apply str_eqb_eq in E0. subst k0. cbn [PyDict.lookup].
      destruct (str_eqb k k'); reflexivity.
    + cbn [PyDict.lookup]. rewrite IH.
      destruct (str_eqb k0 k') eqn:E1; [|reflexivity].
      apply str_eqb_eq in E1. subst k0.
      rewrite str_eqb_sym, E0. reflexivity.
Qed.

Lemma fill_lookup {V} (ds : list (str * V)) :
  forall (st : PyDict.dict V) (k : str),
    PyDict.lookup
      (fold_left (fun st kv => if PyDict.has_key st (fst kv) then st
                               else PyDict.set st (fst kv) (snd kv)) ds st) k
    = match PyDict.lookup st k with
      | Some v => Some v
      | None => PyDict.lookup ds k
      end.
Proof.
  induction ds as [|[k0 v0] ds IH]; intros st k; cbn [fold_left fst snd].
  - destruct (PyDict.lookup st k); reflexivity.
  - rewrite IH. cbn [PyDict.lookup].
    destruct (PyDict.has_key st k0) eqn:H0.
    + destruct (PyDict.lookup st k) eqn:E; [reflexivity|].
      destruct (str_eqb k0 k) eqn:E0; [|reflexivity].
      apply str_eqb_eq in E0. subst k0.
      apply has_key_false in E. congruence.
    + rewrite lookup_set.
      destruct (str_eqb k0 k) eqn:E0.
      * apply str_eqb_eq in E0. subst k0.
        apply has_key_false in H0. rewrite H0. reflexivity.
      * destruct (PyDict.lookup st k); reflexivity.
Qed.

(** After [_init_state] an entry that was there has the value it had,
    and an entry that was missing has its default. *)
Theorem init_state_keeps_and_fills (session_state : PyDict.dict cell) (k : str) :
  PyDict.lookup (_init_state session_state) k
  = match PyDict.lookup session_state k with
    | Some v => Some v
    | None => PyDict.lookup defaults k
    end.
Proof. apply fill_lookup. Qed.

Lemma fill_present {V} (ds : list (str * V)) :
  forall st : PyDict.dict V,
    forallb (fun kv => PyDict.has_key st (fst kv)) ds = true ->
    fold_left (fun st kv => if PyDict.has_key st (fst kv) then st
                            else PyDict.set st (fst kv) (snd kv)) ds st = st.
Proof.
  induction ds as [|kv ds IH]; intros st H; [reflexivity|].
  cbn [forallb] in H. apply andb_true_iff in H as [H0 H].
  cbn [fold_left]. rewrite H0. apply IH, H.
Qed.

(** A session state that has the seven entries is left as it is, which
    is the case on every run after the first. *)
Theorem init_state_leaves_initialised (session_state : PyDict.dict cell) :
  forallb (fun kv => PyDict.has_key session_state (fst kv)) defaults = true ->
  _init_state session_state = session_state.
Proof. apply fill_present. Qed.

Lemma init_state_leaves_initialised_witness :
  _init_state (cells FRESH) = cells FRESH.
Proof. apply (init_state_leaves_initialised (cells FRESH)). reflexivity. Defined.

Lemma init_state_fresh : _init_state [] = cells FRESH.
Proof. reflexivity. Qed.

(** The record [session] stands for a session state that
    [_init_state] has been through: the first run starts from [FRESH],
    and no later call changes anything. *)
Lemma init_state_cells (s : session) : _init_state (cells s) = cells s.
Proof. apply fill_present. reflexivity. Qed.

(** ** The results section *)

Lemma status_is_exclusive (i1 i2 : str) (r : value) (h1 h2 : bool) :
  str_eqb i1 i2 = false ->
  status_is i1 r = inr h1 -> status_is i2 r = inr h2 -> h1 && h2 = false.
Proof.
  intros D. unfold status_is.
  destruct (py_get r (utf8 "status") (JStr [])) as [e|status]; cbn [bind ret];
    [discriminate|].
  intros H1 H2. injection H1 as <-. injection H2 as <-.
  destruct status; try reflexivity.
  destruct (str_eqb (strip s) i1) eqn:E1; [|reflexivity].
  destruct (str_eqb (strip s) i2) eqn:E2; [|reflexivity].
  apply str_eqb_eq in E1, E2. subst. rewrite str_eqb_refl in D. discriminate.
Qed.

Lemma count_status_cons (icon : str) (r : value) (rest : list value) (n : nat) :
  count_status icon (r :: rest) = inr n ->
  exists h m, status_is icon r = inr h /\ count_status icon rest = inr m
              /\ n = if h then S m else m.
Proof.
  cbn [count_status].
  destruct (status_is icon r) as [e|h]; cbn [bind]; [discriminate|].
  destruct (count_status icon rest) as [e|m]; cbn [bind ret]; [discriminate|].
  intros H. injection H as <-. eauto.
Qed.

Lemma counts_exclusive (i1 i2 i3 : str) (items : list value) :
  str_eqb i1 i2 = false -> str_eqb i1 i3 = false -> str_eqb i2 i3 = false ->
  forall a b c,
    count_status i1 items = inr a -> count_status i2 items = inr b ->
    count_status i3 items = inr c ->
    (a + b + c <= List.length items)%nat.
Proof.
  intros D12 D13 D23. induction items as [|r rest IH]; intros a b c Ha Hb Hc.
  - injection Ha as <-. injection Hb as <-. injection Hc as <-. simpl. lia.
  - apply count_status_cons in Ha as (h1 & m1 & S1 & C1 & ->).
    apply count_status_cons in Hb as (h2 & m2 & S2 & C2 & ->).
    apply count_status_cons in Hc as (h3 & m3 & S3 & C3 & ->).
    specialize (IH _ _ _ C1 C2 C3).
    pose proof (status_is_exclusive _ _ _ _ _ D12 S1 S2).
    pose proof (status_is_exclusive _ _ _ _ _ D13 S1 S3).
    pose proof (status_is_exclusive _ _ _ _ _ D23 S2 S3).
    cbn [List.length]. destruct h1, h2, h3; try discriminate; lia.
Qed.

Lemma py_len_iter (rows : value) (n : nat) (items : list value) :
  py_len rows = inr n -> py_iter rows = inr items -> n = List.length items.
Proof.
  destruct rows; try discriminate; cbn [py_len py_iter ret];
    intros H1 H2; injection H1 as <-; injection H2 as <-;
    rewrite ?length_map; reflexivity.
Qed.

(** The three counters count different rows: together they never
    exceed the number of rows. *)
Theorem status_counts_within_total (rows : value) (c : counts) :
  status_counts rows = inr c ->
  (count_ok c + count_warn c + count_fail c <= count_total c)%nat.
Proof.
  unfold status_counts.
  destruct (py_len rows) as [e|n] eqn:L; cbn [bind]; [discriminate|].
  destruct (py_iter rows) as [e|items] eqn:I; cbn [bind]; [discriminate|].
  destruct (count_status (utf8 "✅") items) as [e|a] eqn:A; cbn [bind]; [discriminate|].
  destruct (count_status (utf8 "⚠️") items) as [e|b] eqn:B; cbn [bind]; [discriminate|].
  destruct (count_status (utf8 "❌") items) as [e|f] eqn:F; cbn [bind ret]; [discriminate|].
  intros H. injection H as <-. cbn [count_ok count_warn count_fail count_total].
  rewrite (py_len_iter _ _ _ L I).
  eapply counts_exclusive; [| | |exact A|exact B|exact F]; reflexivity.
Qed.

Lemma status_counts_within_total_witness :
  (count_ok {| count_total := 3; count_ok := 1; count_warn := 0; count_fail := 1 |}
   + count_warn {| count_total := 3; count_ok := 1; count_warn := 0; count_fail := 1 |}
   + count_fail {| count_total := 3; count_ok := 1; count_warn := 0; count_fail := 1 |}
   <= count_total {| count_total := 3; count_ok := 1; count_warn := 0; count_fail := 1 |})%nat.
Proof.
  apply (status_counts_within_total rows_of_three
           {| count_total := 3; count_ok := 1; count_warn := 0; count_fail := 1 |}).
  reflexivity.
Defined.

(** A row that is not an object stops the counting. *)
Lemma count_status_bad_row (icon : str) (items : list value) :
  existsb (fun r => negb (is_dict r)) items = true ->
  count_status icon items = inl AttributeError.
Proof.
  induction items as [|r rest IH]; [discriminate|].
  cbn [existsb count_status]. intros H.
  destruct r; cbn [is_dict negb orb] in H; try reflexivity.
  unfold status_is. cbn [py_get bind ret]. rewrite (IH H). reflexivity.
Qed.

Lemma status_counts_bad_row (items : list value) :
  existsb (fun r => negb (is_dict r)) items = true ->
  status_counts (JList items) = inl AttributeError.
Proof.
  intros H. unfold status_counts. cbn [py_len py_iter bind ret].
  rewrite (count_status_bad_row _ _ H). reflexivity.
Qed.

(** Every cell of a row gets the same style, and the style is one of
    four: dark text on the colour of a known status, or white text on
    the dark fallback. *)
Theorem colour_row_styles (row : PyDict.dict str) :
  exists style,
    _colour_row row = repeat style (List.length row) /\ In style ROW_STYLES.
Proof.
  unfold _colour_row.
  set (status := strip (PyDict.get row (utf8 "Status") [])).
  eexists. split; [reflexivity|].
  unfold STATUS_COLOURS, PyDict.get. cbn [PyDict.lookup PyDict.has_key].
  destruct (str_eqb (utf8 "✅") status); [left; reflexivity|].
  destruct (str_eqb (utf8 "⚠️") status); [right; left; reflexivity|].
  destruct (str_eqb (utf8 "❌") status); [right; right; left; reflexivity|].
  right; right; right; left; reflexivity.
Qed.

(** ** What [audit_claim] hands to the dashboard *)

Lemma log_summary_shape (p : value) (r : nat * value) :
  log_summary p = inr r ->
  exists d e n,
    p = JDict d
    /\ py_len (PyDict.get d (utf8 "rows") (JList [])) = inr n
    /\ PyDict.get d (utf8 "eligibility") (JDict []) = JDict e.
Proof.
  unfold log_summary. destruct p; try discriminate. cbn [py_get bind ret].
  destruct (py_len (PyDict.get members (utf8 "rows") (JList []))) as [e|n] eqn:L;
    cbn [bind]; [discriminate|].
  destruct (PyDict.get members (utf8 "eligibility") (JDict [])) eqn:E;
    try discriminate.
  intros _. eauto 6.
Qed.

(** What comes back from [audit_claim] is an object that is not empty,
    whose rows have a length and whose eligibility is an object. *)
Lemma normalise_returns (raw : str) (v : value) :
  normalise raw = inr v ->
  exists d e n,
    v = JDict d /\ d <> []
    /\ py_len (PyDict.get d (utf8 "rows") (JList [])) = inr n
    /\ PyDict.get d (utf8 "eligibility") (JDict []) = JDict e.
Proof.
  unfold normalise.
  destruct (parse_response raw) as [e|parsed]; cbn [bind]; [discriminate|].
  destruct (repair parsed) as [e|p] eqn:R; cbn [bind]; [discriminate|].
  destruct (log_summary p) as [e|r] eqn:L; cbn [bind ret]; [discriminate|].
  intros H. injection H as <-.
  destruct (log_summary_shape _ _ L) as (d & e & n & -> & Hn & He).
  exists d, e, n. repeat split; try assumption.
  unfold repair in R.
  destruct (py_in (utf8 "rows") parsed) as [x|has] eqn:I; cbn [bind] in R; [discriminate|].
  destruct has; cbn [negb] in R.
  - injection R as ->. cbn [py_in ret] in I. injection I as I.
    intros ->. discriminate.
  - destruct (py_values parsed) as [x|vs]; cbn [bind] in R; [discriminate|].
    destruct (py_get parsed (utf8 "eligibility") FALLBACK_ELIGIBILITY) as [x|el];
      cbn [bind ret] in R; [discriminate|].
    injection R as <-. discriminate.
Qed.

(** For a value [audit_claim] returned, the banner of the results is
    computed unless the verdict is an array or an object, which cannot
    be looked up in the colour table. *)
Theorem banner_of_audit_result (raw : str) (v : value) :
  normalise raw = inr v ->
  exists d e,
    v = JDict d
    /\ PyDict.get d (utf8 "eligibility") (JDict []) = JDict e
    /\ match PyDict.get e (utf8 "verdict") (JStr (utf8 "Unknown")) with
       | JList _ => results_header v = inl TypeError
       | JDict _ => results_header v = inl TypeError
       | _ => exists h, results_header v = inr h
       end.
Proof.
  intros H. destruct (normalise_returns _ _ H) as (d & e & n & -> & _ & _ & He).
  exists d, e. repeat split; [exact He|].
  unfold results_header. cbn [py_get bind ret]. rewrite He. cbn [py_get bind ret].
  destruct (PyDict.get e (utf8 "verdict") (JStr (utf8 "Unknown")));
    cbn [table_get bind ret raise]; eauto.
Qed.

Lemma banner_of_audit_result_witness :
  exists d e,
    result_verdict_array = JDict d
    /\ PyDict.get d (utf8 "eligibility") (JDict []) = JDict e
    /\ match PyDict.get e (utf8 "verdict") (JStr (utf8 "Unknown")) with
       | JList _ => results_header result_verdict_array = inl TypeError
       | JDict _ => results_header result_verdict_array = inl TypeError
       | _ => exists h, results_header result_verdict_array = inr h
       end.
Proof.
  apply (banner_of_audit_result (clean_response reply_verdict_array) result_verdict_array).
  vm_compute. reflexivity.
Defined.

(** ** The runs of the dashboard *)

Section Runs.
Context {page : Type}.




Variable w : surroundings page.









(** A stored result whose rows hold something that is not an object,
    as [audit_claim] returns for a reply with such rows: the results
    section raises while it counts, the run ends there with the session
    as it was, and the reset button under the results is not reached,
    pressed or not. *)
Theorem bad_row_blocks_reset
    (d : PyDict.dict value) (items : list value) (a : dashboard) :
  audit_result (state a) = Some (JDict d) ->
  PyDict.get d (utf8 "rows") (JList []) = JList items ->
  existsb (fun r => negb (is_dict r)) items = true ->
  exists exc, results_step w a = (Some (Crashed exc), a).
Proof.
  intros Ha Hrows Hbad.
  unfold results_step. rewrite Ha.
  destruct d as [|kv d'] eqn:D.
  { cbn in Hrows. injection Hrows as <-. discriminate. }
  cbn [py_truthy]. rewrite <- D in *.
  unfold results_section.
  destruct (results_header (JDict d)) as [exc|h] eqn:H; [eauto|].
  assert (Rh : rows h = JList items).
  { unfold results_header in H. cbn [py_get bind ret] in H. rewrite Hrows in H.
    destruct (py_get _ _ _) as [x|verdict]; cbn [bind] in H; [discriminate|].
    destruct (py_get _ _ _) as [x|summary]; cbn [bind] in H; [discriminate|].
    destruct (py_get _ _ _) as [x|steps]; cbn [bind] in H; [discriminate|].
    destruct (table_get _ _ _) as [x|colour]; cbn [bind] in H; [discriminate|].
    destruct (table_get _ _ _) as [x|icon]; cbn [bind ret] in H; [discriminate|].
    injection H as <-. reflexivity. }
  rewrite Rh, (status_counts_bad_row _ Hbad). eauto.
Qed.

End Runs.

Lemma bad_row_blocks_reset_witness :
  normalise (clean_response reply_row_number) = inr result_row_number
  /\ reset_btn reset_pressed = true
  /\ exists exc,
       results_step reset_pressed session_with_bad_row
       = (Some (Crashed exc), session_with_bad_row).
Proof.
  split; [vm_compute; reflexivity|]. split; [reflexivity|].
  apply (bad_row_blocks_reset reset_pressed
           [(utf8 "rows", JList [JInt 1])] [JInt 1] session_with_bad_row);
    reflexivity.
Defined.

